(** * V4L2 backend of the Aravis camera library

    A shallow embedding of the two translation units of the V4L2 backend:
    the device adapter (virtual register map and format enumeration) and
    the stream acquisition thread.  Kernel calls ([v4l2_ioctl]) and the
    other collaborators (input queue, clock) are inputs of the model; every
    function below follows the C function of the same name. *)

From Stdlib Require Import ZArith String Ascii List Lia DecimalString.
From Stdlib.Strings Require Import Byte.
From stdpp Require Import base list gmap strings.

Open Scope Z_scope.

(** ** Machine integers *)

Definition to_guint32 (z : Z) : Z := z mod 2 ^ 32.

Definition to_gint32 (z : Z) : Z :=
  let u := z mod 2 ^ 32 in if u <? 2 ^ 31 then u else u - 2 ^ 32.

Definition to_guint64 (z : Z) : Z := z mod 2 ^ 64.

(** ** Bytes, C strings and text *)

Definition byte_of_Z (z : Z) : byte :=
  byte_of_ascii (ascii_of_N (Z.to_N (z mod 256))).

Definition Z_of_byte (b : byte) : Z := Z.of_N (Byte.to_N b).

(** [memcpy (buffer, &value, 4)] on a little-endian host. *)
Definition bytes_of_gint32 (value : Z) : list byte :=
  let u := to_guint32 value in
  [byte_of_Z u; byte_of_Z (Z.shiftr u 8); byte_of_Z (Z.shiftr u 16); byte_of_Z (Z.shiftr u 24)].

(** [memcpy (&value, buffer, 4)]; bytes missing from a short buffer read as 0. *)
Definition gint32_of_bytes (buffer : list byte) : Z :=
  let b (i : nat) := Z_of_byte (nth i buffer x00) in
  to_gint32 (b 0%nat + Z.shiftl (b 1%nat) 8 + Z.shiftl (b 2%nat) 16 + Z.shiftl (b 3%nat) 24).

(** The characters of a C string: everything before the first NUL. *)
Fixpoint c_str_bytes (l : list byte) : list byte :=
  match l with
  | [] => []
  | c :: rest => if Byte.eqb c x00 then [] else c :: c_str_bytes rest
  end.

Definition c_str (s : string) : list byte := c_str_bytes (list_byte_of_string s).

(** [strncpy (dest, src, n)]: the [n] bytes stored at [dest]. *)
Definition strncpy (src : string) (n : nat) : list byte :=
  let content := take n (c_str src) in
  content ++ replicate (n - length content) x00.

(** Storing [data] at the start of the caller's buffer. *)
Definition store_bytes (buffer data : list byte) : list byte :=
  data ++ drop (length data) buffer.

Definition DQ : string := String "034"%char EmptyString.
Definition NL : string := String "010"%char EmptyString.

(** printf conversions [%d] and [%u] of a 32 bit argument. *)
Definition fmt_d (z : Z) : string := NilZero.string_of_int (Z.to_int (to_gint32 z)).
Definition fmt_u (z : Z) : string := NilZero.string_of_int (Z.to_int (to_guint32 z)).

(** ** Growable arrays (GArray created with clear = TRUE) *)

Definition g_array_insert_val {A} (zero : A) (arr : list A) (i : nat) (v : A) : list A :=
  if (i <=? length arr)%nat then take i arr ++ v :: drop i arr
  else arr ++ replicate (i - length arr) zero ++ [v].

Definition g_array_set_size {A} (zero : A) (arr : list A) (n : nat) : list A :=
  take n arr ++ replicate (n - length arr) zero.

(** * The device adapter *)

Module V4l2Device.

Definition ARV_V4L2_ADDRESS_DEVICE_VENDOR_NAME : Z := 0x0048.
Definition ARV_V4L2_ADDRESS_DEVICE_MODEL_NAME : Z := 0x0068.
Definition ARV_V4L2_ADDRESS_DEVICE_VERSION : Z := 0x0088.
Definition ARV_V4L2_ADDRESS_DEVICE_MANUFACTURER_INFO : Z := 0x00a8.
Definition ARV_V4L2_ADDRESS_DEVICE_ID : Z := 0x00d8.

Definition ARV_V4L2_ADDRESS_WIDTH : Z := 0x0100.
Definition ARV_V4L2_ADDRESS_HEIGHT : Z := 0x0104.
Definition ARV_V4L2_ADDRESS_PAYLOAD_SIZE : Z := 0x0118.
Definition ARV_V4L2_ADDRESS_ACQUISITION_COMMAND : Z := 0x0124.
Definition ARV_V4L2_ADDRESS_PIXEL_FORMAT : Z := 0x0128.

Inductive ArvDeviceError :=
| ARV_DEVICE_ERROR_NOT_FOUND
| ARV_DEVICE_ERROR_GENICAM_NOT_FOUND
| ARV_DEVICE_ERROR_PROTOCOL_ERROR
| ARV_DEVICE_ERROR_PROTOCOL_ERROR_INVALID_ADDRESS.

Record ArvV4l2GenicamPixelFormat := {
  v4l2 : Z;
  genicam : Z
}.

(** The pixel format codes of [linux/videodev2.h] and [arvenums.h] named by
    [pixel_format_map]; their values are not part of these sources. *)
Class PixelFormatCodes := {
  V4L2_PIX_FMT_RGB24 : Z;
  V4L2_PIX_FMT_BGR24 : Z;
  V4L2_PIX_FMT_YUYV : Z;
  ARV_PIXEL_FORMAT_RGB_8_PACKED : Z;
  ARV_PIXEL_FORMAT_BGR_8_PACKED : Z;
  ARV_PIXEL_FORMAT_YUV_422_PACKED : Z
}.

(** The values these codes have on Linux (fourcc) and in GenICam PFNC. *)
Definition linux_codes : PixelFormatCodes := {|
  V4L2_PIX_FMT_RGB24 := 0x33424752;
  V4L2_PIX_FMT_BGR24 := 0x33524742;
  V4L2_PIX_FMT_YUYV := 0x56595559;
  ARV_PIXEL_FORMAT_RGB_8_PACKED := 0x02180014;
  ARV_PIXEL_FORMAT_BGR_8_PACKED := 0x02180015;
  ARV_PIXEL_FORMAT_YUV_422_PACKED := 0x0210001f
|}.

Definition pixel_format_map `{PixelFormatCodes} : list ArvV4l2GenicamPixelFormat :=
  [ {| v4l2 := V4L2_PIX_FMT_RGB24; genicam := ARV_PIXEL_FORMAT_RGB_8_PACKED |};
    {| v4l2 := V4L2_PIX_FMT_BGR24; genicam := ARV_PIXEL_FORMAT_BGR_8_PACKED |};
    {| v4l2 := V4L2_PIX_FMT_YUYV; genicam := ARV_PIXEL_FORMAT_YUV_422_PACKED |} ].

(** *** Kernel structures *)

Record v4l2_capability := {
  cap_driver : string;
  cap_card : string;
  cap_version : Z;
  cap_capabilities : Z
}.

(** The capture capability bit of [linux/videodev2.h]. *)
Definition V4L2_CAP_VIDEO_CAPTURE : Z := 0x00000001.

Record v4l2_fmtdesc := {
  description : string;
  pixelformat : Z
}.

(** [struct v4l2_frmsizeenum]: the [type] field selects the member of the
    union; every type other than [V4L2_FRMSIZE_TYPE_DISCRETE] is read
    through [stepwise]. *)
Inductive v4l2_frmsize :=
| frmsize_discrete (width height : Z)
| frmsize_stepwise (min_width max_width step_width min_height max_height step_height : Z).

Record v4l2_frmsizeenum := {
  frm_index : Z;
  frm_pixel_format : Z;
  frm_size : v4l2_frmsize
}.

(** An element of [frame_sizes] that was cleared and never written. *)
Definition frmsizeenum_zero : v4l2_frmsizeenum :=
  {| frm_index := 0; frm_pixel_format := 0; frm_size := frmsize_stepwise 0 0 0 0 0 0 |}.

Definition frame_size_width (fs : v4l2_frmsizeenum) : Z :=
  match frm_size fs with
  | frmsize_discrete width _ => width
  | frmsize_stepwise _ max_width _ _ _ _ => max_width
  end.

Definition frame_size_height (fs : v4l2_frmsizeenum) : Z :=
  match frm_size fs with
  | frmsize_discrete _ height => height
  | frmsize_stepwise _ _ _ _ max_height _ => max_height
  end.

Record v4l2_pix_format := {
  pix_width : Z;
  pix_height : Z;
  pix_pixelformat : Z;
  pix_sizeimage : Z
}.

(** The requests sent to the kernel during construction, in order. *)
Inductive ioctl_request :=
| VIDIOC_ENUM_FMT (index : Z)
| VIDIOC_ENUM_FRAMESIZES (pixel_format index : Z).

(** The kernel side of an open device.  [VIDIOC_ENUM_FMT] at index [i]
    answers [k_formats !! i] and fails past the end; likewise
    [VIDIOC_ENUM_FRAMESIZES] on the list [k_frame_sizes code]. *)
Record v4l2_kernel := {
  k_open : option Z;
  k_querycap : option v4l2_capability;
  k_formats : list v4l2_fmtdesc;
  k_frame_sizes : Z -> list v4l2_frmsize;
  k_s_fmt : v4l2_pix_format -> option v4l2_pix_format;
  k_g_fmt : v4l2_pix_format -> option v4l2_pix_format
}.

(** *** Private data *)

Record ArvV4l2DevicePrivate := {
  device_fd : Z;
  device_file : string;
  device_card : string;
  device_version : string;
  device_driver : string;
  sensor_width : Z;
  sensor_height : Z;
  pixel_format_idx : Z;
  pixel_formats : list Z;
  frame_sizes : list v4l2_frmsizeenum;
  genicam_xml : string;
  genicam_nodes : list (string * string)
}.

Definition set_pixel_format_idx (priv : ArvV4l2DevicePrivate) (i : Z) : ArvV4l2DevicePrivate :=
  {| device_fd := device_fd priv; device_file := device_file priv;
     device_card := device_card priv; device_version := device_version priv;
     device_driver := device_driver priv;
     sensor_width := sensor_width priv; sensor_height := sensor_height priv;
     pixel_format_idx := i;
     pixel_formats := pixel_formats priv; frame_sizes := frame_sizes priv;
     genicam_xml := genicam_xml priv; genicam_nodes := genicam_nodes priv |}.

Definition set_sensor (priv : ArvV4l2DevicePrivate) (w h : Z) : ArvV4l2DevicePrivate :=
  {| device_fd := device_fd priv; device_file := device_file priv;
     device_card := device_card priv; device_version := device_version priv;
     device_driver := device_driver priv;
     sensor_width := w; sensor_height := h;
     pixel_format_idx := pixel_format_idx priv;
     pixel_formats := pixel_formats priv; frame_sizes := frame_sizes priv;
     genicam_xml := genicam_xml priv; genicam_nodes := genicam_nodes priv |}.

Definition set_pixel_formats (priv : ArvV4l2DevicePrivate) (l : list Z) : ArvV4l2DevicePrivate :=
  {| device_fd := device_fd priv; device_file := device_file priv;
     device_card := device_card priv; device_version := device_version priv;
     device_driver := device_driver priv;
     sensor_width := sensor_width priv; sensor_height := sensor_height priv;
     pixel_format_idx := pixel_format_idx priv;
     pixel_formats := l; frame_sizes := frame_sizes priv;
     genicam_xml := genicam_xml priv; genicam_nodes := genicam_nodes priv |}.

Definition set_frame_sizes (priv : ArvV4l2DevicePrivate) (l : list v4l2_frmsizeenum)
  : ArvV4l2DevicePrivate :=
  {| device_fd := device_fd priv; device_file := device_file priv;
     device_card := device_card priv; device_version := device_version priv;
     device_driver := device_driver priv;
     sensor_width := sensor_width priv; sensor_height := sensor_height priv;
     pixel_format_idx := pixel_format_idx priv;
     pixel_formats := pixel_formats priv; frame_sizes := l;
     genicam_xml := genicam_xml priv; genicam_nodes := genicam_nodes priv |}.

Definition set_genicam_node (priv : ArvV4l2DevicePrivate) (name data : string)
  : ArvV4l2DevicePrivate :=
  {| device_fd := device_fd priv; device_file := device_file priv;
     device_card := device_card priv; device_version := device_version priv;
     device_driver := device_driver priv;
     sensor_width := sensor_width priv; sensor_height := sensor_height priv;
     pixel_format_idx := pixel_format_idx priv;
     pixel_formats := pixel_formats priv; frame_sizes := frame_sizes priv;
     genicam_xml := genicam_xml priv;
     genicam_nodes := genicam_nodes priv ++ [(name, data)] |}.

(** [g_array_index] of an array of guint32 / frame sizes. *)
Definition pixel_formats_index (priv : ArvV4l2DevicePrivate) (i : Z) : Z :=
  nth (Z.to_nat i) (pixel_formats priv) 0.

Definition frame_sizes_index (priv : ArvV4l2DevicePrivate) (i : Z) : v4l2_frmsizeenum :=
  nth (Z.to_nat i) (frame_sizes priv) frmsizeenum_zero.

(** *** arv_v4l2_device_get_image_infos

    [g_array_index] checks no bound: the function is modelled for an
    active index that designates an entry of both tables, which is what
    the guard of its caller in [arv_v4l2_device_read_memory] ensures.  With
    an index past the end the C code reads outside the arrays; the
    statements below that go through this function assume the entries. *)

Record image_infos := {
  payload_size : Z;
  pixel_format : Z;
  width : Z;
  height : Z
}.

Definition arv_v4l2_device_get_image_infos (k : v4l2_kernel) (priv : ArvV4l2DevicePrivate)
  : option image_infos :=
  let frame_size := frame_sizes_index priv (pixel_format_idx priv) in
  let format := {| pix_width := frame_size_width frame_size;
                   pix_height := frame_size_height frame_size;
                   pix_pixelformat := pixel_formats_index priv (pixel_format_idx priv);
                   pix_sizeimage := 0 |} in
  match k_s_fmt k format with
  | None => None
  | Some format =>
    match k_g_fmt k format with
    | None => None
    | Some format =>
      Some {| payload_size := pix_sizeimage format;
              pixel_format := pixel_formats_index priv (pixel_format_idx priv);
              width := pix_width format;
              height := pix_height format |}
    end
  end.

(** *** arv_v4l2_device_read_memory *)

Record read_result := {
  read_ok : bool;
  read_error : option ArvDeviceError;
  read_buffer : option (list byte)
}.

(** The bytes of an identity string register, or [None] for another address. *)
Definition identity_string (priv : ArvV4l2DevicePrivate) (address : Z) : option string :=
  if address =? ARV_V4L2_ADDRESS_DEVICE_VENDOR_NAME then Some (device_driver priv)
  else if address =? ARV_V4L2_ADDRESS_DEVICE_MODEL_NAME then Some (device_card priv)
  else if address =? ARV_V4L2_ADDRESS_DEVICE_VERSION then Some (device_version priv)
  else if address =? ARV_V4L2_ADDRESS_DEVICE_MANUFACTURER_INFO then Some "Aravis"%string
  else if address =? ARV_V4L2_ADDRESS_DEVICE_ID then Some (device_file priv)
  else None.

(** The [switch (address)] of the numeric registers: the new content of
    [value], or [None] for [found = FALSE].  [value] is what the local
    variable held before. *)
Definition read_numeric (k : v4l2_kernel) (priv : ArvV4l2DevicePrivate) (address value : Z)
  : option Z :=
  if (to_guint32 (pixel_format_idx priv) <? Z.of_nat (length (frame_sizes priv)))
     && (to_guint32 (pixel_format_idx priv) <? Z.of_nat (length (pixel_formats priv)))
  then
    let frame_size := frame_sizes_index priv (pixel_format_idx priv) in
    if address =? ARV_V4L2_ADDRESS_WIDTH then Some (to_gint32 (frame_size_width frame_size))
    else if address =? ARV_V4L2_ADDRESS_HEIGHT then Some (to_gint32 (frame_size_height frame_size))
    else if address =? ARV_V4L2_ADDRESS_PAYLOAD_SIZE then
      match arv_v4l2_device_get_image_infos k priv with
      | Some infos => Some (to_gint32 (payload_size infos))
      | None => Some value
      end
    else if address =? ARV_V4L2_ADDRESS_PIXEL_FORMAT then
      Some (to_gint32 (pixel_formats_index priv (pixel_format_idx priv)))
    else None
  else None.

(** [buffer] is [None] for a NULL pointer; [value] is the indeterminate
    initial content of the local variable of that name. *)
Definition arv_v4l2_device_read_memory (k : v4l2_kernel) (priv : ArvV4l2DevicePrivate)
    (address size : Z) (buffer : option (list byte)) (value : Z) : read_result :=
  match buffer with
  | None => {| read_ok := false; read_error := None; read_buffer := buffer |}
  | Some buf =>
    if size <? 1 then {| read_ok := false; read_error := None; read_buffer := buffer |}
    else
      match identity_string priv address with
      | Some s =>
        {| read_ok := true; read_error := None;
           read_buffer := Some (store_bytes buf (strncpy s (Z.to_nat (size - 1)) ++ [x00])) |}
      | None =>
        if size =? 4 then
          match read_numeric k priv address value with
          | Some value =>
            {| read_ok := true; read_error := None;
               read_buffer := Some (store_bytes buf (bytes_of_gint32 value)) |}
          | None =>
            {| read_ok := false;
               read_error := Some ARV_DEVICE_ERROR_PROTOCOL_ERROR_INVALID_ADDRESS;
               read_buffer := buffer |}
          end
        else {| read_ok := true; read_error := None; read_buffer := buffer |}
      end
  end.

(** *** arv_v4l2_device_write_memory *)

Record write_result := {
  write_ok : bool;
  write_error : option ArvDeviceError;
  write_priv : ArvV4l2DevicePrivate;
  write_buffer : list byte;
  (** the argument of [_control_stream], when it was called *)
  write_control_stream : option bool
}.

(** The [for] loop over [pixel_formats], started at counter [i] with
    [pixel_format_idx = idx]: the final counter and the final index. *)
Fixpoint write_pixel_format_loop (formats : list Z) (value i idx : Z) : Z * Z :=
  match formats with
  | [] => (i, idx)
  | format :: rest =>
    write_pixel_format_loop rest value (i + 1)
      (if format =? to_guint32 value then i else idx)
  end.

Definition arv_v4l2_device_write_memory (priv : ArvV4l2DevicePrivate)
    (address size : Z) (buffer : list byte) : write_result :=
  let invalid_address priv :=
    {| write_ok := false;
       write_error := Some ARV_DEVICE_ERROR_PROTOCOL_ERROR_INVALID_ADDRESS;
       write_priv := priv; write_buffer := buffer; write_control_stream := None |} in
  if size =? 4 then
    let value := gint32_of_bytes buffer in
    if address =? ARV_V4L2_ADDRESS_ACQUISITION_COMMAND then
      {| write_ok := true; write_error := None; write_priv := priv;
         write_buffer := store_bytes buffer (bytes_of_gint32 value);
         write_control_stream := Some (negb (value =? 0)) |}
    else if address =? ARV_V4L2_ADDRESS_PIXEL_FORMAT then
      let '(i, idx) :=
        write_pixel_format_loop (pixel_formats priv) value 0 (pixel_format_idx priv) in
      let priv := set_pixel_format_idx priv idx in
      let found := negb (to_guint32 i =? Z.of_nat (length (pixel_formats priv))) in
      if found then
        {| write_ok := true; write_error := None; write_priv := priv;
           write_buffer := store_bytes buffer (bytes_of_gint32 value);
           write_control_stream := None |}
      else invalid_address priv
    else invalid_address priv
  else
    {| write_ok := true; write_error := None; write_priv := priv;
       write_buffer := buffer; write_control_stream := None |}.

(** *** arv_v4l2_device_constructed *)

(** What construction needs besides the kernel: the bundled schema
    ([g_resources_lookup_data], [None] on error) and whether [arv_gc_new]
    accepts it. *)
Record resources := {
  res_genicam_xml : option string;
  res_gc_valid : bool
}.

Definition arv_v4l2_device_init (file : string) : ArvV4l2DevicePrivate :=
  {| device_fd := -1; device_file := file;
     device_card := EmptyString; device_version := EmptyString;
     device_driver := EmptyString;
     sensor_width := 0; sensor_height := 0; pixel_format_idx := 0;
     pixel_formats := []; frame_sizes := [];
     genicam_xml := EmptyString; genicam_nodes := [] |}.

Record enum_state := {
  es_priv : ArvV4l2DevicePrivate;
  es_format_feature : string;
  es_ioctls : list ioctl_request
}.

Definition es_ioctl (r : ioctl_request) (st : enum_state) : enum_state :=
  {| es_priv := es_priv st; es_format_feature := es_format_feature st;
     es_ioctls := es_ioctls st ++ [r] |}.

Definition es_update (f : ArvV4l2DevicePrivate -> ArvV4l2DevicePrivate) (st : enum_state)
  : enum_state :=
  {| es_priv := f (es_priv st); es_format_feature := es_format_feature st;
     es_ioctls := es_ioctls st |}.

Definition es_append (text : string) (st : enum_state) : enum_state :=
  {| es_priv := es_priv st; es_format_feature := es_format_feature st +:+ text;
     es_ioctls := es_ioctls st |}.

(** The inner [for (k ...)] loop over [pixel_format_map]. *)
Fixpoint lookup_genicam (map : list ArvV4l2GenicamPixelFormat)
    (pixelformat genicam_pixel_format : Z) : Z :=
  match map with
  | [] => genicam_pixel_format
  | entry :: rest =>
    lookup_genicam rest pixelformat
      (if pixelformat =? v4l2 entry then genicam entry else genicam_pixel_format)
  end.

Definition enum_entry (description : string) (genicam_pixel_format : Z) : string :=
  "  <EnumEntry Name=" +:+ DQ +:+ description +:+ DQ +:+ ">" +:+ NL +:+
  "    <Value>" +:+ fmt_d genicam_pixel_format +:+ "</Value>" +:+ NL +:+
  "  </EnumEntry>" +:+ NL.

(** The [for (j ...)] loop: [sizes] are the answers the kernel still has
    for this pixel format, [j] the index of the next request. *)
Fixpoint enum_frame_sizes (code : Z) (i : nat) (sizes : list v4l2_frmsize) (j : Z)
    (st : enum_state) : enum_state :=
  let st := es_ioctl (VIDIOC_ENUM_FRAMESIZES code j) st in
  match sizes with
  | [] => st
  | size :: rest =>
    let frame_size := {| frm_index := j; frm_pixel_format := code; frm_size := size |} in
    let st := es_update (fun priv =>
                set_sensor priv
                  (Z.max (sensor_width priv) (frame_size_width frame_size))
                  (Z.max (sensor_height priv) (frame_size_height frame_size))) st in
    let st := if j =? 0
              then es_update (fun priv =>
                     set_frame_sizes priv
                       (g_array_insert_val frmsizeenum_zero (frame_sizes priv) i frame_size)) st
              else st in
    enum_frame_sizes code i rest (j + 1) st
  end.

(** The [for (i ...)] loop: [formats] are the formats the kernel has from
    index [i] on.  Returns the value of [i] at the [break]. *)
Fixpoint enum_formats `{PixelFormatCodes} (k : v4l2_kernel) (formats : list v4l2_fmtdesc)
    (i : nat) (st : enum_state) : nat * enum_state :=
  let st := es_ioctl (VIDIOC_ENUM_FMT (Z.of_nat i)) st in
  match formats with
  | [] => (i, st)
  | format :: rest =>
    let genicam_pixel_format := lookup_genicam pixel_format_map (pixelformat format) 0 in
    let st := es_update (fun priv =>
                set_pixel_formats priv
                  (g_array_insert_val 0 (pixel_formats priv) i genicam_pixel_format)) st in
    if genicam_pixel_format =? 0 then enum_formats k rest (S i) st
    else
      let st := es_append (enum_entry (description format) genicam_pixel_format) st in
      let st := es_update (fun priv => set_pixel_format_idx priv (Z.of_nat i)) st in
      let st := enum_frame_sizes (pixelformat format) i
                  (k_frame_sizes k (pixelformat format)) 0 st in
      enum_formats k rest (S i) st
  end.

Definition format_feature_header : string :=
  "<Enumeration Name=" +:+ DQ +:+ "PixelFormat" +:+ DQ +:+ ">" +:+ NL +:+
  "  <DisplayName>Pixel format</DisplayName>" +:+ NL.

Definition format_feature_footer : string :=
  "  <pValue>PixelFormatRegister</pValue>" +:+ NL +:+ "</Enumeration>".

Definition sensor_feature (name description : string) (value : Z) : string :=
  "<Integer Name=" +:+ DQ +:+ name +:+ DQ +:+ ">" +:+ NL +:+
  "  <Description>" +:+ description +:+ "</Description>" +:+ NL +:+
  "  <Value>" +:+ fmt_u value +:+ "</Value>" +:+ NL +:+
  "  <AccessMode>RO</AccessMode>" +:+ NL +:+
  "</Integer>".

Definition version_string (version : Z) : string :=
  fmt_d (Z.land (Z.shiftr version 16) 0xff) +:+ "." +:+
  fmt_d (Z.land (Z.shiftr version 8) 0xff) +:+ "." +:+
  fmt_d (Z.land (Z.shiftr version 0) 0xff).

Record constructed_result := {
  c_priv : ArvV4l2DevicePrivate;
  c_init_error : option ArvDeviceError;
  c_format_feature : string;
  c_ioctls : list ioctl_request
}.

Definition init_error (priv : ArvV4l2DevicePrivate) (e : ArvDeviceError) : constructed_result :=
  {| c_priv := priv; c_init_error := Some e;
     c_format_feature := EmptyString; c_ioctls := [] |}.

Definition with_capability (priv : ArvV4l2DevicePrivate) (fd : Z) (cap : option v4l2_capability)
    (xml : option string) : ArvV4l2DevicePrivate :=
  {| device_fd := fd; device_file := device_file priv;
     device_card := match cap with Some cap => cap_card cap | None => device_card priv end;
     device_version :=
       match cap with Some cap => version_string (cap_version cap) | None => device_version priv end;
     device_driver := match cap with Some cap => cap_driver cap | None => device_driver priv end;
     sensor_width := sensor_width priv; sensor_height := sensor_height priv;
     pixel_format_idx := pixel_format_idx priv;
     pixel_formats := pixel_formats priv; frame_sizes := frame_sizes priv;
     genicam_xml := match xml with Some xml => xml | None => genicam_xml priv end;
     genicam_nodes := genicam_nodes priv |}.

Definition arv_v4l2_device_constructed `{PixelFormatCodes} (k : v4l2_kernel) (res : resources)
    (priv : ArvV4l2DevicePrivate) : constructed_result :=
  match k_open k with
  | None => init_error (with_capability priv (-1) None None) ARV_DEVICE_ERROR_NOT_FOUND
  | Some fd =>
    match k_querycap k with
    | None => init_error (with_capability priv fd None None) ARV_DEVICE_ERROR_NOT_FOUND
    | Some cap =>
      if Z.land (cap_capabilities cap) V4L2_CAP_VIDEO_CAPTURE =? 0
      then init_error (with_capability priv fd None None) ARV_DEVICE_ERROR_NOT_FOUND
      else
        match res_genicam_xml res with
        | None =>
          init_error (with_capability priv fd (Some cap) None) ARV_DEVICE_ERROR_GENICAM_NOT_FOUND
        | Some xml =>
          let priv := with_capability priv fd (Some cap) (Some xml) in
          if negb (res_gc_valid res)
          then init_error priv ARV_DEVICE_ERROR_GENICAM_NOT_FOUND
          else
            let priv := set_sensor priv 0 0 in
            let priv := set_frame_sizes (set_pixel_formats priv []) [] in
            let st := {| es_priv := priv; es_format_feature := format_feature_header;
                         es_ioctls := [] |} in
            let '(i, st) := enum_formats k (k_formats k) 0 st in
            let st := es_update (fun priv =>
                        set_pixel_formats priv (g_array_set_size 0 (pixel_formats priv) i)) st in
            let st := es_update (fun priv =>
                        set_frame_sizes priv
                          (g_array_set_size frmsizeenum_zero (frame_sizes priv) i)) st in
            let st := es_append format_feature_footer st in
            let priv := es_priv st in
            let priv := set_genicam_node priv "SensorHeight"
                          (sensor_feature "SensorHeight" "Full height of image sensor."
                             (sensor_height priv)) in
            let priv := set_genicam_node priv "SensorWidth"
                          (sensor_feature "SensorWidth" "Full width of image sensor."
                             (sensor_width priv)) in
            let priv := set_genicam_node priv "PixelFormat" (es_format_feature st) in
            {| c_priv := priv; c_init_error := None;
               c_format_feature := es_format_feature st; c_ioctls := es_ioctls st |}
        end
    end
  end.

(** *** Register access, descriptor and finalization *)

Record register_read := {
  reg_ok : bool;
  reg_error : option ArvDeviceError;
  reg_value : Z
}.

(** The guint32 the caller finds in [*value]. *)
Definition guint32_of_bytes (buffer : list byte) : Z :=
  to_guint32 (gint32_of_bytes buffer).

(** [arv_v4l2_device_read_register]: the buffer is the caller's guint32,
    which holds [value] before the call; [local] is as in
    [arv_v4l2_device_read_memory]. *)
Definition arv_v4l2_device_read_register (k : v4l2_kernel) (priv : ArvV4l2DevicePrivate)
    (address value local : Z) : register_read :=
  let r := arv_v4l2_device_read_memory k priv address 4 (Some (bytes_of_gint32 value)) local in
  {| reg_ok := read_ok r; reg_error := read_error r;
     reg_value := match read_buffer r with
                  | Some buffer => guint32_of_bytes buffer
                  | None => to_guint32 value
                  end |}.

Definition arv_v4l2_device_write_register (priv : ArvV4l2DevicePrivate) (address value : Z)
  : write_result :=
  arv_v4l2_device_write_memory priv address 4 (bytes_of_gint32 value).

Definition arv_v4l2_device_get_fd (priv : ArvV4l2DevicePrivate) : Z := device_fd priv.

(** [arv_v4l2_device_finalize]: the descriptor handed to [v4l2_close], if any. *)
Definition arv_v4l2_device_finalize (priv : ArvV4l2DevicePrivate) : option Z :=
  if device_fd priv =? -1 then None else Some (device_fd priv).

End V4l2Device.

(** * The stream acquisition thread *)

Module V4l2Stream.

Inductive ArvBufferPayloadType :=
| ARV_BUFFER_PAYLOAD_TYPE_UNKNOWN
| ARV_BUFFER_PAYLOAD_TYPE_IMAGE.

Inductive ArvBufferStatus :=
| ARV_BUFFER_STATUS_UNKNOWN
| ARV_BUFFER_STATUS_SUCCESS
| ARV_BUFFER_STATUS_CLEARED
| ARV_BUFFER_STATUS_FILLING.

Inductive ArvBufferPartDataType :=
| ARV_BUFFER_PART_DATA_TYPE_UNKNOWN
| ARV_BUFFER_PART_DATA_TYPE_2D_IMAGE.

(** The byte order constant of GLib. *)
Definition G_BIG_ENDIAN : Z := 4321.

Record ArvBufferPart := {
  data_offset : Z;
  component_id : Z;
  data_type : ArvBufferPartDataType;
  part_pixel_format : Z;
  part_width : Z;
  part_height : Z;
  x_offset : Z;
  y_offset : Z;
  x_padding : Z;
  y_padding : Z
}.

(** An [ArvBuffer] object: the integer attached under the key
    "v4l2-index" and the private fields the thread writes. *)
Record ArvBuffer := {
  v4l2_index : Z;
  payload_type : ArvBufferPayloadType;
  chunk_endianness : Z;
  status : ArvBufferStatus;
  timestamp_ns : Z;
  system_timestamp_ns : Z;
  frame_id : Z;
  received_size : Z;
  parts : list ArvBufferPart
}.

(** Buffers are shared objects: queues and the hash table hold pointers. *)
Abbreviation buffer_ptr := positive (only parsing).

Record v4l2_buffer := {
  buf_index : Z;
  buf_tv_sec : Z;
  buf_tv_usec : Z;
  buf_length : Z
}.

Definition v4l2_buffer_zero : v4l2_buffer :=
  {| buf_index := 0; buf_tv_sec := 0; buf_tv_usec := 0; buf_length := 0 |}.

Definition set_buf_index (bufd : v4l2_buffer) (index : Z) : v4l2_buffer :=
  {| buf_index := index; buf_tv_sec := buf_tv_sec bufd;
     buf_tv_usec := buf_tv_usec bufd; buf_length := buf_length bufd |}.

Inductive ArvStreamCallbackType :=
| ARV_STREAM_CALLBACK_TYPE_INIT
| ARV_STREAM_CALLBACK_TYPE_EXIT
| ARV_STREAM_CALLBACK_TYPE_BUFFER_DONE (buffer : buffer_ptr).

Record ArvV4l2StreamThreadData := {
  has_callback : bool;
  td_pixel_format : Z;
  td_image_width : Z;
  td_image_height : Z;
  td_frame_id : Z;
  n_completed_buffers : Z;
  n_failures : Z;
  n_underruns : Z;
  n_transferred_bytes : Z
}.

(** Everything the thread reads and writes: its data, the local hash
    table [buffers], the buffer objects, the output queue of the stream and
    the calls made to the user callback. *)
Record thread_state := {
  thread_data : ArvV4l2StreamThreadData;
  buffers : gmap Z positive;
  heap : gmap positive ArvBuffer;
  output_queue : list positive;
  callbacks : list ArvStreamCallbackType
}.

(** What the environment does during one turn of the [while] loop: the
    buffers [arv_stream_pop_input_buffer] hands out before it returns NULL,
    the answers of the kernel to [VIDIOC_QBUF] and [VIDIOC_DQBUF] ([None]
    for -1, the structure is then left as it was), the result of [select]
    and the value of [g_get_real_time]. *)
Record iteration := {
  it_input : list positive;
  it_qbuf : v4l2_buffer -> option v4l2_buffer;
  it_select : Z;
  it_dqbuf : v4l2_buffer -> option v4l2_buffer;
  it_real_time : Z
}.

Definition callback (event : ArvStreamCallbackType) (st : thread_state) : thread_state :=
  {| thread_data := thread_data st; buffers := buffers st; heap := heap st;
     output_queue := output_queue st;
     callbacks := if has_callback (thread_data st) then callbacks st ++ [event]
                  else callbacks st |}.

Definition arv_stream_push_output_buffer (buffer : positive) (st : thread_state)
  : thread_state :=
  {| thread_data := thread_data st; buffers := buffers st; heap := heap st;
     output_queue := output_queue st ++ [buffer];
     callbacks := callbacks st |}.

Definition g_hash_table_replace (key : Z) (buffer : positive) (st : thread_state)
  : thread_state :=
  {| thread_data := thread_data st; buffers := <[key := buffer]> (buffers st);
     heap := heap st; output_queue := output_queue st;
     callbacks := callbacks st |}.

(** The [do ... while (arv_buffer != NULL)] loop. *)
Fixpoint submit_buffers (it : iteration) (input : list positive) (bufd : v4l2_buffer)
    (st : thread_state) : v4l2_buffer * thread_state :=
  match input with
  | [] => (bufd, st)
  | arv_buffer :: rest =>
    match heap st !! arv_buffer with
    | None => submit_buffers it rest bufd st
    | Some b =>
      let bufd := set_buf_index bufd (to_guint32 (v4l2_index b)) in
      match it_qbuf it bufd with
      | None => submit_buffers it rest bufd (arv_stream_push_output_buffer arv_buffer st)
      | Some bufd =>
        submit_buffers it rest bufd (g_hash_table_replace (buf_index bufd) arv_buffer st)
      end
    end
  end.

(** The fields written into a completed buffer. *)
Definition stamp_buffer (td : ArvV4l2StreamThreadData) (bufd : v4l2_buffer) (real_time : Z)
    (b : ArvBuffer) : ArvBuffer :=
  {| v4l2_index := v4l2_index b;
     payload_type := ARV_BUFFER_PAYLOAD_TYPE_IMAGE;
     chunk_endianness := G_BIG_ENDIAN;
     status := ARV_BUFFER_STATUS_SUCCESS;
     timestamp_ns := to_guint64 (1000000000000 * buf_tv_sec bufd + 1000 * buf_tv_usec bufd);
     system_timestamp_ns := to_guint64 (real_time * 1000);
     frame_id := td_frame_id td;
     received_size := buf_length bufd;
     parts := [ {| data_offset := 0; component_id := 0;
                   data_type := ARV_BUFFER_PART_DATA_TYPE_2D_IMAGE;
                   part_pixel_format := td_pixel_format td;
                   part_width := td_image_width td;
                   part_height := td_image_height td;
                   x_offset := 0; y_offset := 0; x_padding := 0; y_padding := 0 |} ] |}.

Definition count_buffer (td : ArvV4l2StreamThreadData) (bufd : v4l2_buffer)
  : ArvV4l2StreamThreadData :=
  {| has_callback := has_callback td;
     td_pixel_format := td_pixel_format td;
     td_image_width := td_image_width td;
     td_image_height := td_image_height td;
     td_frame_id := to_guint32 (td_frame_id td + 1);
     n_completed_buffers := to_guint32 (n_completed_buffers td + 1);
     n_failures := n_failures td;
     n_underruns := n_underruns td;
     n_transferred_bytes := to_guint32 (n_transferred_bytes td + buf_length bufd) |}.

(** From [bufd.index = 0] to the end of the loop body. *)
Definition dequeue_buffer (it : iteration) (bufd : v4l2_buffer) (st : thread_state)
  : thread_state :=
  let bufd := set_buf_index bufd 0 in
  let bufd := match it_dqbuf it bufd with
              | None => bufd
              | Some bufd => bufd
              end in
  match buffers st !! buf_index bufd with
  | None => st
  | Some arv_buffer =>
    match heap st !! arv_buffer with
    | None => st
    | Some b =>
      let st := {| thread_data := count_buffer (thread_data st) bufd;
                   buffers := buffers st;
                   heap := <[arv_buffer := stamp_buffer (thread_data st) bufd (it_real_time it) b]>
                             (heap st);
                   output_queue := output_queue st;
                   callbacks := callbacks st |} in
      let st := arv_stream_push_output_buffer arv_buffer st in
      callback (ARV_STREAM_CALLBACK_TYPE_BUFFER_DONE arv_buffer) st
    end
  end.

(** One turn of the [while (!cancel)] loop. *)
Definition thread_iteration (st : thread_state) (it : iteration) : thread_state :=
  let '(bufd, st) := submit_buffers it (it_input it) v4l2_buffer_zero st in
  dequeue_buffer it bufd st.

(** The iteration over the hash table after the loop, in the order in
    which the table lists its entries. *)
Definition drain_buffers (st : thread_state) : thread_state :=
  foldl (fun st entry => arv_stream_push_output_buffer entry.2 st) st
        (map_to_list (buffers st)).

(** [arv_v4l2_stream_thread], for a run in which the cancel flag is
    observed false once per element of [trace] and true afterwards. *)
Definition arv_v4l2_stream_thread (td : ArvV4l2StreamThreadData)
    (objects : gmap positive ArvBuffer) (trace : list iteration) : thread_state :=
  let st := {| thread_data := td; buffers := ∅; heap := objects;
               output_queue := []; callbacks := [] |} in
  let st := callback ARV_STREAM_CALLBACK_TYPE_INIT st in
  let st := foldl thread_iteration st trace in
  let st := drain_buffers st in
  callback ARV_STREAM_CALLBACK_TYPE_EXIT st.

(** *** Starting, stopping and creating buffers *)

(** [ArvV4l2StreamPrivate] with the control fields of the thread data:
    [thread] tells whether [priv->thread] is set, [cancel] and
    [thread_started] are the fields of that name of the thread data. *)
Record ArvV4l2StreamPrivate := {
  thread : bool;
  cancel : bool;
  thread_started : bool;
  stream_thread_data : option ArvV4l2StreamThreadData
}.

Record start_result := {
  start_ok : bool;
  start_error : option V4l2Device.ArvDeviceError;
  start_priv : ArvV4l2StreamPrivate
}.

(** The thread data after a successful [arv_v4l2_device_get_image_infos]
    and [frame_id = 0]. *)
Definition set_image_infos (td : ArvV4l2StreamThreadData) (infos : V4l2Device.image_infos)
  : ArvV4l2StreamThreadData :=
  {| has_callback := has_callback td;
     td_pixel_format := V4l2Device.pixel_format infos;
     td_image_width := V4l2Device.width infos;
     td_image_height := V4l2Device.height infos;
     td_frame_id := 0;
     n_completed_buffers := n_completed_buffers td;
     n_failures := n_failures td;
     n_underruns := n_underruns td;
     n_transferred_bytes := n_transferred_bytes td |}.

Definition arv_v4l2_stream_start_acquisition (k : V4l2Device.v4l2_kernel)
    (device : V4l2Device.ArvV4l2DevicePrivate) (priv : ArvV4l2StreamPrivate) : start_result :=
  if thread priv
  then {| start_ok := false; start_error := None; start_priv := priv |}
  else
    match stream_thread_data priv with
    | None => {| start_ok := false; start_error := None; start_priv := priv |}
    | Some td =>
      match V4l2Device.arv_v4l2_device_get_image_infos k device with
      | None =>
        {| start_ok := false;
           start_error := Some V4l2Device.ARV_DEVICE_ERROR_PROTOCOL_ERROR;
           start_priv := {| thread := false; cancel := false; thread_started := false;
                            stream_thread_data := Some td |} |}
      | Some infos =>
        {| start_ok := true; start_error := None;
           start_priv := {| thread := true; cancel := false; thread_started := true;
                            stream_thread_data := Some (set_image_infos td infos) |} |}
      end
    end.


(** The kernel and the mapping call as [arv_v4l2_stream_create_buffers]
    sees them: [VIDIOC_REQBUFS] for a count, [VIDIOC_QUERYBUF] for an index
    (the length and the offset of the slot, [None] for -1) and the address
    [mmap] returns for a length and an offset. *)
Record buffer_kernel := {
  k_reqbufs : Z -> bool;
  k_querybuf : Z -> option (Z * Z);
  k_mmap : Z -> Z -> Z
}.

(** A buffer made by [arv_buffer_new_full] and tagged with its index. *)
Record new_buffer := {
  nb_index : Z;
  nb_size : Z;
  nb_data : Z
}.

Record create_result := {
  create_ok : bool;
  create_error : option V4l2Device.ArvDeviceError;
  (** the buffers handed to [arv_stream_push_buffer], in order *)
  create_pushed : list new_buffer
}.

(** The [for] loop with [remaining] turns to go from index [i]. *)
Fixpoint create_buffers_loop (k : buffer_kernel) (remaining : nat) (i : Z)
    (pushed : list new_buffer) : create_result :=
  match remaining with
  | O => {| create_ok := true; create_error := None; create_pushed := pushed |}
  | S remaining =>
    match k_querybuf k i with
    | None =>
      {| create_ok := false;
         create_error := Some V4l2Device.ARV_DEVICE_ERROR_PROTOCOL_ERROR;
         create_pushed := pushed |}
    | Some (length, offset) =>
      create_buffers_loop k remaining (i + 1)
        (pushed ++ [ {| nb_index := i; nb_size := length;
                        nb_data := k_mmap k length offset |} ])
    end
  end.

Definition arv_v4l2_stream_create_buffers (k : buffer_kernel) (n_buffers size : Z)
  : create_result :=
  if k_reqbufs k n_buffers
  then create_buffers_loop k (Z.to_nat n_buffers) 0 []
  else {| create_ok := false;
          create_error := Some V4l2Device.ARV_DEVICE_ERROR_PROTOCOL_ERROR;
          create_pushed := [] |}.

End V4l2Stream.

Import V4l2Device V4l2Stream.

(** * Vocabulary of the statements *)

(** The five addresses answered with a string. *)
Definition identity_addresses : list Z :=
  [ ARV_V4L2_ADDRESS_DEVICE_VENDOR_NAME; ARV_V4L2_ADDRESS_DEVICE_MODEL_NAME;
    ARV_V4L2_ADDRESS_DEVICE_VERSION; ARV_V4L2_ADDRESS_DEVICE_MANUFACTURER_INFO;
    ARV_V4L2_ADDRESS_DEVICE_ID ].

(** The four addresses answered with a number. *)
Definition numeric_addresses : list Z :=
  [ ARV_V4L2_ADDRESS_WIDTH; ARV_V4L2_ADDRESS_HEIGHT;
    ARV_V4L2_ADDRESS_PAYLOAD_SIZE; ARV_V4L2_ADDRESS_PIXEL_FORMAT ].

(** A constructed device with two formats, RGB 8 packed (0x02180014) and
    YUV 422 packed (0x0210001f), the first one active. *)
Definition two_format_device : ArvV4l2DevicePrivate :=
  {| device_fd := 3; device_file := "/dev/video0";
     device_card := "Integrated Camera"; device_version := "6.1.0";
     device_driver := "uvcvideo";
     sensor_width := 640; sensor_height := 480;
     pixel_format_idx := 0;
     pixel_formats := [0x02180014; 0x0210001f];
     frame_sizes :=
       [ {| frm_index := 0; frm_pixel_format := 0x33424752;
            frm_size := frmsize_discrete 640 480 |};
         {| frm_index := 0; frm_pixel_format := 0x56595559;
            frm_size := frmsize_discrete 320 240 |} ];
     genicam_xml := EmptyString; genicam_nodes := [] |}.

(** A kernel that accepts every format as it is requested. *)
Definition obliging_kernel (formats : list v4l2_fmtdesc)
    (sizes : Z -> list v4l2_frmsize) : v4l2_kernel :=
  {| k_open := Some 3;
     k_querycap := Some {| cap_driver := "uvcvideo"; cap_card := "Integrated Camera";
                           cap_version := 0x060100; cap_capabilities := 0x04200001 |};
     k_formats := formats;
     k_frame_sizes := sizes;
     k_s_fmt := fun format => Some format;
     k_g_fmt := fun format => Some format |}.

(** The generic code the translation table gives for a kernel code; 0
    stands for a format without GenICam equivalent. *)
Definition genicam_code `{PixelFormatCodes} (pixelformat : Z) : Z :=
  lookup_genicam pixel_format_map pixelformat 0.

(** A kernel that enumerates other formats and is otherwise the same. *)
Definition with_formats (k : v4l2_kernel) (formats : list v4l2_fmtdesc) : v4l2_kernel :=
  {| k_open := k_open k; k_querycap := k_querycap k;
     k_formats := formats; k_frame_sizes := k_frame_sizes k;
     k_s_fmt := k_s_fmt k; k_g_fmt := k_g_fmt k |}.

(** The [EnumEntry] elements of the formats that have a generic code. *)
Fixpoint entries_text `{PixelFormatCodes} (formats : list v4l2_fmtdesc) : string :=
  match formats with
  | [] => EmptyString
  | format :: rest =>
    if genicam_code (pixelformat format) =? 0 then entries_text rest
    else enum_entry (description format) (genicam_code (pixelformat format))
         +:+ entries_text rest
  end.

(** The index, counted from [i], of the last format of the list that has
    a generic code; [idx] when there is none. *)
Fixpoint last_supported `{PixelFormatCodes} (formats : list v4l2_fmtdesc) (i : nat) (idx : Z) : Z :=
  match formats with
  | [] => idx
  | format :: rest =>
    last_supported rest (S i)
      (if genicam_code (pixelformat format) =? 0 then idx else Z.of_nat i)
  end.

(** The two ways through the body of the enumeration loop: the state
    after a format without generic code, and after a format with one. *)
Definition record_format `{PixelFormatCodes} (format : v4l2_fmtdesc) (i : nat)
    (st : enum_state) : enum_state :=
  es_update (fun priv =>
    set_pixel_formats priv
      (g_array_insert_val 0 (pixel_formats priv) i (genicam_code (pixelformat format))))
    (es_ioctl (VIDIOC_ENUM_FMT (Z.of_nat i)) st).

Definition visit_format `{PixelFormatCodes} (k : v4l2_kernel) (format : v4l2_fmtdesc)
    (i : nat) (st : enum_state) : enum_state :=
  enum_frame_sizes (pixelformat format) i (k_frame_sizes k (pixelformat format)) 0
    (es_update (fun priv => set_pixel_format_idx priv (Z.of_nat i))
       (es_append (enum_entry (description format) (genicam_code (pixelformat format)))
          (record_format format i st))).

(** The state in which the enumeration starts, and what construction
    makes of the state in which it ends. *)
Definition enumeration_start (priv : ArvV4l2DevicePrivate) (fd : Z) (cap : v4l2_capability)
    (xml : string) : enum_state :=
  {| es_priv := set_frame_sizes
                  (set_pixel_formats
                     (set_sensor (with_capability priv fd (Some cap) (Some xml)) 0 0) []) [];
     es_format_feature := format_feature_header;
     es_ioctls := [] |}.

Definition enumeration_finish (e : nat * enum_state) : constructed_result :=
  let st := es_update (fun priv =>
              set_pixel_formats priv (g_array_set_size 0 (pixel_formats priv) e.1)) e.2 in
  let st := es_update (fun priv =>
              set_frame_sizes priv
                (g_array_set_size frmsizeenum_zero (frame_sizes priv) e.1)) st in
  let st := es_append format_feature_footer st in
  let priv := es_priv st in
  let priv := set_genicam_node priv "SensorHeight"
                (sensor_feature "SensorHeight" "Full height of image sensor."
                   (sensor_height priv)) in
  let priv := set_genicam_node priv "SensorWidth"
                (sensor_feature "SensorWidth" "Full width of image sensor."
                   (sensor_width priv)) in
  let priv := set_genicam_node priv "PixelFormat" (es_format_feature st) in
  {| c_priv := priv; c_init_error := None;
     c_format_feature := es_format_feature st; c_ioctls := es_ioctls st |}.

(** Test devices.  A camera with four formats, of which the second and
    the fourth have no generic code, and a camera with the two formats RGB24
    (640x480) and YUYV (320x240). *)
Definition RGB3 : v4l2_fmtdesc := {| description := "RGB3"; pixelformat := 0x33424752 |}.
Definition MJPG : v4l2_fmtdesc := {| description := "MJPG"; pixelformat := 0x47504a4d |}.
Definition YUYV : v4l2_fmtdesc := {| description := "YUYV"; pixelformat := 0x56595559 |}.
Definition H264 : v4l2_fmtdesc := {| description := "H264"; pixelformat := 0x34363248 |}.

Definition camera_frame_sizes (code : Z) : list v4l2_frmsize :=
  if code =? 0x33424752 then [frmsize_discrete 640 480]
  else if code =? 0x56595559 then [frmsize_discrete 320 240]
  else [frmsize_discrete 1920 1080].

Definition four_format_camera : v4l2_kernel :=
  obliging_kernel [RGB3; MJPG; YUYV; H264] camera_frame_sizes.

Definition two_format_camera : v4l2_kernel :=
  obliging_kernel [RGB3; YUYV] camera_frame_sizes.

Definition bundled_schema : resources :=
  {| res_genicam_xml := Some "<RegisterDescription/>"%string; res_gc_valid := true |}.

(** The number of places at which [needle] occurs in [text]. *)
Fixpoint count_occurrences (needle text : string) : nat :=
  match text with
  | EmptyString => 0%nat
  | String _ rest =>
    ((if String.prefix needle text then 1 else 0) + count_occurrences needle rest)%nat
  end.

(** Test streams.  A buffer as [create_buffers] makes it for a slot, the
    data of a thread started on a 640x480 image with a callback, and loop
    turns in which the application hands in the given buffers and the
    kernel accepts them; the frame of slot 0 then completes at the kernel
    time 1.5 s, or the dequeue call fails. *)
Definition fresh_buffer (slot : Z) : ArvBuffer :=
  {| v4l2_index := slot; payload_type := ARV_BUFFER_PAYLOAD_TYPE_UNKNOWN;
     chunk_endianness := 0; status := ARV_BUFFER_STATUS_CLEARED;
     timestamp_ns := 0; system_timestamp_ns := 0; frame_id := 0;
     received_size := 0; parts := [] |}.

Definition stream_data : ArvV4l2StreamThreadData :=
  {| has_callback := true; td_pixel_format := 0x02180014;
     td_image_width := 640; td_image_height := 480; td_frame_id := 0;
     n_completed_buffers := 0; n_failures := 0; n_underruns := 0;
     n_transferred_bytes := 0 |}.

Definition frame_completes (input : list positive) : iteration :=
  {| it_input := input;
     it_qbuf := fun bufd => Some bufd;
     it_select := 1;
     it_dqbuf := fun bufd =>
       Some {| buf_index := 0; buf_tv_sec := 1; buf_tv_usec := 500000;
               buf_length := 921600 |};
     it_real_time := 1700000000000000 |}.

Definition dequeue_fails (input : list positive) : iteration :=
  {| it_input := input;
     it_qbuf := fun bufd => Some bufd;
     it_select := -1;
     it_dqbuf := fun bufd => None;
     it_real_time := 1700000000000000 |}.

(** The two tables have one entry per format, their length fits a gint
    and the active index designates an entry. *)
Definition device_invariant (priv : ArvV4l2DevicePrivate) : Prop :=
  length (frame_sizes priv) = length (pixel_formats priv) /\
  Z.of_nat (length (pixel_formats priv)) <= 2 ^ 31 /\
  0 <= pixel_format_idx priv < Z.of_nat (length (pixel_formats priv)).

(** The width and the height the code takes from a frame size. *)
Definition frmsize_width (size : v4l2_frmsize) : Z :=
  match size with
  | frmsize_discrete width _ => width
  | frmsize_stepwise _ max_width _ _ _ _ => max_width
  end.

Definition frmsize_height (size : v4l2_frmsize) : Z :=
  match size with
  | frmsize_discrete _ height => height
  | frmsize_stepwise _ _ _ _ max_height _ => max_height
  end.

(** All the frame sizes the enumeration asks for: those of the formats
    that have a generic code. *)
Definition enumerated_sizes `{PixelFormatCodes} (k : v4l2_kernel)
    (formats : list v4l2_fmtdesc) : list v4l2_frmsize :=
  flat_map (fun format =>
              if genicam_code (pixelformat format) =? 0 then []
              else k_frame_sizes k (pixelformat format)) formats.

(** The entry of [frame_sizes] for a format: its first frame size, or a
    cleared entry when it has no generic code or no frame size. *)
Definition first_frame_size `{PixelFormatCodes} (k : v4l2_kernel) (format : v4l2_fmtdesc)
  : v4l2_frmsizeenum :=
  if genicam_code (pixelformat format) =? 0 then frmsizeenum_zero
  else match k_frame_sizes k (pixelformat format) with
       | [] => frmsizeenum_zero
       | size :: _ => {| frm_index := 0; frm_pixel_format := pixelformat format;
                         frm_size := size |}
       end.

(** The fields of the private data that enumeration does not touch. *)
Definition same_identity (p q : ArvV4l2DevicePrivate) : Prop :=
  device_fd p = device_fd q /\ device_file p = device_file q /\
  device_card p = device_card q /\ device_version p = device_version q /\
  device_driver p = device_driver q /\ genicam_xml p = genicam_xml q /\
  genicam_nodes p = genicam_nodes q.

(** The kernel side lets construction reach the schema, and the schema loads. *)
Definition device_answers (k : v4l2_kernel) : Prop :=
  exists fd cap, k_open k = Some fd /\ k_querycap k = Some cap /\
                 Z.land (cap_capabilities cap) V4L2_CAP_VIDEO_CAPTURE <> 0.

Definition schema_loads (res : resources) : Prop :=
  (exists xml, res_genicam_xml res = Some xml) /\ res_gc_valid res = true.

(** A device file that cannot be opened. *)
Definition absent_device : v4l2_kernel :=
  {| k_open := None; k_querycap := None; k_formats := [RGB3];
     k_frame_sizes := camera_frame_sizes;
     k_s_fmt := fun _ => None; k_g_fmt := fun _ => None |}.

(** The fields of the thread data that only [start_acquisition] and the
    construction of the stream set. *)
Definition same_configuration (td td' : ArvV4l2StreamThreadData) : Prop :=
  has_callback td' = has_callback td /\
  td_pixel_format td' = td_pixel_format td /\
  td_image_width td' = td_image_width td /\
  td_image_height td' = td_image_height td /\
  n_failures td' = n_failures td /\
  n_underruns td' = n_underruns td.

(** The frame counter and the completed counter hold guint32 values. *)
Definition counters_in_range (td : ArvV4l2StreamThreadData) : Prop :=
  0 <= td_frame_id td < 2 ^ 32 /\ 0 <= n_completed_buffers td < 2 ^ 32.

(** The state in which the thread enters its loop. *)
Definition thread_start (td : ArvV4l2StreamThreadData) (objects : gmap positive ArvBuffer)
  : thread_state :=
  callback ARV_STREAM_CALLBACK_TYPE_INIT
    {| thread_data := td; buffers := ∅; heap := objects;
       output_queue := []; callbacks := [] |}.

(** The buffers a run delivers.  In one turn of the loop it is the
    buffer found in the table, once the buffers of the input queue have
    been submitted, under the index the kernel answers to the dequeue call
    (0 when that call fails), if there is such an entry and it is a
    buffer object. *)
Definition answered_slot (it : iteration) (bufd : v4l2_buffer) : Z :=
  match it_dqbuf it (set_buf_index bufd 0) with
  | Some answer => buf_index answer
  | None => 0
  end.

Definition delivered_in_turn (st : thread_state) (it : iteration) : list positive :=
  let '(bufd, submitted) := submit_buffers it (it_input it) v4l2_buffer_zero st in
  match buffers submitted !! answered_slot it bufd with
  | Some arv_buffer =>
    match heap submitted !! arv_buffer with
    | Some _ => [arv_buffer]
    | None => []
    end
  | None => []
  end.

Fixpoint delivered_buffers (st : thread_state) (trace : list iteration) : list positive :=
  match trace with
  | [] => []
  | it :: rest => delivered_in_turn st it ++ delivered_buffers (thread_iteration st it) rest
  end.

(** The slot a buffer is submitted for. *)
Definition slot_of (b : ArvBuffer) : Z := to_guint32 (v4l2_index b).

(** A kernel that accepts every submission and leaves the index as it is. *)
Definition accepts_submissions (it : iteration) : Prop :=
  forall bufd, exists bufd',
    it_qbuf it bufd = Some bufd' /\ buf_index bufd' = buf_index bufd.

(** A loop turn in which the kernel refuses every submission and the
    dequeue call fails. *)
Definition submission_refused (input : list positive) : iteration :=
  {| it_input := input;
     it_qbuf := fun bufd => None;
     it_select := 0;
     it_dqbuf := fun bufd => None;
     it_real_time := 1700000000000000 |}.

(** A kernel that grants any number of slots but can describe only the
    first three, each of 921600 bytes. *)
Definition three_slot_kernel : buffer_kernel :=
  {| k_reqbufs := fun count => true;
     k_querybuf := fun index =>
       if index <? 3 then Some (921600, index * 921600) else None;
     k_mmap := fun length offset => 0x7f0000000000 + offset |}.

(** A stream that is not running, with its thread data. *)
Definition idle_stream : ArvV4l2StreamPrivate :=
  {| thread := false; cancel := false; thread_started := false;
     stream_thread_data := Some stream_data |}.

(** A kernel that accepts the format it is asked for and reports two
    bytes per pixel. *)
Definition sizing_kernel : v4l2_kernel :=
  {| k_open := Some 3; k_querycap := None; k_formats := [];
     k_frame_sizes := fun _ => [];
     k_s_fmt := fun format => Some format;
     k_g_fmt := fun format =>
       Some {| pix_width := pix_width format; pix_height := pix_height format;
               pix_pixelformat := pix_pixelformat format;
               pix_sizeimage := pix_width format * pix_height format * 2 |} |}.

(** A kernel that refuses every format. *)
Definition refusing_kernel : v4l2_kernel :=
  {| k_open := Some 3; k_querycap := None; k_formats := [];
     k_frame_sizes := fun _ => [];
     k_s_fmt := fun _ => None; k_g_fmt := fun _ => None |}.

(** * Properties of the register map *)

Section RegisterMap.

Variable k : v4l2_kernel.
Variable priv : ArvV4l2DevicePrivate.

Lemma length_strncpy (src : string) (n : nat) : length (strncpy src n) = n.
Proof.
  unfold strncpy. rewrite length_app, length_replicate.
  pose proof (firstn_le_length n (c_str src)). lia.
Qed.

Lemma address_eqb_neq (a b : Z) : a <> b -> (a =? b) = false.
Proof. intros Hne. now apply Z.eqb_neq. Qed.

Lemma identity_string_Some (address : Z) :
  In address identity_addresses <-> exists s, identity_string priv address = Some s.
Proof.
  unfold identity_string, identity_addresses. split.
  - intros Hin. simpl in Hin.
    destruct Hin as [<- | [<- | [<- | [<- | [<- | []]]]]]; simpl; eauto.
  - intros [s Hs]. simpl.
    destruct (Z.eqb_spec address ARV_V4L2_ADDRESS_DEVICE_VENDOR_NAME); [auto |].
    destruct (Z.eqb_spec address ARV_V4L2_ADDRESS_DEVICE_MODEL_NAME); [auto |].
    destruct (Z.eqb_spec address ARV_V4L2_ADDRESS_DEVICE_VERSION); [auto |].
    destruct (Z.eqb_spec address ARV_V4L2_ADDRESS_DEVICE_MANUFACTURER_INFO); [auto 6 |].
    destruct (Z.eqb_spec address ARV_V4L2_ADDRESS_DEVICE_ID); [auto 6 |].
    discriminate.
Qed.

Lemma identity_string_None (address : Z) :
  ~ In address identity_addresses -> identity_string priv address = None.
Proof.
  intros Hnot. destruct (identity_string priv address) as [s |] eqn:Hs; [| reflexivity].
  exfalso. apply Hnot. apply identity_string_Some. eauto.
Qed.

(** X16: a read whose length is not 4 and whose address is not a string
    register reports success and leaves the buffer as it was. *)
Lemma read_other_length_succeeds (address size : Z) (buf : list byte) (value : Z) :
  ~ In address identity_addresses -> 1 <= size -> size <> 4 ->
  arv_v4l2_device_read_memory k priv address size (Some buf) value =
  {| read_ok := true; read_error := None; read_buffer := Some buf |}.
Proof.
  intros Hnot Hsize Hne. unfold arv_v4l2_device_read_memory.
  destruct (Z.ltb_spec size 1); [lia |].
  rewrite (identity_string_None _ Hnot).
  now rewrite (address_eqb_neq _ _ Hne).
Qed.

(** X27: a 4-byte read of an address outside the map fails with the
    invalid address error. *)
Lemma read_unknown_address_fails (address : Z) (buf : list byte) (value : Z) :
  ~ In address identity_addresses -> ~ In address numeric_addresses ->
  let r := arv_v4l2_device_read_memory k priv address 4 (Some buf) value in
  read_ok r = false /\
  read_error r = Some ARV_DEVICE_ERROR_PROTOCOL_ERROR_INVALID_ADDRESS.
Proof.
  intros Hid Hnum. unfold arv_v4l2_device_read_memory. simpl (4 <? 1).
  rewrite (identity_string_None _ Hid). simpl (4 =? 4). cbv iota.
  assert (read_numeric k priv address value = None) as ->; [| simpl; auto].
  unfold read_numeric, numeric_addresses in *. simpl in Hnum.
  destruct (_ && _); [| reflexivity].
  rewrite !address_eqb_neq; intuition.
Qed.

End RegisterMap.

(** ** Writing the pixel format register *)

Lemma write_pixel_format_loop_counter (formats : list Z) (value i idx : Z) :
  (write_pixel_format_loop formats value i idx).1 = i + Z.of_nat (length formats).
Proof.
  revert i idx. induction formats as [| format rest IH]; intros i idx; simpl.
  - lia.
  - rewrite IH. lia.
Qed.

Lemma write_pixel_format_loop_no_match (formats : list Z) (value i idx : Z) :
  (forall format, In format formats -> format <> to_guint32 value) ->
  (write_pixel_format_loop formats value i idx).2 = idx.
Proof.
  revert i idx. induction formats as [| format rest IH]; intros i idx Hno; simpl.
  - reflexivity.
  - rewrite (address_eqb_neq format (to_guint32 value)) by (apply Hno; now left).
    apply IH. intros f Hf. apply Hno. now right.
Qed.

(** The loop over the table has no [break]: its counter always reaches
    the length of the table, so the write is always rejected. *)
Lemma write_pixel_format_rejected (priv : ArvV4l2DevicePrivate) (buffer : list byte) :
  Z.of_nat (length (pixel_formats priv)) < 2 ^ 32 ->
  let w := arv_v4l2_device_write_memory priv ARV_V4L2_ADDRESS_PIXEL_FORMAT 4 buffer in
  write_ok w = false /\
  write_error w = Some ARV_DEVICE_ERROR_PROTOCOL_ERROR_INVALID_ADDRESS.
Proof.
  intros Hlen. unfold arv_v4l2_device_write_memory. simpl (4 =? 4). cbv iota.
  change (ARV_V4L2_ADDRESS_PIXEL_FORMAT =? ARV_V4L2_ADDRESS_ACQUISITION_COMMAND) with false.
  change (ARV_V4L2_ADDRESS_PIXEL_FORMAT =? ARV_V4L2_ADDRESS_PIXEL_FORMAT) with true.
  cbv iota.
  pose proof (write_pixel_format_loop_counter (pixel_formats priv)
                (gint32_of_bytes buffer) 0 (pixel_format_idx priv)) as Hcount.
  destruct (write_pixel_format_loop _ _ _ _) as [i idx]. simpl in Hcount. subst i.
  simpl (pixel_formats _).
  assert ((to_guint32 (0 + Z.of_nat (length (pixel_formats priv)))
           =? Z.of_nat (length (pixel_formats priv))) = true) as ->.
  { apply Z.eqb_eq. unfold to_guint32. apply Z.mod_small. lia. }
  simpl. auto.
Qed.

(** A value that is not in the table leaves the active index alone. *)
Lemma write_unknown_pixel_format_keeps_index (priv : ArvV4l2DevicePrivate)
    (buffer : list byte) :
  (forall format, In format (pixel_formats priv) ->
                  format <> to_guint32 (gint32_of_bytes buffer)) ->
  pixel_format_idx
    (write_priv (arv_v4l2_device_write_memory priv ARV_V4L2_ADDRESS_PIXEL_FORMAT 4 buffer))
  = pixel_format_idx priv.
Proof.
  intros Hno. unfold arv_v4l2_device_write_memory. simpl (4 =? 4). cbv iota.
  change (ARV_V4L2_ADDRESS_PIXEL_FORMAT =? ARV_V4L2_ADDRESS_ACQUISITION_COMMAND) with false.
  change (ARV_V4L2_ADDRESS_PIXEL_FORMAT =? ARV_V4L2_ADDRESS_PIXEL_FORMAT) with true.
  cbv iota.
  pose proof (write_pixel_format_loop_no_match (pixel_formats priv)
                (gint32_of_bytes buffer) 0 (pixel_format_idx priv) Hno) as Hidx.
  destruct (write_pixel_format_loop _ _ _ _) as [i idx]. simpl in Hidx. subst idx.
  destruct (negb _); reflexivity.
Qed.

(** ** The claims on the register map *)

(** C1 (the code departs from it): writing a value that IS in the pixel
    format table selects its index but the write is still reported as
    failed with the invalid address error.  Here the table is
    [0x02180014; 0x0210001f], index 0 is active and 0x0210001f is written. *)
Theorem write_known_pixel_format_fails :
  let w := arv_v4l2_device_write_memory two_format_device
             ARV_V4L2_ADDRESS_PIXEL_FORMAT 4 (bytes_of_gint32 0x0210001f) in
  In 0x0210001f (pixel_formats two_format_device) /\
  pixel_format_idx (write_priv w) = 1 /\
  write_ok w = false /\
  write_error w = Some ARV_DEVICE_ERROR_PROTOCOL_ERROR_INVALID_ADDRESS.
Proof. vm_compute. intuition. Qed.

(** C2 (the code departs from it): a 2-byte read of the width register
    reports success, sets no error and stores nothing in the buffer. *)
Theorem read_width_two_bytes_succeeds :
  arv_v4l2_device_read_memory (obliging_kernel [] (fun _ => [])) two_format_device
    ARV_V4L2_ADDRESS_WIDTH 2 (Some [x00; x00]) 0
  = {| read_ok := true; read_error := None; read_buffer := Some [x00; x00] |}.
Proof. reflexivity. Qed.

(** C6: reading a string register with length [size >= 1] stores exactly
    [size] bytes at the start of the buffer: the first [size - 1]
    characters of the string at most, then NUL up to and including
    position [size - 1]; the rest of the buffer is untouched. *)
Theorem read_identity_string_truncated (k : v4l2_kernel) (priv : ArvV4l2DevicePrivate)
    (address size : Z) (buf : list byte) (value : Z) :
  In address identity_addresses -> 1 <= size ->
  exists s content written,
    identity_string priv address = Some s /\
    content = take (Z.to_nat (size - 1)) (c_str s) /\
    (length content <= Z.to_nat (size - 1))%nat /\
    written = content ++ replicate (Z.to_nat size - length content) x00 /\
    length written = Z.to_nat size /\
    written !! (Z.to_nat size - 1)%nat = Some x00 /\
    arv_v4l2_device_read_memory k priv address size (Some buf) value =
    {| read_ok := true; read_error := None;
       read_buffer := Some (written ++ drop (Z.to_nat size) buf) |}.
Proof.
  intros Hin Hsize.
  destruct (proj1 (identity_string_Some priv address) Hin) as [s Hs].
  set (n := Z.to_nat (size - 1)).
  set (content := take n (c_str s)).
  assert (length content <= n)%nat as Hcontent by apply firstn_le_length.
  assert (Z.to_nat size = S n) as Hn by (unfold n; lia).
  assert (strncpy s n ++ [x00] = content ++ replicate (S n - length content) x00) as Hw.
  { unfold strncpy. fold content. rewrite <- app_assoc, <- replicate_S_end.
    do 2 f_equal. lia. }
  exists s, content, (content ++ replicate (Z.to_nat size - length content) x00).
  rewrite Hn. repeat split; try assumption.
  - rewrite length_app, length_replicate. lia.
  - rewrite lookup_app_r by lia. apply lookup_replicate_2. lia.
  - unfold arv_v4l2_device_read_memory.
    destruct (Z.ltb_spec size 1); [lia |]. rewrite Hs. fold n.
    unfold store_bytes. rewrite Hw. do 3 f_equal.
    rewrite length_app, length_replicate. f_equal. lia.
Qed.

Lemma read_identity_string_truncated_witness :
  arv_v4l2_device_read_memory (obliging_kernel [] (fun _ => [])) two_format_device
    ARV_V4L2_ADDRESS_DEVICE_VENDOR_NAME 4 (Some [x01; x02; x03; x04; x05]) 0
  = {| read_ok := true; read_error := None;
       read_buffer := Some ["u"%byte; "v"%byte; "c"%byte; x00; x05] |}.
Proof.
  destruct (read_identity_string_truncated (obliging_kernel [] (fun _ => []))
              two_format_device ARV_V4L2_ADDRESS_DEVICE_VENDOR_NAME 4
              [x01; x02; x03; x04; x05] 0)
    as (s & content & written & Hs & Hcontent & _ & Hwritten & _ & _ & Hread).
  - simpl. auto.
  - lia.
  - rewrite Hread. injection Hs as <-. subst written content. reflexivity.
Defined.

(** C10: a read with [size < 1] or a NULL buffer returns FALSE without
    setting any error, whereas every other failing read sets the invalid
    address error. *)
Theorem read_without_size_or_buffer_sets_no_error (k : v4l2_kernel)
    (priv : ArvV4l2DevicePrivate) (address size : Z) (buffer : option (list byte))
    (value : Z) :
  let r := arv_v4l2_device_read_memory k priv address size buffer value in
  (size < 1 \/ buffer = None ->
   read_ok r = false /\ read_error r = None /\ read_buffer r = buffer) /\
  (~ (size < 1 \/ buffer = None) -> read_ok r = false ->
   read_error r = Some ARV_DEVICE_ERROR_PROTOCOL_ERROR_INVALID_ADDRESS).
Proof.
  unfold arv_v4l2_device_read_memory. split.
  - intros [Hsize | ->]; [| auto].
    destruct buffer as [buf |]; [| auto].
    destruct (Z.ltb_spec size 1); [auto | lia].
  - intros Hguard. destruct buffer as [buf |]; [| tauto].
    destruct (Z.ltb_spec size 1); [tauto |].
    destruct (identity_string priv address); [discriminate |].
    destruct (size =? 4); [| discriminate].
    destruct (read_numeric k priv address value); [discriminate | reflexivity].
Qed.

Lemma read_without_size_or_buffer_sets_no_error_witness :
  arv_v4l2_device_read_memory (obliging_kernel [] (fun _ => [])) two_format_device
    ARV_V4L2_ADDRESS_WIDTH 0 (Some [x01]) 0
  = {| read_ok := false; read_error := None; read_buffer := Some [x01] |} /\
  read_error (arv_v4l2_device_read_memory (obliging_kernel [] (fun _ => []))
                two_format_device 0x0200 4 (Some [x01; x02; x03; x04]) 0)
  = Some ARV_DEVICE_ERROR_PROTOCOL_ERROR_INVALID_ADDRESS.
Proof.
  split.
  - destruct (read_without_size_or_buffer_sets_no_error
                (obliging_kernel [] (fun _ => [])) two_format_device
                ARV_V4L2_ADDRESS_WIDTH 0 (Some [x01]) 0) as [Hnone _].
    destruct Hnone as (Hok & Herr & Hbuf); [left; lia |].
    destruct (arv_v4l2_device_read_memory _ _ _ _ _ _); simpl in *. congruence.
  - destruct (read_without_size_or_buffer_sets_no_error
                (obliging_kernel [] (fun _ => [])) two_format_device
                0x0200 4 (Some [x01; x02; x03; x04]) 0) as [_ Hother].
    apply Hother.
    + intros [Hsize | Hbuf]; [lia | discriminate].
    + reflexivity.
Defined.

(** * Properties of the construction *)

Lemma string_app_assoc (a b c : string) : (a +:+ b) +:+ c = a +:+ (b +:+ c).
Proof.
  induction a as [| ch a IH]; [reflexivity |].
  change (String ch ((a +:+ b) +:+ c) = String ch (a +:+ b +:+ c)). now f_equal.
Qed.

Lemma string_app_nil (a : string) : a +:+ EmptyString = a.
Proof.
  induction a as [| ch a IH]; [reflexivity |].
  change (String ch (a +:+ EmptyString) = String ch a). now f_equal.
Qed.

Section FrameSizes.

Variables (code : Z) (i : nat).

Lemma enum_frame_sizes_keeps (sizes : list v4l2_frmsize) (j : Z) (st : enum_state) :
  let st' := enum_frame_sizes code i sizes j st in
  pixel_format_idx (es_priv st') = pixel_format_idx (es_priv st) /\
  pixel_formats (es_priv st') = pixel_formats (es_priv st) /\
  es_format_feature st' = es_format_feature st.
Proof.
  revert j st. induction sizes as [| size rest IH]; intros j st; simpl.
  - auto.
  - destruct (IH (j + 1)
      (let st1 := es_update (fun priv =>
                    set_sensor priv
                      (Z.max (sensor_width priv)
                         (frame_size_width
                            {| frm_index := j; frm_pixel_format := code; frm_size := size |}))
                      (Z.max (sensor_height priv)
                         (frame_size_height
                            {| frm_index := j; frm_pixel_format := code; frm_size := size |})))
                    (es_ioctl (VIDIOC_ENUM_FRAMESIZES code j) st) in
       if j =? 0
       then es_update (fun priv =>
              set_frame_sizes priv
                (g_array_insert_val frmsizeenum_zero (frame_sizes priv) i
                   {| frm_index := j; frm_pixel_format := code; frm_size := size |})) st1
       else st1)) as (Hidx & Hfmt & Htext).
    simpl in *. rewrite Hidx, Hfmt, Htext. destruct (j =? 0); simpl; auto.
Qed.

(** The requests of the inner loop all carry the code of its format. *)
Lemma enum_frame_sizes_ioctls (sizes : list v4l2_frmsize) (j : Z) (st : enum_state)
    (r : ioctl_request) :
  In r (es_ioctls (enum_frame_sizes code i sizes j st)) <->
  In r (es_ioctls st) \/
  exists n, (n <= length sizes)%nat /\ r = VIDIOC_ENUM_FRAMESIZES code (j + Z.of_nat n).
Proof.
  revert j st. induction sizes as [| size rest IH]; intros j st.
  - simpl. rewrite in_app_iff. simpl. split.
    + intros [Hin | [<- | []]]; [auto |]. right. exists 0%nat. split; [lia | f_equal; lia].
    + intros [Hin | (n & Hn & ->)]; [auto |]. right. left. f_equal. lia.
  - cbn [enum_frame_sizes]. rewrite IH. clear IH.
    assert (forall st1 : enum_state,
              es_ioctls (if j =? 0
                         then es_update (fun priv =>
                                set_frame_sizes priv
                                  (g_array_insert_val frmsizeenum_zero (frame_sizes priv) i
                                     {| frm_index := j; frm_pixel_format := code;
                                        frm_size := size |})) st1
                         else st1) = es_ioctls st1) as ->
      by (intros st1; destruct (j =? 0); reflexivity).
    simpl. rewrite in_app_iff. simpl. split.
    + intros [[Hin | [<- | []]] | (n & Hn & ->)]; [auto | |].
      * right. exists 0%nat. split; [lia | f_equal; lia].
      * right. exists (S n). split; [lia | f_equal; lia].
    + intros [Hin | (n & Hn & ->)]; [auto |].
      destruct n as [| n].
      * left. right. left. f_equal. lia.
      * right. exists n. split; [lia | f_equal; lia].
Qed.

End FrameSizes.

Section Enumeration.

Context `{PixelFormatCodes}.
Variable k : v4l2_kernel.

(** A code that no entry of the translation table names has no generic code. *)
Lemma lookup_genicam_absent (map : list ArvV4l2GenicamPixelFormat) (pixelformat g : Z) :
  (forall entry, In entry map -> v4l2 entry <> pixelformat) ->
  lookup_genicam map pixelformat g = g.
Proof.
  revert g. induction map as [| entry rest IH]; intros g Habsent; simpl.
  - reflexivity.
  - rewrite (address_eqb_neq pixelformat (v4l2 entry)).
    + apply IH. intros e He. apply Habsent. now right.
    + intros Heq. apply (Habsent entry); [now left | auto].
Qed.

Lemma enum_formats_nil (i : nat) (st : enum_state) :
  enum_formats k [] i st = (i, es_ioctl (VIDIOC_ENUM_FMT (Z.of_nat i)) st).
Proof. reflexivity. Qed.

Lemma enum_formats_cons (format : v4l2_fmtdesc) (rest : list v4l2_fmtdesc) (i : nat)
    (st : enum_state) :
  enum_formats k (format :: rest) i st =
  if genicam_code (pixelformat format) =? 0
  then enum_formats k rest (S i) (record_format format i st)
  else enum_formats k rest (S i) (visit_format k format i st).
Proof. reflexivity. Qed.

Lemma record_format_table (format : v4l2_fmtdesc) (i : nat) (st : enum_state) :
  length (pixel_formats (es_priv st)) = i ->
  pixel_formats (es_priv (record_format format i st))
  = pixel_formats (es_priv st) ++ [genicam_code (pixelformat format)].
Proof.
  intros <-. unfold record_format, g_array_insert_val. simpl.
  now rewrite Nat.leb_refl, firstn_all, drop_all.
Qed.

Lemma visit_format_keeps (format : v4l2_fmtdesc) (i : nat) (st : enum_state) :
  pixel_format_idx (es_priv (visit_format k format i st)) = Z.of_nat i /\
  pixel_formats (es_priv (visit_format k format i st))
  = pixel_formats (es_priv (record_format format i st)) /\
  es_format_feature (visit_format k format i st)
  = es_format_feature st
    +:+ enum_entry (description format) (genicam_code (pixelformat format)).
Proof.
  unfold visit_format.
  destruct (enum_frame_sizes_keeps (pixelformat format) i
              (k_frame_sizes k (pixelformat format)) 0
              (es_update (fun priv => set_pixel_format_idx priv (Z.of_nat i))
                 (es_append (enum_entry (description format)
                               (genicam_code (pixelformat format)))
                    (record_format format i st)))) as (-> & -> & ->).
  auto.
Qed.

Lemma enum_formats_counter (formats : list v4l2_fmtdesc) (i : nat) (st : enum_state) :
  (enum_formats k formats i st).1 = (i + length formats)%nat.
Proof.
  revert i st. induction formats as [| format rest IH]; intros i st.
  - simpl. lia.
  - rewrite enum_formats_cons. destruct (_ =? 0); rewrite IH; simpl; lia.
Qed.

Lemma enum_formats_text (formats : list v4l2_fmtdesc) (i : nat) (st : enum_state) :
  es_format_feature (enum_formats k formats i st).2
  = es_format_feature st +:+ entries_text formats.
Proof.
  revert i st. induction formats as [| format rest IH]; intros i st.
  - simpl. now rewrite string_app_nil.
  - rewrite enum_formats_cons. cbn [entries_text].
    destruct (genicam_code (pixelformat format) =? 0); rewrite IH.
    + reflexivity.
    + destruct (visit_format_keeps format i st) as (_ & _ & ->).
      apply string_app_assoc.
Qed.

Lemma enum_formats_index (formats : list v4l2_fmtdesc) (i : nat) (st : enum_state) :
  pixel_format_idx (es_priv (enum_formats k formats i st).2)
  = last_supported formats i (pixel_format_idx (es_priv st)).
Proof.
  revert i st. induction formats as [| format rest IH]; intros i st.
  - reflexivity.
  - rewrite enum_formats_cons. cbn [last_supported].
    destruct (genicam_code (pixelformat format) =? 0); rewrite IH.
    + reflexivity.
    + now destruct (visit_format_keeps format i st) as (-> & _ & _).
Qed.

(** Every format is recorded, in the order of the enumeration. *)
Lemma enum_formats_table (formats : list v4l2_fmtdesc) (i : nat) (st : enum_state) :
  length (pixel_formats (es_priv st)) = i ->
  pixel_formats (es_priv (enum_formats k formats i st).2)
  = pixel_formats (es_priv st)
    ++ map (fun format => genicam_code (pixelformat format)) formats.
Proof.
  revert i st. induction formats as [| format rest IH]; intros i st Hlen.
  - simpl. now rewrite app_nil_r.
  - rewrite enum_formats_cons.
    pose proof (record_format_table format i st Hlen) as Hrec.
    destruct (visit_format_keeps format i st) as (_ & Hvisit & _).
    rewrite Hrec in Hvisit.
    destruct (genicam_code (pixelformat format) =? 0); rewrite IH.
    + rewrite Hrec, <- app_assoc. reflexivity.
    + rewrite Hrec, length_app. simpl. lia.
    + rewrite Hvisit, <- app_assoc. reflexivity.
    + rewrite Hvisit, length_app. simpl. lia.
Qed.

Lemma record_format_ioctls (format : v4l2_fmtdesc) (i : nat) (st : enum_state) :
  es_ioctls (record_format format i st) = es_ioctls st ++ [VIDIOC_ENUM_FMT (Z.of_nat i)].
Proof. reflexivity. Qed.

Lemma visit_format_ioctls (format : v4l2_fmtdesc) (i : nat) (st : enum_state)
    (r : ioctl_request) :
  In r (es_ioctls (visit_format k format i st)) <->
  In r (es_ioctls st) \/ r = VIDIOC_ENUM_FMT (Z.of_nat i) \/
  exists n, (n <= length (k_frame_sizes k (pixelformat format)))%nat /\
            r = VIDIOC_ENUM_FRAMESIZES (pixelformat format) (Z.of_nat n).
Proof.
  unfold visit_format. rewrite enum_frame_sizes_ioctls. simpl.
  rewrite in_app_iff. simpl. intuition.
Qed.

(** The requests of the enumeration: one [VIDIOC_ENUM_FMT] for each index
    up to the first one that fails, and frame sizes only for the formats
    that have a generic code. *)
Lemma enum_formats_ioctls (formats : list v4l2_fmtdesc) (i : nat) (st : enum_state)
    (r : ioctl_request) :
  In r (es_ioctls (enum_formats k formats i st).2) <->
  In r (es_ioctls st) \/
  (exists n, (n <= length formats)%nat /\ r = VIDIOC_ENUM_FMT (Z.of_nat (i + n))) \/
  (exists format n, In format formats /\ genicam_code (pixelformat format) <> 0 /\
      (n <= length (k_frame_sizes k (pixelformat format)))%nat /\
      r = VIDIOC_ENUM_FRAMESIZES (pixelformat format) (Z.of_nat n)).
Proof.
  revert i st. induction formats as [| format rest IH]; intros i st.
  - rewrite enum_formats_nil. simpl. rewrite in_app_iff. simpl. split.
    + intros [Hin | [<- | []]]; [auto |]. right. left. exists 0%nat.
      split; [lia | do 2 f_equal; lia].
    + intros [Hin | [(n & Hn & ->) | (format & n & [] & _)]]; [auto |].
      right. left. do 2 f_equal. lia.
  - rewrite enum_formats_cons.
    destruct (Z.eqb_spec (genicam_code (pixelformat format)) 0) as [Hzero | Hcode];
      rewrite IH; clear IH.
    + rewrite record_format_ioctls, in_app_iff. simpl. split.
      * intros [[Hin | [<- | []]] | [(n & Hn & ->) | (f & n & Hf & Hrest)]]; [auto | | |].
        -- right. left. exists 0%nat. split; [lia | do 2 f_equal; lia].
        -- right. left. exists (S n). split; [lia | do 2 f_equal; lia].
        -- right. right. exists f, n. auto.
      * intros [Hin | [(n & Hn & ->) | (f & n & [<- | Hf] & Hne & Hrest)]];
          [auto | | congruence |].
        -- destruct n as [| n].
           ++ left. right. left. do 2 f_equal. lia.
           ++ right. left. exists n. split; [lia | do 2 f_equal; lia].
        -- right. right. exists f, n. auto.
    + rewrite visit_format_ioctls. simpl. split.
      * intros [[Hin | [-> | (n & Hn & ->)]] | [(n & Hn & ->) | (f & n & Hf & Hrest)]];
          [auto | | | |].
        -- right. left. exists 0%nat. split; [lia | do 2 f_equal; lia].
        -- right. right. exists format, n. auto.
        -- right. left. exists (S n). split; [lia | do 2 f_equal; lia].
        -- right. right. exists f, n. auto.
      * intros [Hin | [(n & Hn & ->) | (f & n & [<- | Hf] & Hne & Hn & ->)]]; [auto | | |].
        -- destruct n as [| n].
           ++ left. right. left. do 2 f_equal. lia.
           ++ right. left. exists n. split; [lia | do 2 f_equal; lia].
        -- left. right. right. exists n. auto.
        -- right. right. exists f, n. auto.
Qed.

Lemma last_supported_none (formats : list v4l2_fmtdesc) (i : nat) (idx : Z) :
  (forall format, In format formats -> genicam_code (pixelformat format) = 0) ->
  last_supported formats i idx = idx.
Proof.
  revert i idx. induction formats as [| format rest IH]; intros i idx Hnone; simpl.
  - reflexivity.
  - rewrite (Hnone format) by now left. simpl. apply IH.
    intros f Hf. apply Hnone. now right.
Qed.

Lemma last_supported_spec (formats : list v4l2_fmtdesc) (i : nat) (idx : Z) (n : nat)
    (format : v4l2_fmtdesc) :
  formats !! n = Some format ->
  genicam_code (pixelformat format) <> 0 ->
  (forall j format', (n < j)%nat -> formats !! j = Some format' ->
                     genicam_code (pixelformat format') = 0) ->
  last_supported formats i idx = Z.of_nat (i + n).
Proof.
  revert i idx n. induction formats as [| first rest IH]; intros i idx n Hn Hcode Hlast.
  - discriminate.
  - destruct n as [| n]; simpl in Hn |- *.
    + injection Hn as ->. rewrite (address_eqb_neq _ _ Hcode).
      rewrite last_supported_none; [f_equal; lia |].
      intros f Hf. apply list_elem_of_In, list_elem_of_lookup in Hf as [j Hj].
      apply (Hlast (S j)); [lia | exact Hj].
    + rewrite (IH (S i) _ n Hn Hcode); [f_equal; lia |].
      intros j f Hj Hf. apply (Hlast (S j)); [lia | exact Hf].
Qed.

(** A construction that reports no error went through the enumeration. *)
Lemma constructed_ok (res : resources) (priv : ArvV4l2DevicePrivate) :
  c_init_error (arv_v4l2_device_constructed k res priv) = None ->
  exists fd cap xml,
    arv_v4l2_device_constructed k res priv
    = enumeration_finish (enum_formats k (k_formats k) 0 (enumeration_start priv fd cap xml)).
Proof.
  unfold arv_v4l2_device_constructed.
  destruct (k_open k) as [fd |]; [| discriminate].
  destruct (k_querycap k) as [cap |]; [| discriminate].
  destruct (_ =? 0); [discriminate |].
  destruct (res_genicam_xml res) as [xml |]; [| discriminate].
  destruct (negb _); [discriminate |].
  intros _. exists fd, cap, xml. unfold enumeration_finish, enumeration_start.
  destruct (enum_formats _ _ _ _) as [i st]. reflexivity.
Qed.

(** Whether construction reports an error does not depend on the formats. *)
Lemma constructed_error_formats (res : resources) (priv : ArvV4l2DevicePrivate)
    (formats : list v4l2_fmtdesc) :
  c_init_error (arv_v4l2_device_constructed (with_formats k formats) res priv)
  = c_init_error (arv_v4l2_device_constructed k res priv).
Proof.
  unfold arv_v4l2_device_constructed. simpl.
  destruct (k_open k) as [fd |]; [| reflexivity].
  destruct (k_querycap k) as [cap |]; [| reflexivity].
  destruct (_ =? 0); [reflexivity |].
  destruct (res_genicam_xml res) as [xml |]; [| reflexivity].
  destruct (negb _); [reflexivity |].
  do 2 destruct (enum_formats _ _ _ _). reflexivity.
Qed.

End Enumeration.

Lemma enum_formats_with_formats `{PixelFormatCodes} (k : v4l2_kernel)
    (others formats : list v4l2_fmtdesc) (i : nat)
    (st : enum_state) :
  enum_formats (with_formats k others) formats i st = enum_formats k formats i st.
Proof.
  revert i st. induction formats as [| format rest IH]; intros i st.
  - reflexivity.
  - rewrite !enum_formats_cons, !IH. reflexivity.
Qed.

Section Construction.

Context `{PixelFormatCodes}.

Lemma g_array_set_size_length {A} (zero : A) (arr : list A) :
  g_array_set_size zero arr (length arr) = arr.
Proof.
  unfold g_array_set_size. rewrite firstn_all, Nat.sub_diag. apply app_nil_r.
Qed.

Lemma entries_text_app (formats others : list v4l2_fmtdesc) :
  entries_text (formats ++ others) = entries_text formats +:+ entries_text others.
Proof.
  induction formats as [| format rest IH]; simpl.
  - reflexivity.
  - destruct (genicam_code (pixelformat format) =? 0); [exact IH |].
    now rewrite IH, string_app_assoc.
Qed.

Lemma enumeration_finish_table (k : v4l2_kernel) (formats : list v4l2_fmtdesc)
    (st : enum_state) :
  pixel_formats (es_priv st) = [] ->
  pixel_formats (c_priv (enumeration_finish (enum_formats k formats 0 st)))
  = map (fun format => genicam_code (pixelformat format)) formats.
Proof.
  intros Hempty.
  pose proof (enum_formats_counter k formats 0 st) as Hcount.
  pose proof (enum_formats_table k formats 0 st) as Htable.
  rewrite Hempty in Htable. specialize (Htable eq_refl).
  destruct (enum_formats k formats 0 st) as [i st']. simpl in *. subst i.
  rewrite Htable. rewrite <- (length_map (fun format => genicam_code (pixelformat format))).
  apply g_array_set_size_length.
Qed.

Lemma enumeration_finish_text (k : v4l2_kernel) (formats : list v4l2_fmtdesc)
    (st : enum_state) :
  c_format_feature (enumeration_finish (enum_formats k formats 0 st))
  = (es_format_feature st +:+ entries_text formats) +:+ format_feature_footer.
Proof.
  rewrite <- (enum_formats_text k formats 0 st).
  destruct (enum_formats k formats 0 st) as [i st']. reflexivity.
Qed.

(** C5: after a construction that reports no error the active format is
    the last format of the enumeration that has a generic code. *)
Theorem constructed_active_format_is_last_supported (k : v4l2_kernel) (res : resources)
    (priv : ArvV4l2DevicePrivate) (i : nat) (format : v4l2_fmtdesc) :
  c_init_error (arv_v4l2_device_constructed k res priv) = None ->
  k_formats k !! i = Some format ->
  genicam_code (pixelformat format) <> 0 ->
  (forall j format', (i < j)%nat -> k_formats k !! j = Some format' ->
                     genicam_code (pixelformat format') = 0) ->
  pixel_format_idx (c_priv (arv_v4l2_device_constructed k res priv)) = Z.of_nat i.
Proof.
  intros Hok Hformat Hcode Hlast.
  destruct (constructed_ok k res priv Hok) as (fd & cap & xml & ->).
  pose proof (enum_formats_index k (k_formats k) 0 (enumeration_start priv fd cap xml))
    as Hidx.
  destruct (enum_formats k (k_formats k) 0 (enumeration_start priv fd cap xml)) as [n st].
  simpl in Hidx |- *. rewrite Hidx.
  now rewrite (last_supported_spec (k_formats k) 0 _ i format Hformat Hcode Hlast).
Qed.

(** C8: a format whose code the translation table does not name is
    recorded as 0 at its index, adds nothing to the schema text, gets no
    frame size request, and the enumeration goes on to the next index:
    construction succeeds as it does without that format and every format
    is in the table. *)
Theorem unsupported_format_recorded_and_skipped (k : v4l2_kernel) (res : resources)
    (priv : ArvV4l2DevicePrivate) (pre : list v4l2_fmtdesc) (format : v4l2_fmtdesc)
    (post : list v4l2_fmtdesc) :
  k_formats k = pre ++ format :: post ->
  (forall entry, In entry pixel_format_map -> v4l2 entry <> pixelformat format) ->
  c_init_error (arv_v4l2_device_constructed (with_formats k (pre ++ post)) res priv) = None ->
  let r := arv_v4l2_device_constructed k res priv in
  c_init_error r = None /\
  pixel_formats (c_priv r) !! length pre = Some 0 /\
  pixel_formats (c_priv r)
  = map (fun format => genicam_code (pixelformat format)) (k_formats k) /\
  c_format_feature r
  = c_format_feature (arv_v4l2_device_constructed (with_formats k (pre ++ post)) res priv) /\
  (forall j, ~ In (VIDIOC_ENUM_FRAMESIZES (pixelformat format) j) (c_ioctls r)) /\
  In (VIDIOC_ENUM_FMT (Z.of_nat (length pre) + 1)) (c_ioctls r).
Proof.
  intros Hformats Habsent Hok' r.
  assert (genicam_code (pixelformat format) = 0) as Hzero
    by (apply lookup_genicam_absent, Habsent).
  assert (c_init_error r = None) as Hok
    by (unfold r; now rewrite <- (constructed_error_formats k res priv (pre ++ post))).
  assert (pixel_formats (c_priv r)
          = map (fun format => genicam_code (pixelformat format)) (k_formats k)) as Htable.
  { unfold r. destruct (constructed_ok k res priv Hok) as (fd & cap & xml & ->).
    now apply enumeration_finish_table. }
  split; [exact Hok |]. split; [| split; [exact Htable |]].
  { rewrite Htable, Hformats, map_app. rewrite lookup_app_r; rewrite length_map; [| lia].
    rewrite Nat.sub_diag. simpl. now rewrite Hzero. }
  destruct (constructed_ok _ res priv Hok') as (fd' & cap' & xml' & ->).
  unfold r. destruct (constructed_ok k res priv Hok) as (fd & cap & xml & ->).
  split; [| split].
  - rewrite enum_formats_with_formats. simpl (k_formats (with_formats _ _)).
    rewrite !enumeration_finish_text, Hformats, !entries_text_app. simpl.
    now rewrite Hzero.
  - intros j Hin.
    assert (In (VIDIOC_ENUM_FRAMESIZES (pixelformat format) j)
              (es_ioctls (enum_formats k (k_formats k) 0
                            (enumeration_start priv fd cap xml)).2)) as Hlog
      by (destruct (enum_formats _ _ _ _); exact Hin).
    apply enum_formats_ioctls in Hlog
      as [[] | [(n & _ & Hreq) | (f & n & _ & Hcode & _ & Hreq)]]; [discriminate |].
    injection Hreq as Hsame _. apply Hcode. now rewrite <- Hsame.
  - assert (In (VIDIOC_ENUM_FMT (Z.of_nat (length pre) + 1))
              (es_ioctls (enum_formats k (k_formats k) 0
                            (enumeration_start priv fd cap xml)).2)) as Hlog.
    { apply enum_formats_ioctls. right. left. exists (S (length pre)). split.
      - rewrite Hformats, length_app. simpl. lia.
      - f_equal. lia. }
    destruct (enum_formats _ _ _ _); exact Hlog.
Qed.

End Construction.

Lemma constructed_active_format_is_last_supported_witness :
  genicam_code (H := linux_codes) (pixelformat RGB3) <> 0 /\
  pixel_format_idx
    (c_priv (arv_v4l2_device_constructed (H := linux_codes) four_format_camera
               bundled_schema (arv_v4l2_device_init "/dev/video0")))
  = 2.
Proof.
  split; [vm_compute; discriminate |].
  apply (constructed_active_format_is_last_supported (H := linux_codes)
           four_format_camera bundled_schema (arv_v4l2_device_init "/dev/video0")
           2%nat YUYV).
  - reflexivity.
  - reflexivity.
  - vm_compute. discriminate.
  - intros j format' Hj. destruct j as [| [| [| [| j]]]]; try lia.
    + intros [= <-]. reflexivity.
    + discriminate.
Defined.

Lemma unsupported_format_recorded_and_skipped_witness :
  let r := arv_v4l2_device_constructed (H := linux_codes) four_format_camera
             bundled_schema (arv_v4l2_device_init "/dev/video0") in
  pixel_formats (c_priv r) = [0x02180014; 0; 0x0210001f; 0] /\
  In (VIDIOC_ENUM_FMT 2) (c_ioctls r).
Proof.
  destruct (unsupported_format_recorded_and_skipped (H := linux_codes)
              four_format_camera bundled_schema (arv_v4l2_device_init "/dev/video0")
              [RGB3] MJPG [YUYV; H264]) as (_ & _ & Htable & _ & _ & Hnext).
  - reflexivity.
  - intros entry Hin. simpl in Hin.
    destruct Hin as [<- | [<- | [<- | []]]]; vm_compute; discriminate.
  - reflexivity.
  - split; [rewrite Htable; reflexivity | exact Hnext].
Defined.

(** [%d] of a value below 2^31 and [%u] of a value below 2^32 print its
    decimal digits. *)
Lemma fmt_d_decimal (z : Z) :
  0 <= z < 2 ^ 31 -> fmt_d z = NilZero.string_of_int (Z.to_int z).
Proof.
  intros Hz. unfold fmt_d, to_gint32. rewrite Z.mod_small by lia.
  destruct (Z.ltb_spec z (2 ^ 31)); [reflexivity | lia].
Qed.

Lemma fmt_u_decimal (z : Z) :
  0 <= z < 2 ^ 32 -> fmt_u z = NilZero.string_of_int (Z.to_int z).
Proof. intros Hz. unfold fmt_u, to_guint32. now rewrite Z.mod_small. Qed.

(** C7: a kernel with exactly the formats RGB24, of generic code [A] and
    frame size 640x480, and YUYV, of generic code [B] and frame size
    320x240, gives a sensor of 640x480, the pixel format table [A; B] and
    an enumeration feature whose text is the opening of the PixelFormat
    enumeration, the entry of the first format with the decimal digits of
    [A] as its value, the entry of the second with those of [B], and the
    reference to the pixel format register. *)
Theorem two_formats_scenario `{PixelFormatCodes} (k : v4l2_kernel) (res : resources)
    (priv : ArvV4l2DevicePrivate) (rgb_name yuyv_name : string) (A B : Z) :
  k_formats k = [ {| description := rgb_name; pixelformat := V4L2_PIX_FMT_RGB24 |};
                  {| description := yuyv_name; pixelformat := V4L2_PIX_FMT_YUYV |} ] ->
  genicam_code V4L2_PIX_FMT_RGB24 = A -> 0 < A < 2 ^ 31 ->
  genicam_code V4L2_PIX_FMT_YUYV = B -> 0 < B < 2 ^ 31 ->
  k_frame_sizes k V4L2_PIX_FMT_RGB24 = [frmsize_discrete 640 480] ->
  k_frame_sizes k V4L2_PIX_FMT_YUYV = [frmsize_discrete 320 240] ->
  c_init_error (arv_v4l2_device_constructed k res priv) = None ->
  let r := arv_v4l2_device_constructed k res priv in
  let quote := String "034"%char EmptyString in
  let newline := String "010"%char EmptyString in
  let entry (name : string) (value : Z) :=
    "  <EnumEntry Name=" +:+ quote +:+ name +:+ quote +:+ ">" +:+ newline +:+
    "    <Value>" +:+ NilZero.string_of_int (Z.to_int value) +:+ "</Value>" +:+ newline +:+
    "  </EnumEntry>" +:+ newline in
  let text :=
    ("<Enumeration Name=" +:+ quote +:+ "PixelFormat" +:+ quote +:+ ">" +:+ newline +:+
     "  <DisplayName>Pixel format</DisplayName>" +:+ newline)
    +:+ entry rgb_name A +:+ entry yuyv_name B
    +:+ ("  <pValue>PixelFormatRegister</pValue>" +:+ newline +:+ "</Enumeration>") in
  sensor_width (c_priv r) = 640 /\
  sensor_height (c_priv r) = 480 /\
  pixel_formats (c_priv r) = [A; B] /\
  c_format_feature r = text /\
  In ("PixelFormat"%string, text) (genicam_nodes (c_priv r)).
Proof.
  intros Hformats HA HA0 HB HB0 Hrgb Hyuyv Hok r quote newline entry text.
  assert (A <> 0) as HAne by lia. assert (B <> 0) as HBne by lia.
  assert (c_format_feature r = text) as Htext.
  { unfold r. destruct (constructed_ok k res priv Hok) as (fd & cap & xml & ->).
    rewrite enumeration_finish_text, Hformats. simpl. rewrite HA, HB.
    rewrite (address_eqb_neq _ _ HAne), (address_eqb_neq _ _ HBne).
    rewrite string_app_nil, !string_app_assoc.
    unfold enum_entry. rewrite !fmt_d_decimal by lia. reflexivity. }
  assert (pixel_formats (c_priv r) = [A; B]) as Htable.
  { unfold r. destruct (constructed_ok k res priv Hok) as (fd & cap & xml & ->).
    rewrite enumeration_finish_table, Hformats by reflexivity. simpl. now rewrite HA, HB. }
  repeat split; try assumption.
  - unfold r. destruct (constructed_ok k res priv Hok) as (fd & cap & xml & ->).
    rewrite Hformats, !enum_formats_cons, enum_formats_nil. simpl pixelformat.
    rewrite HA, HB, (address_eqb_neq _ _ HAne), (address_eqb_neq _ _ HBne).
    unfold visit_format. simpl pixelformat. rewrite Hrgb, Hyuyv. reflexivity.
  - unfold r. destruct (constructed_ok k res priv Hok) as (fd & cap & xml & ->).
    rewrite Hformats, !enum_formats_cons, enum_formats_nil. simpl pixelformat.
    rewrite HA, HB, (address_eqb_neq _ _ HAne), (address_eqb_neq _ _ HBne).
    unfold visit_format. simpl pixelformat. rewrite Hrgb, Hyuyv. reflexivity.
  - rewrite <- Htext. unfold r.
    destruct (constructed_ok k res priv Hok) as (fd & cap & xml & ->).
    destruct (enum_formats _ _ _ _) as [i st]. simpl.
    rewrite !in_app_iff. simpl. auto.
Qed.

Lemma two_formats_scenario_witness :
  let r := arv_v4l2_device_constructed (H := linux_codes) two_format_camera
             bundled_schema (arv_v4l2_device_init "/dev/video0") in
  let quote := String "034"%char EmptyString in
  let newline := String "010"%char EmptyString in
  sensor_width (c_priv r) = 640 /\
  sensor_height (c_priv r) = 480 /\
  pixel_formats (c_priv r) = [0x02180014; 0x0210001f] /\
  c_format_feature r
  = "<Enumeration Name=" +:+ quote +:+ "PixelFormat" +:+ quote +:+ ">" +:+ newline +:+
    "  <DisplayName>Pixel format</DisplayName>" +:+ newline +:+
    "  <EnumEntry Name=" +:+ quote +:+ "RGB3" +:+ quote +:+ ">" +:+ newline +:+
    "    <Value>35127316</Value>" +:+ newline +:+
    "  </EnumEntry>" +:+ newline +:+
    "  <EnumEntry Name=" +:+ quote +:+ "YUYV" +:+ quote +:+ ">" +:+ newline +:+
    "    <Value>34603039</Value>" +:+ newline +:+
    "  </EnumEntry>" +:+ newline +:+
    "  <pValue>PixelFormatRegister</pValue>" +:+ newline +:+ "</Enumeration>" /\
  count_occurrences "<EnumEntry " (c_format_feature r) = 2%nat.
Proof.
  destruct (two_formats_scenario (H := linux_codes) two_format_camera bundled_schema
              (arv_v4l2_device_init "/dev/video0") "RGB3" "YUYV" 0x02180014 0x0210001f)
    as (Hw & Hh & Htable & Htext & _);
    [reflexivity | reflexivity | lia | reflexivity | lia | reflexivity | reflexivity
    | reflexivity |].
  split; [exact Hw |]. split; [exact Hh |]. split; [exact Htable |].
  split; [rewrite Htext; reflexivity | reflexivity].
Defined.

(** * Properties of the acquisition thread *)

Section Thread.

Variable it : iteration.

(** The dequeue phase never takes an entry out of the table. *)
Lemma dequeue_buffer_keeps_table (bufd : v4l2_buffer) (st : thread_state) :
  buffers (dequeue_buffer it bufd st) = buffers st.
Proof.
  unfold dequeue_buffer.
  destruct (buffers st !! _) as [arv_buffer |]; [| reflexivity].
  destruct (heap st !! arv_buffer); reflexivity.
Qed.

(** The submit phase only adds or replaces entries. *)
Lemma submit_buffers_keeps_slots (input : list positive) (bufd : v4l2_buffer)
    (st : thread_state) (slot : Z) :
  is_Some (buffers st !! slot) ->
  is_Some (buffers (submit_buffers it input bufd st).2 !! slot).
Proof.
  revert bufd st. induction input as [| arv_buffer rest IH]; intros bufd st Hslot; simpl.
  - exact Hslot.
  - destruct (heap st !! arv_buffer) as [b |]; [| now apply IH].
    destruct (it_qbuf it _) as [bufd' |]; apply IH; simpl; [| exact Hslot].
    destruct (decide (buf_index bufd' = slot)) as [-> | Hne].
    + rewrite lookup_insert_eq. eauto.
    + now rewrite lookup_insert_ne.
Qed.

(** A slot once entered stays in the table for the rest of the turn. *)
Lemma thread_iteration_keeps_slots (st : thread_state) (slot : Z) :
  is_Some (buffers st !! slot) ->
  is_Some (buffers (thread_iteration st it) !! slot).
Proof.
  intros Hslot. unfold thread_iteration.
  pose proof (submit_buffers_keeps_slots (it_input it) v4l2_buffer_zero st slot Hslot)
    as Hsubmit.
  destruct (submit_buffers it (it_input it) v4l2_buffer_zero st) as [bufd st'].
  now rewrite dequeue_buffer_keeps_table.
Qed.

(** The drain pushes every buffer that is in the table when the loop ends. *)
Lemma drain_buffers_output (st : thread_state) :
  output_queue (drain_buffers st) = output_queue st ++ (map_to_list (buffers st)).*2.
Proof.
  unfold drain_buffers. generalize (map_to_list (buffers st)) as entries.
  intros entries. revert st.
  induction entries as [| entry rest IH]; intros st; simpl.
  - now rewrite app_nil_r.
  - rewrite IH. simpl. now rewrite <- app_assoc.
Qed.

(** X28: the hardware time stamp is the kernel time with the seconds
    counted as picoseconds: it exceeds the nanosecond count by 999 * 10^9
    for every second. *)
Lemma hardware_timestamp_value (td : ArvV4l2StreamThreadData) (bufd : v4l2_buffer)
    (real_time : Z) (b : ArvBuffer) :
  0 <= buf_tv_sec bufd -> 0 <= buf_tv_usec bufd < 1000000 ->
  1000000000000 * buf_tv_sec bufd + 1000 * buf_tv_usec bufd < 2 ^ 64 ->
  timestamp_ns (stamp_buffer td bufd real_time b)
  = (buf_tv_sec bufd * 1000000000 + buf_tv_usec bufd * 1000)
    + 999000000000 * buf_tv_sec bufd.
Proof.
  intros Hsec Husec Hfit. simpl. unfold to_guint64. rewrite Z.mod_small; lia.
Qed.

(** C9: when the dequeue call fails, the index stays 0; a buffer entered
    for slot 0 is then stamped as a successful frame with the next frame
    id, counted as completed, pushed to the output queue and announced to
    the callback. *)
Theorem failed_dequeue_delivers_slot_zero (bufd : v4l2_buffer) (st : thread_state)
    (arv_buffer : positive) (b : ArvBuffer) :
  it_dqbuf it (set_buf_index bufd 0) = None ->
  buffers st !! 0 = Some arv_buffer ->
  heap st !! arv_buffer = Some b ->
  let st' := dequeue_buffer it bufd st in
  heap st' !! arv_buffer
  = Some (stamp_buffer (thread_data st) (set_buf_index bufd 0) (it_real_time it) b) /\
  status (stamp_buffer (thread_data st) (set_buf_index bufd 0) (it_real_time it) b)
  = ARV_BUFFER_STATUS_SUCCESS /\
  frame_id (stamp_buffer (thread_data st) (set_buf_index bufd 0) (it_real_time it) b)
  = td_frame_id (thread_data st) /\
  output_queue st' = output_queue st ++ [arv_buffer] /\
  n_completed_buffers (thread_data st')
  = to_guint32 (n_completed_buffers (thread_data st) + 1) /\
  td_frame_id (thread_data st') = to_guint32 (td_frame_id (thread_data st) + 1) /\
  callbacks st'
  = (if has_callback (thread_data st)
     then callbacks st ++ [ARV_STREAM_CALLBACK_TYPE_BUFFER_DONE arv_buffer]
     else callbacks st).
Proof.
  intros Hfail Hslot Hobject. unfold dequeue_buffer. rewrite Hfail.
  change (buf_index (set_buf_index bufd 0)) with 0. rewrite Hslot, Hobject. simpl.
  rewrite lookup_insert_eq. repeat split.
Qed.

End Thread.

Lemma failed_dequeue_delivers_slot_zero_witness :
  let st := foldl thread_iteration
              {| thread_data := stream_data; buffers := ∅;
                 heap := {[ 7%positive := fresh_buffer 0 ]};
                 output_queue := []; callbacks := [] |}
              [frame_completes [7%positive]] in
  output_queue st = [7%positive] /\
  output_queue (dequeue_buffer (dequeue_fails []) v4l2_buffer_zero st)
  = [7%positive; 7%positive].
Proof.
  split; [reflexivity |].
  destruct (failed_dequeue_delivers_slot_zero (dequeue_fails []) v4l2_buffer_zero
              (foldl thread_iteration
                 {| thread_data := stream_data; buffers := ∅;
                    heap := {[ 7%positive := fresh_buffer 0 ]};
                    output_queue := []; callbacks := [] |}
                 [frame_completes [7%positive]])
              7%positive
              (stamp_buffer stream_data
                 {| buf_index := 0; buf_tv_sec := 1; buf_tv_usec := 500000;
                    buf_length := 921600 |} 1700000000000000 (fresh_buffer 0)))
    as (_ & _ & _ & Hqueue & _); [reflexivity | reflexivity | reflexivity |].
  rewrite Hqueue. reflexivity.
Defined.

(** C3 (the code departs from it): the buffer of slot 0 is submitted,
    its frame is dequeued and delivered, and then the thread is cancelled.
    The entry of slot 0 is still in the table, and the drain pushes the
    buffer to the output queue a second time. *)
Theorem dequeued_buffer_pushed_again_at_shutdown :
  let st := arv_v4l2_stream_thread stream_data {[ 7%positive := fresh_buffer 0 ]}
              [frame_completes [7%positive]] in
  buffers st !! 0 = Some 7%positive /\
  output_queue st = [7%positive; 7%positive] /\
  callbacks st = [ ARV_STREAM_CALLBACK_TYPE_INIT;
                   ARV_STREAM_CALLBACK_TYPE_BUFFER_DONE 7%positive;
                   ARV_STREAM_CALLBACK_TYPE_EXIT ].
Proof. vm_compute. auto. Qed.

(** C4 (the code departs from it): a frame completed at the kernel time
    1 s 500000 us is stamped 1000500000000, not the 1500000000 ns the
    conversion gives; the system time stamp is the real time in ns. *)
Theorem hardware_timestamp_of_one_and_a_half_seconds :
  let st := arv_v4l2_stream_thread stream_data {[ 7%positive := fresh_buffer 0 ]}
              [frame_completes [7%positive]] in
  timestamp_ns <$> heap st !! 7%positive = Some 1000500000000 /\
  timestamp_ns <$> heap st !! 7%positive <> Some (1 * 1000000000 + 500000 * 1000) /\
  system_timestamp_ns <$> heap st !! 7%positive = Some (1700000000000000 * 1000).
Proof. vm_compute. repeat split; discriminate. Qed.

(** * Further properties of the register map *)

Lemma Z_of_byte_of_Z (z : Z) : Z_of_byte (byte_of_Z z) = z mod 256.
Proof.
  unfold Z_of_byte, byte_of_Z.
  assert (Z.to_N (z mod 256) < 256)%N as Hsmall
    by (pose proof (Z.mod_pos_bound z 256); lia).
  pose proof (byte_of_ascii_via_N (ascii_of_N (Z.to_N (z mod 256)))) as Hvia.
  rewrite (N_ascii_embedding _ Hsmall) in Hvia. symmetry in Hvia.
  apply Byte.to_of_N in Hvia. rewrite Hvia.
  pose proof (Z.mod_pos_bound z 256). lia.
Qed.

Lemma to_gint32_to_guint32 (z : Z) : to_gint32 (to_guint32 z) = to_gint32 z.
Proof. unfold to_gint32, to_guint32. now rewrite Z.mod_mod. Qed.

Lemma to_guint32_to_gint32 (z : Z) : to_guint32 (to_gint32 z) = to_guint32 z.
Proof.
  unfold to_gint32, to_guint32. pose proof (Z.mod_pos_bound z (2 ^ 32)).
  destruct (z mod 2 ^ 32 <? 2 ^ 31); [now rewrite Z.mod_mod |].
  rewrite <- (Z.mod_add _ 1) by lia.
  replace (z mod 2 ^ 32 - 2 ^ 32 + 1 * 2 ^ 32) with (z mod 2 ^ 32) by lia.
  now rewrite Z.mod_mod.
Qed.

Lemma to_gint32_is_zero (z : Z) : (to_gint32 z =? 0) = (to_guint32 z =? 0).
Proof.
  unfold to_gint32, to_guint32. pose proof (Z.mod_pos_bound z (2 ^ 32)).
  destruct (Z.ltb_spec (z mod 2 ^ 32) (2 ^ 31)); [reflexivity |].
  destruct (Z.eqb_spec (z mod 2 ^ 32 - 2 ^ 32) 0);
    destruct (Z.eqb_spec (z mod 2 ^ 32) 0); try reflexivity; lia.
Qed.

Lemma to_guint32_small (z : Z) : 0 <= z < 2 ^ 32 -> to_guint32 z = z.
Proof. intros Hz. unfold to_guint32. now apply Z.mod_small. Qed.

(** Four bytes stored from a register value read back as that value. *)
Lemma gint32_round_trip (value : Z) (rest : list byte) :
  gint32_of_bytes (bytes_of_gint32 value ++ rest) = to_gint32 value.
Proof.
  unfold gint32_of_bytes, bytes_of_gint32. cbn [app nth].
  rewrite !Z_of_byte_of_Z, <- (to_gint32_to_guint32 value). f_equal.
  set (u := to_guint32 value).
  assert (0 <= u < 2 ^ 32) as Hu by (apply Z.mod_pos_bound; lia).
  rewrite !Z.shiftr_div_pow2, !Z.shiftl_mul_pow2 by lia.
  change (2 ^ 8) with 256. change (2 ^ 16) with 65536. change (2 ^ 24) with 16777216.
  change (2 ^ 32) with 4294967296 in Hu.
  Z.to_euclidean_division_equations. lia.
Qed.

Lemma register_value_round_trip (value stored : Z) :
  guint32_of_bytes (store_bytes (bytes_of_gint32 value) (bytes_of_gint32 stored))
  = to_guint32 stored.
Proof.
  unfold guint32_of_bytes, store_bytes. rewrite gint32_round_trip.
  apply to_guint32_to_gint32.
Qed.

Lemma write_register_value (value : Z) :
  gint32_of_bytes (bytes_of_gint32 value) = to_gint32 value.
Proof. rewrite <- (app_nil_r (bytes_of_gint32 value)). apply gint32_round_trip. Qed.

(** The search loop leaves the index alone or moves it to a position it
    visited. *)
Lemma write_pixel_format_loop_range (formats : list Z) (value i idx : Z) :
  let idx' := (write_pixel_format_loop formats value i idx).2 in
  idx' = idx \/ i <= idx' < i + Z.of_nat (length formats).
Proof.
  revert i idx. induction formats as [| format rest IH]; intros i idx; simpl.
  - now left.
  - destruct (IH (i + 1) (if format =? to_guint32 value then i else idx)) as [-> | Hin].
    + destruct (format =? to_guint32 value); [right; lia | now left].
    + right. lia.
Qed.

(** With a match at position [n] and none after it, the loop ends on [n]. *)
Lemma write_pixel_format_loop_last (formats : list Z) (value i idx : Z) (n : nat) :
  formats !! n = Some (to_guint32 value) ->
  (forall j, (n < j)%nat -> formats !! j <> Some (to_guint32 value)) ->
  (write_pixel_format_loop formats value i idx).2 = i + Z.of_nat n.
Proof.
  revert i idx n. induction formats as [| format rest IH]; intros i idx n Hn Hlast.
  - discriminate.
  - destruct n as [| n]; simpl in Hn |- *.
    + injection Hn as ->. rewrite Z.eqb_refl.
      rewrite write_pixel_format_loop_no_match; [lia |].
      intros f Hf Heq. apply list_elem_of_In, list_elem_of_lookup in Hf as [j Hj].
      apply (Hlast (S j)); [lia |]. simpl. now rewrite Hj, Heq.
    + rewrite (IH (i + 1) _ n Hn); [lia |].
      intros j Hj. apply (Hlast (S j)). lia.
Qed.

(** What a 4-byte write to the pixel format register comes to. *)
Lemma write_pixel_format_result (priv : ArvV4l2DevicePrivate) (buffer : list byte) :
  Z.of_nat (length (pixel_formats priv)) < 2 ^ 32 ->
  arv_v4l2_device_write_memory priv ARV_V4L2_ADDRESS_PIXEL_FORMAT 4 buffer
  = {| write_ok := false;
       write_error := Some ARV_DEVICE_ERROR_PROTOCOL_ERROR_INVALID_ADDRESS;
       write_priv :=
         set_pixel_format_idx priv
           (write_pixel_format_loop (pixel_formats priv) (gint32_of_bytes buffer) 0
              (pixel_format_idx priv)).2;
       write_buffer := buffer; write_control_stream := None |}.
Proof.
  intros Hlen. unfold arv_v4l2_device_write_memory. simpl (4 =? 4). cbv iota.
  change (ARV_V4L2_ADDRESS_PIXEL_FORMAT =? ARV_V4L2_ADDRESS_ACQUISITION_COMMAND) with false.
  change (ARV_V4L2_ADDRESS_PIXEL_FORMAT =? ARV_V4L2_ADDRESS_PIXEL_FORMAT) with true.
  cbv iota.
  pose proof (write_pixel_format_loop_counter (pixel_formats priv)
                (gint32_of_bytes buffer) 0 (pixel_format_idx priv)) as Hcount.
  destruct (write_pixel_format_loop _ _ _ _) as [i idx]. simpl in Hcount. subst i.
  simpl (pixel_formats _).
  assert ((to_guint32 (0 + Z.of_nat (length (pixel_formats priv)))
           =? Z.of_nat (length (pixel_formats priv))) = true) as ->.
  { apply Z.eqb_eq. apply to_guint32_small. lia. }
  reflexivity.
Qed.

(** The image format from the active entries of the two tables. *)
Lemma get_image_infos_request (k : v4l2_kernel) (device : ArvV4l2DevicePrivate)
    (frame_size : v4l2_frmsizeenum) (code : Z) :
  0 <= pixel_format_idx device ->
  frame_sizes device !! Z.to_nat (pixel_format_idx device) = Some frame_size ->
  pixel_formats device !! Z.to_nat (pixel_format_idx device) = Some code ->
  arv_v4l2_device_get_image_infos k device
  = match k_s_fmt k {| pix_width := frmsize_width (frm_size frame_size);
                       pix_height := frmsize_height (frm_size frame_size);
                       pix_pixelformat := code; pix_sizeimage := 0 |} with
    | None => None
    | Some set =>
      match k_g_fmt k set with
      | None => None
      | Some got =>
        Some {| payload_size := pix_sizeimage got; pixel_format := code;
                width := pix_width got; height := pix_height got |}
      end
    end.
Proof.
  intros Hidx Hfs Hcode. unfold arv_v4l2_device_get_image_infos.
  unfold frame_sizes_index, pixel_formats_index.
  rewrite (nth_lookup_Some _ _ frmsizeenum_zero _ Hfs), (nth_lookup_Some _ _ 0 _ Hcode).
  reflexivity.
Qed.

Section Registers.

Variable k : v4l2_kernel.
Variable priv : ArvV4l2DevicePrivate.

(** X1: a register write is accepted for the acquisition command
    register and for no other address; it then asks for the stream to be
    started exactly when the value is not zero, and changes nothing in
    the device. *)
Theorem write_register_accepts_acquisition_command_only (address value : Z) :
  Z.of_nat (length (pixel_formats priv)) < 2 ^ 32 ->
  let w := arv_v4l2_device_write_register priv address value in
  (write_ok w = true <-> address = ARV_V4L2_ADDRESS_ACQUISITION_COMMAND) /\
  (write_ok w = false ->
   write_error w = Some ARV_DEVICE_ERROR_PROTOCOL_ERROR_INVALID_ADDRESS /\
   write_control_stream w = None) /\
  (write_ok w = true ->
   write_error w = None /\ write_priv w = priv /\
   write_control_stream w = Some (negb (to_guint32 value =? 0))).
Proof.
  intros Hlen. unfold arv_v4l2_device_write_register.
  destruct (Z.eqb_spec address ARV_V4L2_ADDRESS_ACQUISITION_COMMAND) as [-> | Hacq].
  - unfold arv_v4l2_device_write_memory. simpl (4 =? 4). cbv iota.
    rewrite Z.eqb_refl. simpl. rewrite write_register_value.
    repeat split; try discriminate. do 2 f_equal. apply to_gint32_is_zero.
  - destruct (Z.eqb_spec address ARV_V4L2_ADDRESS_PIXEL_FORMAT) as [-> | Hpix].
    + rewrite (write_pixel_format_result priv (bytes_of_gint32 value) Hlen). simpl.
      repeat split; try discriminate.
    + unfold arv_v4l2_device_write_memory. simpl (4 =? 4). cbv iota.
      rewrite (address_eqb_neq _ _ Hacq), (address_eqb_neq _ _ Hpix). simpl.
      repeat split; try discriminate; intros; try congruence.
Qed.

(** X2: whatever is written, the tables and the sensor size stay as they
    are, and an active index that designates an entry still does so
    afterwards. *)
Theorem write_memory_keeps_device_invariant (address size : Z) (buffer : list byte) :
  let w := arv_v4l2_device_write_memory priv address size buffer in
  pixel_formats (write_priv w) = pixel_formats priv /\
  frame_sizes (write_priv w) = frame_sizes priv /\
  sensor_width (write_priv w) = sensor_width priv /\
  sensor_height (write_priv w) = sensor_height priv /\
  (device_invariant priv -> device_invariant (write_priv w)).
Proof.
  unfold arv_v4l2_device_write_memory.
  destruct (size =? 4); [| simpl; tauto].
  destruct (address =? ARV_V4L2_ADDRESS_ACQUISITION_COMMAND); [simpl; tauto |].
  destruct (address =? ARV_V4L2_ADDRESS_PIXEL_FORMAT); [| simpl; tauto].
  pose proof (write_pixel_format_loop_range (pixel_formats priv) (gint32_of_bytes buffer)
                0 (pixel_format_idx priv)) as Hrange.
  destruct (write_pixel_format_loop _ _ _ _) as [i idx]. simpl in Hrange.
  assert (device_invariant priv -> device_invariant (set_pixel_format_idx priv idx)) as Hinv.
  { unfold device_invariant. simpl. intros (Hsame & Hfit & Hidx).
    repeat split; try assumption; lia. }
  destruct (negb _); simpl; tauto.
Qed.

(** X3: a register write to the pixel format register moves the active
    index to the last entry of the table that holds the value. *)
Theorem write_pixel_format_selects_last_match (value : Z) (n : nat) :
  Z.of_nat (length (pixel_formats priv)) < 2 ^ 32 ->
  pixel_formats priv !! n = Some (to_guint32 value) ->
  (forall j, (n < j)%nat -> pixel_formats priv !! j <> Some (to_guint32 value)) ->
  pixel_format_idx
    (write_priv (arv_v4l2_device_write_register priv ARV_V4L2_ADDRESS_PIXEL_FORMAT value))
  = Z.of_nat n.
Proof.
  intros Hlen Hn Hlast. unfold arv_v4l2_device_write_register.
  rewrite (write_pixel_format_result priv _ Hlen). simpl.
  rewrite write_register_value.
  rewrite (write_pixel_format_loop_last (pixel_formats priv) (to_gint32 value) 0 _ n);
    rewrite ?to_guint32_to_gint32; auto.
Qed.

Lemma invariant_guard :
  device_invariant priv ->
  (to_guint32 (pixel_format_idx priv) <? Z.of_nat (length (frame_sizes priv)))
  && (to_guint32 (pixel_format_idx priv) <? Z.of_nat (length (pixel_formats priv))) = true.
Proof.
  intros (Hsame & Hfit & Hidx). rewrite Hsame, to_guint32_small by lia.
  rewrite andb_diag. apply Z.ltb_lt. lia.
Qed.

Lemma invariant_entries :
  device_invariant priv ->
  exists frame_size code,
    frame_sizes priv !! Z.to_nat (pixel_format_idx priv) = Some frame_size /\
    pixel_formats priv !! Z.to_nat (pixel_format_idx priv) = Some code /\
    frame_sizes_index priv (pixel_format_idx priv) = frame_size /\
    pixel_formats_index priv (pixel_format_idx priv) = code.
Proof.
  intros (Hsame & Hfit & Hidx).
  destruct (lookup_lt_is_Some_2 (frame_sizes priv) (Z.to_nat (pixel_format_idx priv)))
    as [frame_size Hfs]; [lia |].
  destruct (lookup_lt_is_Some_2 (pixel_formats priv) (Z.to_nat (pixel_format_idx priv)))
    as [code Hcode]; [lia |].
  exists frame_size, code. repeat split; try assumption.
  - unfold frame_sizes_index. now apply nth_lookup_Some with (d := frmsizeenum_zero) in Hfs.
  - unfold pixel_formats_index. now apply nth_lookup_Some with (d := 0) in Hcode.
Qed.

(** X4: when the active index designates an entry, a register read of
    the width, height and pixel format registers succeeds and returns the
    width and height of the frame size entry (the maximum for a stepwise
    one) and the generic code of the pixel format entry. *)
Theorem read_register_of_active_format (value local : Z) :
  device_invariant priv ->
  exists frame_size code,
    frame_sizes priv !! Z.to_nat (pixel_format_idx priv) = Some frame_size /\
    pixel_formats priv !! Z.to_nat (pixel_format_idx priv) = Some code /\
    arv_v4l2_device_read_register k priv ARV_V4L2_ADDRESS_WIDTH value local
    = {| reg_ok := true; reg_error := None;
         reg_value := to_guint32 (frame_size_width frame_size) |} /\
    arv_v4l2_device_read_register k priv ARV_V4L2_ADDRESS_HEIGHT value local
    = {| reg_ok := true; reg_error := None;
         reg_value := to_guint32 (frame_size_height frame_size) |} /\
    arv_v4l2_device_read_register k priv ARV_V4L2_ADDRESS_PIXEL_FORMAT value local
    = {| reg_ok := true; reg_error := None; reg_value := to_guint32 code |}.
Proof.
  intros Hinv. destruct (invariant_entries Hinv) as (frame_size & code & Hfs & Hcode & Hf & Hc).
  exists frame_size, code. split; [exact Hfs |]. split; [exact Hcode |].
  unfold arv_v4l2_device_read_register, arv_v4l2_device_read_memory, read_numeric.
  rewrite (invariant_guard Hinv), Hf, Hc. simpl.
  now rewrite !register_value_round_trip, !to_guint32_to_gint32.
Qed.

(** X5: when the active index designates the frame size [frame_size]
    and the generic code [code], a register read of the payload size
    register asks the kernel for the width and height of [frame_size] (the
    maximum of a stepwise range) with [code] as pixel format.  When the
    kernel accepts and reports a format, the read returns the image size
    of the reported format; when the kernel refuses to set or to report
    the format, the read still reports success and returns what the local
    variable held. *)
Theorem read_payload_size_register (value local : Z) (frame_size : v4l2_frmsizeenum)
    (code : Z) :
  device_invariant priv ->
  frame_sizes priv !! Z.to_nat (pixel_format_idx priv) = Some frame_size ->
  pixel_formats priv !! Z.to_nat (pixel_format_idx priv) = Some code ->
  let request := {| pix_width := frmsize_width (frm_size frame_size);
                    pix_height := frmsize_height (frm_size frame_size);
                    pix_pixelformat := code; pix_sizeimage := 0 |} in
  let read := arv_v4l2_device_read_register k priv ARV_V4L2_ADDRESS_PAYLOAD_SIZE
                value local in
  (forall set got,
     k_s_fmt k request = Some set -> k_g_fmt k set = Some got ->
     read = {| reg_ok := true; reg_error := None;
               reg_value := to_guint32 (pix_sizeimage got) |}) /\
  (k_s_fmt k request = None \/
   (exists set, k_s_fmt k request = Some set /\ k_g_fmt k set = None) ->
   read = {| reg_ok := true; reg_error := None; reg_value := to_guint32 local |}).
Proof.
  intros Hinv Hfs Hcode request read.
  assert (0 <= pixel_format_idx priv) as Hidx by (destruct Hinv as (_ & _ & ?); lia).
  unfold read, arv_v4l2_device_read_register, arv_v4l2_device_read_memory, read_numeric.
  rewrite (invariant_guard Hinv). simpl.
  rewrite (get_image_infos_request k priv frame_size code Hidx Hfs Hcode). fold request.
  split.
  - intros set got -> ->. simpl.
    now rewrite register_value_round_trip, to_guint32_to_gint32.
  - intros [-> | (set & -> & ->)]; simpl; now rewrite register_value_round_trip.
Qed.

(** X6: when the active index is past the end of a table, as on a device
    without formats, every 4-byte read outside the string registers fails
    with the invalid address error and leaves the buffer alone. *)
Theorem read_numeric_without_entry_fails (address : Z) (buf : list byte) (local : Z) :
  Z.of_nat (length (frame_sizes priv)) <= to_guint32 (pixel_format_idx priv) \/
  Z.of_nat (length (pixel_formats priv)) <= to_guint32 (pixel_format_idx priv) ->
  ~ In address identity_addresses ->
  arv_v4l2_device_read_memory k priv address 4 (Some buf) local
  = {| read_ok := false;
       read_error := Some ARV_DEVICE_ERROR_PROTOCOL_ERROR_INVALID_ADDRESS;
       read_buffer := Some buf |}.
Proof.
  intros Hout Hid. unfold arv_v4l2_device_read_memory. simpl (4 <? 1).
  rewrite (identity_string_None priv _ Hid). simpl (4 =? 4). cbv iota.
  unfold read_numeric.
  assert ((to_guint32 (pixel_format_idx priv) <? Z.of_nat (length (frame_sizes priv)))
          && (to_guint32 (pixel_format_idx priv) <? Z.of_nat (length (pixel_formats priv)))
          = false) as ->; [| reflexivity].
  apply andb_false_iff. destruct Hout; [left | right]; apply Z.ltb_ge; lia.
Qed.

End Registers.

Lemma write_register_accepts_acquisition_command_only_witness :
  write_ok (arv_v4l2_device_write_register two_format_device
              ARV_V4L2_ADDRESS_ACQUISITION_COMMAND 1) = true /\
  write_control_stream (arv_v4l2_device_write_register two_format_device
                          ARV_V4L2_ADDRESS_ACQUISITION_COMMAND 1) = Some true /\
  write_error (arv_v4l2_device_write_register two_format_device
                 ARV_V4L2_ADDRESS_WIDTH 320)
  = Some ARV_DEVICE_ERROR_PROTOCOL_ERROR_INVALID_ADDRESS.
Proof.
  destruct (write_register_accepts_acquisition_command_only two_format_device
              ARV_V4L2_ADDRESS_ACQUISITION_COMMAND 1) as (Hiff & _ & Hstart);
    [simpl; lia |].
  destruct (write_register_accepts_acquisition_command_only two_format_device
              ARV_V4L2_ADDRESS_WIDTH 320) as (_ & Hfail & _); [simpl; lia |].
  split; [apply Hiff; reflexivity |].
  split; [apply Hstart, Hiff; reflexivity |].
  apply Hfail. reflexivity.
Defined.

Lemma two_format_device_invariant : device_invariant two_format_device.
Proof. unfold device_invariant. simpl. lia. Qed.

Lemma write_memory_keeps_device_invariant_witness :
  device_invariant
    (write_priv (arv_v4l2_device_write_memory two_format_device
                   ARV_V4L2_ADDRESS_PIXEL_FORMAT 4 (bytes_of_gint32 0x0210001f))).
Proof.
  apply (write_memory_keeps_device_invariant two_format_device
           ARV_V4L2_ADDRESS_PIXEL_FORMAT 4 (bytes_of_gint32 0x0210001f)).
  unfold device_invariant. simpl. lia.
Defined.

Lemma write_pixel_format_selects_last_match_witness :
  pixel_format_idx
    (write_priv (arv_v4l2_device_write_register
                   (set_pixel_formats two_format_device [0x0210001f; 0x02180014; 0x0210001f])
                   ARV_V4L2_ADDRESS_PIXEL_FORMAT 0x0210001f))
  = 2.
Proof.
  apply (write_pixel_format_selects_last_match
           (set_pixel_formats two_format_device [0x0210001f; 0x02180014; 0x0210001f])
           0x0210001f 2%nat).
  - simpl. lia.
  - reflexivity.
  - intros j Hj. destruct j as [| [| [| j]]]; try lia. discriminate.
Defined.

Lemma read_register_of_active_format_witness :
  arv_v4l2_device_read_register (obliging_kernel [] (fun _ => [])) two_format_device
    ARV_V4L2_ADDRESS_WIDTH 0 0
  = {| reg_ok := true; reg_error := None; reg_value := 640 |}.
Proof.
  destruct (read_register_of_active_format (obliging_kernel [] (fun _ => []))
              two_format_device 0 0)
    as (frame_size & code & Hfs & _ & Hwidth & _).
  - unfold device_invariant. simpl. lia.
  - rewrite Hwidth. injection Hfs as <-. reflexivity.
Defined.

Lemma read_payload_size_register_witness :
  arv_v4l2_device_read_register sizing_kernel two_format_device
    ARV_V4L2_ADDRESS_PAYLOAD_SIZE 0 123456
  = {| reg_ok := true; reg_error := None; reg_value := 614400 |} /\
  arv_v4l2_device_read_register refusing_kernel two_format_device
    ARV_V4L2_ADDRESS_PAYLOAD_SIZE 0 123456
  = {| reg_ok := true; reg_error := None; reg_value := 123456 |}.
Proof.
  split.
  - destruct (read_payload_size_register sizing_kernel two_format_device 0 123456
                {| frm_index := 0; frm_pixel_format := 0x33424752;
                   frm_size := frmsize_discrete 640 480 |} 0x02180014)
      as (Hsize & _);
      [unfold device_invariant; simpl; lia | reflexivity | reflexivity |].
    rewrite (Hsize _ _ eq_refl eq_refl). reflexivity.
  - destruct (read_payload_size_register refusing_kernel two_format_device 0 123456
                {| frm_index := 0; frm_pixel_format := 0x33424752;
                   frm_size := frmsize_discrete 640 480 |} 0x02180014)
      as (_ & Hrefused);
      [unfold device_invariant; simpl; lia | reflexivity | reflexivity |].
    rewrite Hrefused; [reflexivity | left; reflexivity].
Defined.

Lemma read_numeric_without_entry_fails_witness :
  arv_v4l2_device_read_memory (obliging_kernel [] (fun _ => []))
    (arv_v4l2_device_init "/dev/video0") ARV_V4L2_ADDRESS_WIDTH 4
    (Some [x01; x02; x03; x04]) 0
  = {| read_ok := false;
       read_error := Some ARV_DEVICE_ERROR_PROTOCOL_ERROR_INVALID_ADDRESS;
       read_buffer := Some [x01; x02; x03; x04] |}.
Proof.
  apply (read_numeric_without_entry_fails (obliging_kernel [] (fun _ => []))
           (arv_v4l2_device_init "/dev/video0")).
  - left. vm_compute. discriminate.
  - simpl. intuition discriminate.
Defined.

(** * Further properties of the construction *)

Lemma same_identity_refl (p : ArvV4l2DevicePrivate) : same_identity p p.
Proof. unfold same_identity. tauto. Qed.

Lemma same_identity_trans (p q r : ArvV4l2DevicePrivate) :
  same_identity p q -> same_identity q r -> same_identity p r.
Proof. unfold same_identity. intuition congruence. Qed.

Lemma foldl_max_le (l : list Z) (a : Z) :
  a <= foldl Z.max a l /\ forall x, In x l -> x <= foldl Z.max a l.
Proof.
  revert a. induction l as [| y l IH]; intros a; simpl.
  - split; [lia | tauto].
  - destruct (IH (Z.max a y)) as [Ha Hl]. split; [lia |].
    intros x [<- | Hx]; [lia | auto].
Qed.

Lemma foldl_max_attained (l : list Z) (a : Z) :
  foldl Z.max a l = a \/ In (foldl Z.max a l) l.
Proof.
  revert a. induction l as [| y l IH]; intros a; simpl.
  - now left.
  - destruct (IH (Z.max a y)) as [-> | Hin]; [| auto].
    destruct (Z.max_spec a y) as [[_ ->] | [_ ->]]; auto.
Qed.

Lemma nth_g_array_insert_val {A} (zero : A) (arr : list A) (i : nat) (v : A) :
  (length arr <= i)%nat ->
  length (g_array_insert_val zero arr i v) = S i /\
  nth i (g_array_insert_val zero arr i v) zero = v /\
  forall n, (n < i)%nat -> nth n (g_array_insert_val zero arr i v) zero = nth n arr zero.
Proof.
  intros Hlen.
  assert (g_array_insert_val zero arr i v = (arr ++ replicate (i - length arr) zero) ++ [v])
    as ->.
  { unfold g_array_insert_val. destruct (Nat.leb_spec i (length arr)).
    - assert (i = length arr) as -> by lia.
      now rewrite firstn_all, drop_all, Nat.sub_diag, app_nil_r.
    - now rewrite app_assoc. }
  assert (length (arr ++ replicate (i - length arr) zero) = i) as Hpad
    by (rewrite length_app, length_replicate; lia).
  split; [rewrite length_app; simpl; lia |]. split.
  - rewrite app_nth2 by lia. rewrite Hpad, Nat.sub_diag. reflexivity.
  - intros n Hn. rewrite app_nth1 by lia.
    destruct (Nat.lt_ge_cases n (length arr)).
    + now rewrite app_nth1.
    + rewrite app_nth2, (nth_overflow arr) by lia.
      destruct (nth_in_or_default (n - length arr) (replicate (i - length arr) zero) zero)
        as [Hin | ->]; [| reflexivity].
      apply list_elem_of_In, elem_of_replicate in Hin. tauto.
Qed.

Lemma nth_g_array_set_size {A} (zero : A) (arr : list A) (n : nat) :
  length (g_array_set_size zero arr n) = n /\
  forall m, (m < n)%nat -> nth m (g_array_set_size zero arr n) zero = nth m arr zero.
Proof.
  unfold g_array_set_size. split.
  - rewrite length_app, length_take, length_replicate. lia.
  - intros m Hm. destruct (Nat.lt_ge_cases m (length arr)).
    + rewrite app_nth1 by (rewrite length_take; lia).
      rewrite <- (firstn_skipn n arr) at 2. rewrite app_nth1 by (rewrite length_take; lia).
      reflexivity.
    + rewrite (nth_overflow arr) by lia.
      rewrite take_ge by lia. rewrite app_nth2 by lia.
      destruct (nth_in_or_default (m - length arr) (replicate (n - length arr) zero) zero)
        as [Hin | ->]; [| reflexivity].
      apply list_elem_of_In, elem_of_replicate in Hin. tauto.
Qed.

Section FrameSizeTable.

Variables (code : Z) (i : nat).

Lemma enum_frame_sizes_identity (sizes : list v4l2_frmsize) (j : Z) (st : enum_state) :
  same_identity (es_priv (enum_frame_sizes code i sizes j st)) (es_priv st).
Proof.
  revert j st. induction sizes as [| size rest IH]; intros j st.
  - apply same_identity_refl.
  - cbn [enum_frame_sizes]. eapply same_identity_trans; [apply IH |].
    destruct (j =? 0); unfold same_identity; simpl; tauto.
Qed.

Lemma enum_frame_sizes_sensor (sizes : list v4l2_frmsize) (j : Z) (st : enum_state) :
  sensor_width (es_priv (enum_frame_sizes code i sizes j st))
  = foldl Z.max (sensor_width (es_priv st)) (map frmsize_width sizes) /\
  sensor_height (es_priv (enum_frame_sizes code i sizes j st))
  = foldl Z.max (sensor_height (es_priv st)) (map frmsize_height sizes).
Proof.
  revert j st. induction sizes as [| size rest IH]; intros j st.
  - simpl. auto.
  - cbn [enum_frame_sizes map foldl].
    match goal with
    | |- context [enum_frame_sizes code i rest (j + 1) ?st1] =>
      destruct (IH (j + 1) st1) as [-> ->]
    end.
    destruct (j =? 0); simpl; auto.
Qed.

(** Only the first answer of the kernel is kept, at the index of the format. *)
Lemma enum_frame_sizes_later (sizes : list v4l2_frmsize) (j : Z) (st : enum_state) :
  j <> 0 -> 0 <= j ->
  frame_sizes (es_priv (enum_frame_sizes code i sizes j st)) = frame_sizes (es_priv st).
Proof.
  revert j st. induction sizes as [| size rest IH]; intros j st Hj Hpos.
  - reflexivity.
  - cbn [enum_frame_sizes]. rewrite IH by lia.
    now rewrite (address_eqb_neq _ _ Hj).
Qed.

Lemma enum_frame_sizes_first (sizes : list v4l2_frmsize) (st : enum_state) :
  frame_sizes (es_priv (enum_frame_sizes code i sizes 0 st))
  = match sizes with
    | [] => frame_sizes (es_priv st)
    | size :: _ =>
      g_array_insert_val frmsizeenum_zero (frame_sizes (es_priv st)) i
        {| frm_index := 0; frm_pixel_format := code; frm_size := size |}
    end.
Proof.
  destruct sizes as [| size rest]; [reflexivity |].
  cbn [enum_frame_sizes]. now rewrite enum_frame_sizes_later by lia.
Qed.

End FrameSizeTable.

Section EnumerationTables.

Context `{PixelFormatCodes}.
Variable k : v4l2_kernel.

Lemma last_supported_range (formats : list v4l2_fmtdesc) (i : nat) (idx : Z) :
  last_supported formats i idx = idx \/
  Z.of_nat i <= last_supported formats i idx < Z.of_nat (i + length formats).
Proof.
  revert i idx. induction formats as [| format rest IH]; intros i idx; simpl.
  - now left.
  - destruct (IH (S i) (if genicam_code (pixelformat format) =? 0 then idx else Z.of_nat i))
      as [-> | Hin].
    + destruct (_ =? 0); [now left | right; lia].
    + right. lia.
Qed.

(** The state after the body of the loop for one format. *)
Lemma enum_formats_step (format : v4l2_fmtdesc) (rest : list v4l2_fmtdesc) (i : nat)
    (st : enum_state) :
  exists st1,
    enum_formats k (format :: rest) i st = enum_formats k rest (S i) st1 /\
    same_identity (es_priv st1) (es_priv st) /\
    sensor_width (es_priv st1)
    = foldl Z.max (sensor_width (es_priv st))
        (map frmsize_width (enumerated_sizes k [format])) /\
    sensor_height (es_priv st1)
    = foldl Z.max (sensor_height (es_priv st))
        (map frmsize_height (enumerated_sizes k [format])) /\
    ((length (frame_sizes (es_priv st)) <= i)%nat ->
     (length (frame_sizes (es_priv st1)) <= S i)%nat /\
     nth i (frame_sizes (es_priv st1)) frmsizeenum_zero = first_frame_size k format /\
     forall n, (n < i)%nat ->
               nth n (frame_sizes (es_priv st1)) frmsizeenum_zero
               = nth n (frame_sizes (es_priv st)) frmsizeenum_zero).
Proof.
  rewrite enum_formats_cons. unfold enumerated_sizes, first_frame_size. simpl flat_map.
  destruct (genicam_code (pixelformat format) =? 0).
  - exists (record_format format i st). split; [reflexivity |].
    split; [unfold same_identity; simpl; tauto |]. simpl. repeat split; auto.
    now apply nth_overflow.
  - exists (visit_format k format i st). split; [reflexivity |].
    unfold visit_format. rewrite app_nil_r. split; [| split; [| split]].
    + eapply same_identity_trans; [apply enum_frame_sizes_identity |].
      unfold same_identity; simpl; tauto.
    + now destruct (enum_frame_sizes_sensor (pixelformat format) i
                      (k_frame_sizes k (pixelformat format)) 0
                      (es_update (fun priv => set_pixel_format_idx priv (Z.of_nat i))
                         (es_append (enum_entry (description format)
                                       (genicam_code (pixelformat format)))
                            (record_format format i st)))) as [-> _].
    + now destruct (enum_frame_sizes_sensor (pixelformat format) i
                      (k_frame_sizes k (pixelformat format)) 0
                      (es_update (fun priv => set_pixel_format_idx priv (Z.of_nat i))
                         (es_append (enum_entry (description format)
                                       (genicam_code (pixelformat format)))
                            (record_format format i st)))) as [_ ->].
    + intros Hlen. rewrite enum_frame_sizes_first. simpl.
      destruct (k_frame_sizes k (pixelformat format)) as [| size sizes].
      * repeat split; auto. now apply nth_overflow.
      * destruct (nth_g_array_insert_val frmsizeenum_zero (frame_sizes (es_priv st)) i
                    {| frm_index := 0; frm_pixel_format := pixelformat format;
                       frm_size := size |} Hlen) as (Hl & Hi & Hn).
        repeat split; [lia | exact Hi | exact Hn].
Qed.

Lemma enumerated_sizes_cons (format : v4l2_fmtdesc) (rest : list v4l2_fmtdesc) :
  enumerated_sizes k (format :: rest)
  = enumerated_sizes k [format] ++ enumerated_sizes k rest.
Proof. unfold enumerated_sizes. simpl. now rewrite app_nil_r. Qed.

Lemma enum_formats_identity (formats : list v4l2_fmtdesc) (i : nat) (st : enum_state) :
  same_identity (es_priv (enum_formats k formats i st).2) (es_priv st).
Proof.
  revert i st. induction formats as [| format rest IH]; intros i st.
  - unfold same_identity. simpl. tauto.
  - destruct (enum_formats_step format rest i st) as (st1 & -> & Hid & _).
    eapply same_identity_trans; [apply IH | exact Hid].
Qed.

Lemma enum_formats_sensor (formats : list v4l2_fmtdesc) (i : nat) (st : enum_state) :
  sensor_width (es_priv (enum_formats k formats i st).2)
  = foldl Z.max (sensor_width (es_priv st))
      (map frmsize_width (enumerated_sizes k formats)) /\
  sensor_height (es_priv (enum_formats k formats i st).2)
  = foldl Z.max (sensor_height (es_priv st))
      (map frmsize_height (enumerated_sizes k formats)).
Proof.
  revert i st. induction formats as [| format rest IH]; intros i st.
  - simpl. auto.
  - destruct (enum_formats_step format rest i st) as (st1 & -> & _ & Hw & Hh & _).
    destruct (IH (S i) st1) as [-> ->].
    rewrite (enumerated_sizes_cons format rest), !map_app, !foldl_app, Hw, Hh. auto.
Qed.

Lemma enum_formats_frame_sizes (formats : list v4l2_fmtdesc) (i : nat) (st : enum_state) :
  (length (frame_sizes (es_priv st)) <= i)%nat ->
  let sizes := frame_sizes (es_priv (enum_formats k formats i st).2) in
  (length sizes <= i + length formats)%nat /\
  (forall n, (n < i)%nat ->
             nth n sizes frmsizeenum_zero
             = nth n (frame_sizes (es_priv st)) frmsizeenum_zero) /\
  (forall n format, formats !! n = Some format ->
                    nth (i + n) sizes frmsizeenum_zero = first_frame_size k format).
Proof.
  revert i st. induction formats as [| format rest IH]; intros i st Hlen.
  - simpl. repeat split; [lia | discriminate].
  - destruct (enum_formats_step format rest i st) as (st1 & -> & _ & _ & _ & Hstep).
    destruct (Hstep Hlen) as (Hlen1 & Hi & Hbefore).
    destruct (IH (S i) st1 Hlen1) as (Hl & Hkeep & Hnew).
    split; [simpl; lia |]. split.
    + intros n Hn. rewrite Hkeep by lia. now apply Hbefore.
    + intros n f Hf. destruct n as [| n]; simpl in Hf.
      * injection Hf as <-. rewrite Nat.add_0_r, Hkeep by lia. exact Hi.
      * replace (i + S n)%nat with (S i + n)%nat by lia. now apply Hnew.
Qed.

(** The fields of the private data after the enumeration. *)
Lemma enumeration_finish_priv (e : nat * enum_state) :
  let priv := c_priv (enumeration_finish e) in
  pixel_format_idx priv = pixel_format_idx (es_priv e.2) /\
  sensor_width priv = sensor_width (es_priv e.2) /\
  sensor_height priv = sensor_height (es_priv e.2) /\
  pixel_formats priv = g_array_set_size 0 (pixel_formats (es_priv e.2)) e.1 /\
  frame_sizes priv = g_array_set_size frmsizeenum_zero (frame_sizes (es_priv e.2)) e.1 /\
  device_fd priv = device_fd (es_priv e.2) /\
  genicam_nodes priv
  = genicam_nodes (es_priv e.2)
    ++ [ ("SensorHeight"%string,
          sensor_feature "SensorHeight" "Full height of image sensor."
            (sensor_height (es_priv e.2)));
         ("SensorWidth"%string,
          sensor_feature "SensorWidth" "Full width of image sensor."
            (sensor_width (es_priv e.2)));
         ("PixelFormat"%string, es_format_feature e.2 +:+ format_feature_footer) ] /\
  c_ioctls (enumeration_finish e) = es_ioctls e.2.
Proof.
  destruct e as [i st]. simpl. rewrite <- !app_assoc. simpl. repeat split.
Qed.

Lemma enumeration_finish_frame_sizes (formats : list v4l2_fmtdesc) (st : enum_state) :
  frame_sizes (es_priv st) = [] ->
  frame_sizes (c_priv (enumeration_finish (enum_formats k formats 0 st)))
  = map (first_frame_size k) formats.
Proof.
  intros Hempty.
  destruct (enumeration_finish_priv (enum_formats k formats 0 st))
    as (_ & _ & _ & _ & -> & _).
  rewrite enum_formats_counter. simpl.
  destruct (enum_formats_frame_sizes formats 0 st) as (Hlen & _ & Hnth);
    [rewrite Hempty; simpl; lia |].
  destruct (nth_g_array_set_size frmsizeenum_zero
              (frame_sizes (es_priv (enum_formats k formats 0 st).2)) (length formats))
    as [Hsize Hsame].
  apply (nth_ext _ _ frmsizeenum_zero (first_frame_size k (Build_v4l2_fmtdesc EmptyString 0))).
  - now rewrite Hsize, length_map.
  - intros n Hn. rewrite Hsize in Hn. rewrite Hsame by exact Hn.
    destruct (lookup_lt_is_Some_2 formats n Hn) as [format Hformat].
    pose proof (Hnth n format Hformat) as Hentry. rewrite Nat.add_0_l in Hentry.
    rewrite Hentry.
    rewrite (nth_indep _ _ (first_frame_size k format)) by (rewrite length_map; lia).
    rewrite map_nth. f_equal. symmetry. now apply nth_lookup_Some.
Qed.

End EnumerationTables.

(** A construction without error, with what the device and the bundle
    answered. *)
Lemma constructed_ok_full `{PixelFormatCodes} (k : v4l2_kernel) (res : resources)
    (priv : ArvV4l2DevicePrivate) :
  c_init_error (arv_v4l2_device_constructed k res priv) = None ->
  exists fd cap xml,
    k_open k = Some fd /\ k_querycap k = Some cap /\ res_genicam_xml res = Some xml /\
    arv_v4l2_device_constructed k res priv
    = enumeration_finish (enum_formats k (k_formats k) 0 (enumeration_start priv fd cap xml)).
Proof.
  unfold arv_v4l2_device_constructed.
  destruct (k_open k) as [fd |]; [| discriminate].
  destruct (k_querycap k) as [cap |]; [| discriminate].
  destruct (_ =? 0); [discriminate |].
  destruct (res_genicam_xml res) as [xml |]; [| discriminate].
  destruct (negb _); [discriminate |].
  intros _. exists fd, cap, xml. repeat split.
  unfold enumeration_finish, enumeration_start.
  destruct (enum_formats _ _ _ _) as [i st]. reflexivity.
Qed.

Section ConstructedDevice.

Context `{PixelFormatCodes}.
Variable k : v4l2_kernel.
Variable res : resources.
Variable priv : ArvV4l2DevicePrivate.

Let r := arv_v4l2_device_constructed k res priv.

(** X7: construction reports no error exactly when the device opens,
    answers the capability query with the capture bit set, and the schema
    is found and valid.  A failure on the device side is reported as not
    found, a failure on the schema side as GenICam not found. *)
Theorem constructed_error_kinds :
  (c_init_error r = None <-> device_answers k /\ schema_loads res) /\
  (c_init_error r = Some ARV_DEVICE_ERROR_NOT_FOUND <-> ~ device_answers k) /\
  (c_init_error r = Some ARV_DEVICE_ERROR_GENICAM_NOT_FOUND
   <-> device_answers k /\ ~ schema_loads res).
Proof.
  unfold r, arv_v4l2_device_constructed.
  destruct (k_open k) as [fd |] eqn:Hopen.
  2: { assert (~ device_answers k) by (intros (? & ? & ? & _); congruence).
       simpl. split; [| split]; split; intros; try discriminate; try reflexivity; tauto. }
  destruct (k_querycap k) as [cap |] eqn:Hcap.
  2: { assert (~ device_answers k) by (intros (? & ? & _ & ? & _); congruence).
       simpl. split; [| split]; split; intros; try discriminate; try reflexivity; tauto. }
  destruct (Z.eqb_spec (Z.land (cap_capabilities cap) V4L2_CAP_VIDEO_CAPTURE) 0) as [Hbit | Hbit].
  { assert (~ device_answers k)
      by (intros (? & cap' & _ & Hcap' & Hbit'); congruence).
    simpl. split; [| split]; split; intros; try discriminate; try reflexivity; tauto. }
  assert (device_answers k) by (exists fd, cap; auto).
  destruct (res_genicam_xml res) as [xml |] eqn:Hxml.
  2: { assert (~ schema_loads res) by (intros [[? ?] _]; congruence).
       simpl. split; [| split]; split; intros; try discriminate; try reflexivity; tauto. }
  destruct (res_gc_valid res) eqn:Hvalid; simpl.
  - assert (schema_loads res) by (split; [eauto | assumption]).
    destruct (enum_formats _ _ _ _). simpl.
    split; [| split]; split; intros; try discriminate; try reflexivity; tauto.
  - assert (~ schema_loads res) by (intros [_ ?]; congruence).
    split; [| split]; split; intros; try discriminate; try reflexivity; tauto.
Qed.

(** X8: a construction that reports an error has sent no enumeration
    request and has left the tables, the sensor size, the active index and
    the schema nodes as they were. *)
Theorem failed_construction_enumerates_nothing :
  c_init_error r <> None ->
  c_ioctls r = [] /\
  pixel_formats (c_priv r) = pixel_formats priv /\
  frame_sizes (c_priv r) = frame_sizes priv /\
  sensor_width (c_priv r) = sensor_width priv /\
  sensor_height (c_priv r) = sensor_height priv /\
  pixel_format_idx (c_priv r) = pixel_format_idx priv /\
  genicam_nodes (c_priv r) = genicam_nodes priv.
Proof.
  unfold r, arv_v4l2_device_constructed.
  destruct (k_open k) as [fd |]; [| simpl; tauto].
  destruct (k_querycap k) as [cap |]; [| simpl; tauto].
  destruct (_ =? 0); [simpl; tauto |].
  destruct (res_genicam_xml res) as [xml |]; [| simpl; tauto].
  destruct (res_gc_valid res); simpl; [| tauto].
  destruct (enum_formats _ _ _ _). simpl. tauto.
Qed.

Lemma constructed_descriptor :
  device_fd (c_priv r) = match k_open k with Some fd => fd | None => -1 end.
Proof.
  destruct (c_init_error r) as [e |] eqn:Herr.
  - revert Herr. unfold r, arv_v4l2_device_constructed.
    destruct (k_open k) as [fd |]; [| reflexivity].
    destruct (k_querycap k) as [cap |]; [| reflexivity].
    destruct (_ =? 0); [reflexivity |].
    destruct (res_genicam_xml res) as [xml |]; [| reflexivity].
    destruct (res_gc_valid res); simpl; [| reflexivity].
    destruct (enum_formats _ _ _ _). discriminate.
  - unfold r in *.
    destruct (constructed_ok_full k res priv Herr) as (fd & cap & xml & -> & _ & _ & ->).
    destruct (enumeration_finish_priv
                (enum_formats k (k_formats k) 0 (enumeration_start priv fd cap xml)))
      as (_ & _ & _ & _ & _ & -> & _).
    now destruct (enum_formats_identity k (k_formats k) 0 (enumeration_start priv fd cap xml))
      as (-> & _).
Qed.

(** X9: the descriptor is closed at finalization exactly when the device
    could be opened, whether or not the construction went on to fail. *)
Theorem finalize_closes_opened_descriptor :
  (k_open k = None -> arv_v4l2_device_finalize (c_priv r) = None) /\
  (forall fd, k_open k = Some fd -> fd <> -1 ->
              arv_v4l2_device_finalize (c_priv r) = Some fd).
Proof.
  unfold arv_v4l2_device_finalize. rewrite constructed_descriptor. split.
  - intros ->. reflexivity.
  - intros fd -> Hfd. now rewrite (address_eqb_neq _ _ Hfd).
Qed.

Lemma constructed_table_entries :
  c_init_error r = None ->
  pixel_formats (c_priv r)
  = (fun format => genicam_code (pixelformat format)) <$> k_formats k /\
  frame_sizes (c_priv r) = first_frame_size k <$> k_formats k.
Proof.
  intros Hok. unfold r in *.
  destruct (constructed_ok_full k res priv Hok) as (fd & cap & xml & _ & _ & _ & ->).
  rewrite enumeration_finish_table, enumeration_finish_frame_sizes by reflexivity.
  split; reflexivity.
Qed.

(** X10: after a construction without error the two tables have one
    entry per enumerated format, in the order of the enumeration: the
    generic code of the format (0 without one) and its first frame size
    (a cleared entry without generic code or frame size). *)
Theorem constructed_tables :
  c_init_error r = None ->
  pixel_formats (c_priv r)
  = map (fun format => genicam_code (pixelformat format)) (k_formats k) /\
  frame_sizes (c_priv r) = map (first_frame_size k) (k_formats k).
Proof.
  intros Hok. unfold r in *.
  destruct (constructed_ok_full k res priv Hok) as (fd & cap & xml & _ & _ & _ & ->).
  split.
  - now apply enumeration_finish_table.
  - now apply enumeration_finish_frame_sizes.
Qed.

Lemma constructed_index :
  c_init_error r = None ->
  pixel_format_idx (c_priv r) = last_supported (k_formats k) 0 (pixel_format_idx priv).
Proof.
  intros Hok. unfold r in *.
  destruct (constructed_ok_full k res priv Hok) as (fd & cap & xml & _ & _ & _ & ->).
  destruct (enumeration_finish_priv
              (enum_formats k (k_formats k) 0 (enumeration_start priv fd cap xml)))
    as (-> & _).
  now rewrite enum_formats_index.
Qed.

Lemma constructed_lengths :
  c_init_error r = None ->
  length (pixel_formats (c_priv r)) = length (k_formats k) /\
  length (frame_sizes (c_priv r)) = length (k_formats k).
Proof.
  intros Hok. unfold r in *.
  destruct (constructed_ok_full k res priv Hok) as (fd & cap & xml & _ & _ & _ & ->).
  rewrite enumeration_finish_table, enumeration_finish_frame_sizes by reflexivity.
  now rewrite !length_map.
Qed.

(** X11: a device constructed without error on a kernel that has at
    least one format satisfies the invariant of the register map: the
    active index designates an entry of both tables. *)
Theorem constructed_device_invariant :
  c_init_error r = None ->
  pixel_format_idx priv = 0 ->
  k_formats k <> [] ->
  Z.of_nat (length (k_formats k)) <= 2 ^ 31 ->
  device_invariant (c_priv r).
Proof.
  intros Hok Hzero Hformats Hfit. unfold device_invariant.
  destruct (constructed_lengths Hok) as [-> ->].
  rewrite (constructed_index Hok), Hzero.
  assert (0 < length (k_formats k))%nat
    by (destruct (k_formats k); [congruence | simpl; lia]).
  repeat split; try lia;
    destruct (last_supported_range (k_formats k) 0 0) as [-> | Hin]; lia.
Qed.

(** X12: the sensor size is the largest width and the largest height
    (the maximum of a stepwise range) among the frame sizes of the formats
    that have a generic code, and 0 when there is none. *)
Theorem constructed_sensor_size :
  c_init_error r = None ->
  let sizes := enumerated_sizes k (k_formats k) in
  sensor_width (c_priv r) = foldl Z.max 0 (map frmsize_width sizes) /\
  sensor_height (c_priv r) = foldl Z.max 0 (map frmsize_height sizes) /\
  (forall size, In size sizes ->
     frmsize_width size <= sensor_width (c_priv r) /\
     frmsize_height size <= sensor_height (c_priv r)) /\
  (sensor_width (c_priv r) = 0 \/
   exists size, In size sizes /\ frmsize_width size = sensor_width (c_priv r)) /\
  (sensor_height (c_priv r) = 0 \/
   exists size, In size sizes /\ frmsize_height size = sensor_height (c_priv r)).
Proof.
  intros Hok sizes. unfold r in *.
  destruct (constructed_ok_full k res priv Hok) as (fd & cap & xml & _ & _ & _ & ->).
  destruct (enumeration_finish_priv
              (enum_formats k (k_formats k) 0 (enumeration_start priv fd cap xml)))
    as (_ & -> & -> & _).
  destruct (enum_formats_sensor k (k_formats k) 0 (enumeration_start priv fd cap xml))
    as [-> ->].
  simpl (sensor_width _). simpl (sensor_height _). fold sizes.
  split; [reflexivity |]. split; [reflexivity |]. split; [| split].
  - intros size Hsize. split.
    + apply (foldl_max_le (map frmsize_width sizes) 0). now apply in_map.
    + apply (foldl_max_le (map frmsize_height sizes) 0). now apply in_map.
  - destruct (foldl_max_attained (map frmsize_width sizes) 0) as [-> | Hin]; [now left |].
    right. apply in_map_iff in Hin as (size & Hw & Hsize). eauto.
  - destruct (foldl_max_attained (map frmsize_height sizes) 0) as [-> | Hin]; [now left |].
    right. apply in_map_iff in Hin as (size & Hh & Hsize). eauto.
Qed.

(** X13: the enumeration requests of a construction without error are
    [VIDIOC_ENUM_FMT] for the indices 0 to the number of formats (the last
    one fails and ends the loop) and, for each format with a generic code
    only, [VIDIOC_ENUM_FRAMESIZES] for the indices 0 to its number of frame
    sizes. *)
Theorem constructed_requests (request : ioctl_request) :
  c_init_error r = None ->
  (In request (c_ioctls r) <->
   (exists n, (n <= length (k_formats k))%nat /\ request = VIDIOC_ENUM_FMT (Z.of_nat n)) \/
   (exists format n, In format (k_formats k) /\ genicam_code (pixelformat format) <> 0 /\
      (n <= length (k_frame_sizes k (pixelformat format)))%nat /\
      request = VIDIOC_ENUM_FRAMESIZES (pixelformat format) (Z.of_nat n))).
Proof.
  intros Hok. unfold r in *.
  destruct (constructed_ok_full k res priv Hok) as (fd & cap & xml & _ & _ & _ & ->).
  destruct (enumeration_finish_priv
              (enum_formats k (k_formats k) 0 (enumeration_start priv fd cap xml)))
    as (_ & _ & _ & _ & _ & _ & _ & ->).
  rewrite enum_formats_ioctls. simpl. tauto.
Qed.

(** X14: a construction without error adds three nodes to the schema, in
    this order.  SensorHeight and SensorWidth are Integer elements whose
    value is the decimal writing of the largest height, and of the largest
    width, among the frame sizes of the formats that have a generic code
    (0 when there is none).  PixelFormat is an Enumeration element with,
    for each format that has a generic code and in the order of the
    enumeration, an EnumEntry that bears the description of the format as
    its name and the decimal writing of the generic code as its value.  The
    generic codes are taken below 2^31 and the frame sizes below 2^32. *)
Theorem constructed_schema_nodes :
  c_init_error r = None ->
  (forall format, In format (k_formats k) ->
                  0 <= genicam_code (pixelformat format) < 2 ^ 31) ->
  (forall size, In size (enumerated_sizes k (k_formats k)) ->
                frmsize_width size < 2 ^ 32 /\ frmsize_height size < 2 ^ 32) ->
  let quote := String "034"%char EmptyString in
  let newline := String "010"%char EmptyString in
  let decimal (value : Z) := NilZero.string_of_int (Z.to_int value) in
  let entry (name : string) (value : Z) :=
    "  <EnumEntry Name=" +:+ quote +:+ name +:+ quote +:+ ">" +:+ newline +:+
    "    <Value>" +:+ decimal value +:+ "</Value>" +:+ newline +:+
    "  </EnumEntry>" +:+ newline in
  let entries :=
    foldr (fun format later =>
             if genicam_code (pixelformat format) =? 0 then later
             else entry (description format) (genicam_code (pixelformat format))
                  +:+ later)
          EmptyString (k_formats k) in
  let text :=
    (("<Enumeration Name=" +:+ quote +:+ "PixelFormat" +:+ quote +:+ ">" +:+ newline +:+
      "  <DisplayName>Pixel format</DisplayName>" +:+ newline)
     +:+ entries)
    +:+ ("  <pValue>PixelFormatRegister</pValue>" +:+ newline +:+ "</Enumeration>") in
  let integer (name about : string) (value : Z) :=
    "<Integer Name=" +:+ quote +:+ name +:+ quote +:+ ">" +:+ newline +:+
    "  <Description>" +:+ about +:+ "</Description>" +:+ newline +:+
    "  <Value>" +:+ decimal value +:+ "</Value>" +:+ newline +:+
    "  <AccessMode>RO</AccessMode>" +:+ newline +:+
    "</Integer>" in
  let sizes := enumerated_sizes k (k_formats k) in
  c_format_feature r = text /\
  genicam_nodes (c_priv r)
  = genicam_nodes priv
    ++ [ ("SensorHeight"%string,
          integer "SensorHeight" "Full height of image sensor."
            (foldl Z.max 0 (map frmsize_height sizes)));
         ("SensorWidth"%string,
          integer "SensorWidth" "Full width of image sensor."
            (foldl Z.max 0 (map frmsize_width sizes)));
         ("PixelFormat"%string, text) ].
Proof.
  intros Hok Hcodes Hsizes quote newline decimal entry entries text integer sizes.
  assert (entries_text (k_formats k) = entries) as Hentries.
  { unfold entries. revert Hcodes. generalize (k_formats k) as formats.
    induction formats as [| format rest IH]; intros Hcodes; [reflexivity |].
    cbn [entries_text foldr].
    rewrite IH by (intros f Hf; apply Hcodes; now right).
    destruct (genicam_code (pixelformat format) =? 0); [reflexivity |].
    unfold enum_entry. rewrite fmt_d_decimal by (apply Hcodes; now left). reflexivity. }
  assert (0 <= foldl Z.max 0 (map frmsize_height sizes) < 2 ^ 32) as Hheight.
  { split; [apply (proj1 (foldl_max_le (map frmsize_height sizes) 0)) |].
    destruct (foldl_max_attained (map frmsize_height sizes) 0) as [-> | Hin]; [lia |].
    apply in_map_iff in Hin as (size & <- & Hsize). now apply Hsizes. }
  assert (0 <= foldl Z.max 0 (map frmsize_width sizes) < 2 ^ 32) as Hwidth.
  { split; [apply (proj1 (foldl_max_le (map frmsize_width sizes) 0)) |].
    destruct (foldl_max_attained (map frmsize_width sizes) 0) as [-> | Hin]; [lia |].
    apply in_map_iff in Hin as (size & <- & Hsize). now apply Hsizes. }
  unfold r in *.
  destruct (constructed_ok_full k res priv Hok) as (fd & cap & xml & _ & _ & _ & ->).
  split; [rewrite enumeration_finish_text, Hentries; reflexivity |].
  destruct (enumeration_finish_priv
              (enum_formats k (k_formats k) 0 (enumeration_start priv fd cap xml)))
    as (_ & _ & _ & _ & _ & _ & -> & _).
  destruct (enum_formats_identity k (k_formats k) 0 (enumeration_start priv fd cap xml))
    as (_ & _ & _ & _ & _ & _ & ->).
  destruct (enum_formats_sensor k (k_formats k) 0 (enumeration_start priv fd cap xml))
    as [-> ->].
  rewrite enum_formats_text, Hentries.
  simpl (sensor_width _). simpl (sensor_height _). fold sizes.
  unfold sensor_feature. rewrite !fmt_u_decimal by assumption. reflexivity.
Qed.

(** X15: on a device constructed without error, a register read of the
    pixel format register returns the generic code of the last enumerated
    format that has one, and the width and height registers return the
    size of the first frame size of that format (0 when it has none). *)
Theorem read_registers_after_construction (i : nat) (format : v4l2_fmtdesc)
    (value local : Z) :
  c_init_error r = None ->
  Z.of_nat (length (k_formats k)) <= 2 ^ 31 ->
  k_formats k !! i = Some format ->
  genicam_code (pixelformat format) <> 0 ->
  (forall j format', (i < j)%nat -> k_formats k !! j = Some format' ->
                     genicam_code (pixelformat format') = 0) ->
  arv_v4l2_device_read_register k (c_priv r) ARV_V4L2_ADDRESS_PIXEL_FORMAT value local
  = {| reg_ok := true; reg_error := None;
       reg_value := to_guint32 (genicam_code (pixelformat format)) |} /\
  arv_v4l2_device_read_register k (c_priv r) ARV_V4L2_ADDRESS_WIDTH value local
  = {| reg_ok := true; reg_error := None;
       reg_value := to_guint32 (frame_size_width (first_frame_size k format)) |} /\
  arv_v4l2_device_read_register k (c_priv r) ARV_V4L2_ADDRESS_HEIGHT value local
  = {| reg_ok := true; reg_error := None;
       reg_value := to_guint32 (frame_size_height (first_frame_size k format)) |}.
Proof.
  intros Hok Hfit Hformat Hcode Hlast.
  pose proof (lookup_lt_Some _ _ _ Hformat) as Hi.
  assert (pixel_format_idx (c_priv r) = Z.of_nat i) as Hidx.
  { rewrite (constructed_index Hok).
    now rewrite (last_supported_spec (k_formats k) 0 _ i format Hformat Hcode Hlast). }
  destruct (constructed_table_entries Hok) as [Hpf Hfs].
  assert (device_invariant (c_priv r)) as Hinv.
  { unfold device_invariant. destruct (constructed_lengths Hok) as [-> ->].
    rewrite Hidx. lia. }
  destruct (invariant_entries (c_priv r) Hinv)
    as (frame_size & code & Hfs' & Hcode' & Hf & Hc).
  rewrite Hidx, Nat2Z.id in Hfs', Hcode'.
  rewrite Hfs, list_lookup_fmap, Hformat in Hfs'. injection Hfs' as <-.
  rewrite Hpf, list_lookup_fmap, Hformat in Hcode'. injection Hcode' as <-.
  unfold arv_v4l2_device_read_register, arv_v4l2_device_read_memory, read_numeric.
  rewrite (invariant_guard (c_priv r) Hinv), Hf, Hc. simpl.
  now rewrite !register_value_round_trip, !to_guint32_to_gint32.
Qed.

End ConstructedDevice.

Lemma constructed_error_kinds_witness :
  c_init_error (arv_v4l2_device_constructed (H := linux_codes) four_format_camera
                  bundled_schema (arv_v4l2_device_init "/dev/video0")) = None /\
  c_init_error (arv_v4l2_device_constructed (H := linux_codes) absent_device
                  bundled_schema (arv_v4l2_device_init "/dev/video9"))
  = Some ARV_DEVICE_ERROR_NOT_FOUND.
Proof.
  split.
  - apply (constructed_error_kinds (H := linux_codes) four_format_camera bundled_schema
             (arv_v4l2_device_init "/dev/video0")).
    split.
    + eexists _, _. repeat split; try reflexivity. vm_compute. discriminate.
    + split; [eexists; reflexivity | reflexivity].
  - apply (constructed_error_kinds (H := linux_codes) absent_device bundled_schema
             (arv_v4l2_device_init "/dev/video9")).
    intros (fd & cap & Hopen & _). discriminate.
Defined.

Lemma failed_construction_enumerates_nothing_witness :
  c_ioctls (arv_v4l2_device_constructed (H := linux_codes) absent_device
              bundled_schema (arv_v4l2_device_init "/dev/video9")) = [] /\
  pixel_formats (c_priv (arv_v4l2_device_constructed (H := linux_codes) absent_device
                           bundled_schema (arv_v4l2_device_init "/dev/video9"))) = [].
Proof.
  destruct (failed_construction_enumerates_nothing (H := linux_codes) absent_device
              bundled_schema (arv_v4l2_device_init "/dev/video9"))
    as (Hlog & Htable & _); [discriminate |].
  split; [exact Hlog | exact Htable].
Defined.

Lemma finalize_closes_opened_descriptor_witness :
  arv_v4l2_device_finalize
    (c_priv (arv_v4l2_device_constructed (H := linux_codes) four_format_camera
               {| res_genicam_xml := None; res_gc_valid := false |}
               (arv_v4l2_device_init "/dev/video0"))) = Some 3 /\
  arv_v4l2_device_finalize
    (c_priv (arv_v4l2_device_constructed (H := linux_codes) absent_device
               bundled_schema (arv_v4l2_device_init "/dev/video9"))) = None.
Proof.
  split.
  - apply (finalize_closes_opened_descriptor (H := linux_codes) four_format_camera
             {| res_genicam_xml := None; res_gc_valid := false |}
             (arv_v4l2_device_init "/dev/video0")); [reflexivity | lia].
  - apply (finalize_closes_opened_descriptor (H := linux_codes) absent_device
             bundled_schema (arv_v4l2_device_init "/dev/video9")). reflexivity.
Defined.

Lemma constructed_tables_witness :
  frame_sizes (c_priv (arv_v4l2_device_constructed (H := linux_codes) four_format_camera
                         bundled_schema (arv_v4l2_device_init "/dev/video0")))
  = [ {| frm_index := 0; frm_pixel_format := 0x33424752;
         frm_size := frmsize_discrete 640 480 |};
      frmsizeenum_zero;
      {| frm_index := 0; frm_pixel_format := 0x56595559;
         frm_size := frmsize_discrete 320 240 |};
      frmsizeenum_zero ].
Proof.
  destruct (constructed_tables (H := linux_codes) four_format_camera bundled_schema
              (arv_v4l2_device_init "/dev/video0")) as [_ Hsizes]; [reflexivity |].
  rewrite Hsizes. reflexivity.
Defined.

Lemma constructed_device_invariant_witness :
  device_invariant
    (c_priv (arv_v4l2_device_constructed (H := linux_codes) four_format_camera
               bundled_schema (arv_v4l2_device_init "/dev/video0"))).
Proof.
  apply (constructed_device_invariant (H := linux_codes) four_format_camera bundled_schema
           (arv_v4l2_device_init "/dev/video0")).
  - reflexivity.
  - reflexivity.
  - discriminate.
  - simpl. lia.
Defined.

Lemma constructed_sensor_size_witness :
  sensor_width (c_priv (arv_v4l2_device_constructed (H := linux_codes) four_format_camera
                          bundled_schema (arv_v4l2_device_init "/dev/video0"))) = 640 /\
  sensor_height (c_priv (arv_v4l2_device_constructed (H := linux_codes) four_format_camera
                           bundled_schema (arv_v4l2_device_init "/dev/video0"))) = 480.
Proof.
  destruct (constructed_sensor_size (H := linux_codes) four_format_camera bundled_schema
              (arv_v4l2_device_init "/dev/video0")) as (Hw & Hh & _); [reflexivity |].
  rewrite Hw, Hh. split; reflexivity.
Defined.

Lemma constructed_requests_witness :
  In (VIDIOC_ENUM_FMT 4)
     (c_ioctls (arv_v4l2_device_constructed (H := linux_codes) four_format_camera
                  bundled_schema (arv_v4l2_device_init "/dev/video0"))) /\
  ~ In (VIDIOC_ENUM_FRAMESIZES 0x47504a4d 0)
       (c_ioctls (arv_v4l2_device_constructed (H := linux_codes) four_format_camera
                    bundled_schema (arv_v4l2_device_init "/dev/video0"))).
Proof.
  split.
  - apply (constructed_requests (H := linux_codes) four_format_camera bundled_schema
             (arv_v4l2_device_init "/dev/video0")); [reflexivity |].
    left. exists 4%nat. split; [simpl; lia | reflexivity].
  - intros Hin.
    apply (constructed_requests (H := linux_codes) four_format_camera bundled_schema
             (arv_v4l2_device_init "/dev/video0")) in Hin; [| reflexivity].
    destruct Hin as [(n & _ & Hreq) | (format & n & Hformat & Hcode & _ & Hreq)];
      [discriminate |].
    injection Hreq as Hsame _. simpl in Hformat.
    destruct Hformat as [<- | [<- | [<- | [<- | []]]]];
      try discriminate Hsame. apply Hcode. reflexivity.
Defined.

Lemma constructed_schema_nodes_witness :
  let r := arv_v4l2_device_constructed (H := linux_codes) four_format_camera
             bundled_schema (arv_v4l2_device_init "/dev/video0") in
  let quote := String "034"%char EmptyString in
  let newline := String "010"%char EmptyString in
  let text :=
    "<Enumeration Name=" +:+ quote +:+ "PixelFormat" +:+ quote +:+ ">" +:+ newline +:+
    "  <DisplayName>Pixel format</DisplayName>" +:+ newline +:+
    "  <EnumEntry Name=" +:+ quote +:+ "RGB3" +:+ quote +:+ ">" +:+ newline +:+
    "    <Value>35127316</Value>" +:+ newline +:+
    "  </EnumEntry>" +:+ newline +:+
    "  <EnumEntry Name=" +:+ quote +:+ "YUYV" +:+ quote +:+ ">" +:+ newline +:+
    "    <Value>34603039</Value>" +:+ newline +:+
    "  </EnumEntry>" +:+ newline +:+
    "  <pValue>PixelFormatRegister</pValue>" +:+ newline +:+ "</Enumeration>" in
  c_format_feature r = text /\
  genicam_nodes (c_priv r)
  = [ ("SensorHeight"%string,
       "<Integer Name=" +:+ quote +:+ "SensorHeight" +:+ quote +:+ ">" +:+ newline +:+
       "  <Description>Full height of image sensor.</Description>" +:+ newline +:+
       "  <Value>480</Value>" +:+ newline +:+
       "  <AccessMode>RO</AccessMode>" +:+ newline +:+
       "</Integer>");
      ("SensorWidth"%string,
       "<Integer Name=" +:+ quote +:+ "SensorWidth" +:+ quote +:+ ">" +:+ newline +:+
       "  <Description>Full width of image sensor.</Description>" +:+ newline +:+
       "  <Value>640</Value>" +:+ newline +:+
       "  <AccessMode>RO</AccessMode>" +:+ newline +:+
       "</Integer>");
      ("PixelFormat"%string, text) ].
Proof.
  destruct (constructed_schema_nodes (H := linux_codes) four_format_camera bundled_schema
              (arv_v4l2_device_init "/dev/video0")) as (Htext & Hnodes).
  - reflexivity.
  - intros format Hin. simpl in Hin.
    destruct Hin as [<- | [<- | [<- | [<- | []]]]]; vm_compute; split; congruence.
  - intros size Hin. vm_compute in Hin.
    destruct Hin as [<- | [<- | []]]; vm_compute; split; reflexivity.
  - split; [rewrite Htext; reflexivity | rewrite Hnodes; reflexivity].
Defined.

Lemma read_registers_after_construction_witness :
  arv_v4l2_device_read_register four_format_camera
    (c_priv (arv_v4l2_device_constructed (H := linux_codes) four_format_camera
               bundled_schema (arv_v4l2_device_init "/dev/video0")))
    ARV_V4L2_ADDRESS_PIXEL_FORMAT 0 0
  = {| reg_ok := true; reg_error := None; reg_value := 0x0210001f |}.
Proof.
  destruct (read_registers_after_construction (H := linux_codes) four_format_camera
              bundled_schema (arv_v4l2_device_init "/dev/video0") 2%nat YUYV 0 0)
    as (Hformat & _).
  - reflexivity.
  - simpl. lia.
  - reflexivity.
  - vm_compute. discriminate.
  - intros j format' Hj. destruct j as [| [| [| [| j]]]]; try lia.
    + intros [= <-]. reflexivity.
    + discriminate.
  - rewrite Hformat. reflexivity.
Defined.

(** * Further properties of the acquisition thread *)

Lemma same_configuration_refl (td : ArvV4l2StreamThreadData) : same_configuration td td.
Proof. unfold same_configuration. tauto. Qed.

Lemma same_configuration_trans (td1 td2 td3 : ArvV4l2StreamThreadData) :
  same_configuration td1 td2 -> same_configuration td2 td3 -> same_configuration td1 td3.
Proof. unfold same_configuration. intuition congruence. Qed.

Lemma to_guint32_range (z : Z) : 0 <= to_guint32 z < 2 ^ 32.
Proof. unfold to_guint32. apply Z.mod_pos_bound. lia. Qed.

Lemma to_guint32_add (a : Z) (n m : nat) :
  to_guint32 (to_guint32 (a + Z.of_nat n) + Z.of_nat m) = to_guint32 (a + Z.of_nat (n + m)).
Proof.
  unfold to_guint32. rewrite Zplus_mod_idemp_l. f_equal. lia.
Qed.

Section ThreadTurn.

Variable it : iteration.

(** The submit phase works on the table and the output queue only. *)
Lemma submit_buffers_keeps_objects (input : list positive) (bufd : v4l2_buffer)
    (st : thread_state) :
  let st' := (submit_buffers it input bufd st).2 in
  heap st' = heap st /\ thread_data st' = thread_data st /\ callbacks st' = callbacks st.
Proof.
  revert bufd st. induction input as [| arv_buffer rest IH]; intros bufd st; simpl.
  - auto.
  - destruct (heap st !! arv_buffer) as [b |]; [| apply IH].
    destruct (it_qbuf it _) as [bufd' |].
    + destruct (IH bufd' (g_hash_table_replace (buf_index bufd') arv_buffer st))
        as (-> & -> & ->). auto.
    + destruct (IH (set_buf_index bufd (to_guint32 (v4l2_index b)))
                  (arv_stream_push_output_buffer arv_buffer st)) as (-> & -> & ->). auto.
Qed.

Lemma submit_buffers_output_grows (input : list positive) (bufd : v4l2_buffer)
    (st : thread_state) (p : positive) :
  In p (output_queue st) -> In p (output_queue (submit_buffers it input bufd st).2).
Proof.
  revert bufd st. induction input as [| arv_buffer rest IH]; intros bufd st Hin; simpl.
  - exact Hin.
  - destruct (heap st !! arv_buffer) as [b |]; [| now apply IH].
    destruct (it_qbuf it _) as [bufd' |]; apply IH; simpl; [exact Hin |].
    apply in_app_iff. now left.
Qed.

(** What the dequeue phase does to the counters, the queue and the
    callback log: [delivered] is empty or holds the delivered buffer. *)
Lemma dequeue_buffer_effect (bufd : v4l2_buffer) (st : thread_state) :
  exists delivered : list positive,
    let st' := dequeue_buffer it bufd st in
    (length delivered <= 1)%nat /\
    output_queue st' = output_queue st ++ delivered /\
    callbacks st'
    = callbacks st
      ++ (if has_callback (thread_data st)
          then map ARV_STREAM_CALLBACK_TYPE_BUFFER_DONE delivered else []) /\
    same_configuration (thread_data st) (thread_data st') /\
    (counters_in_range (thread_data st) ->
     counters_in_range (thread_data st') /\
     td_frame_id (thread_data st')
     = to_guint32 (td_frame_id (thread_data st) + Z.of_nat (length delivered)) /\
     n_completed_buffers (thread_data st')
     = to_guint32 (n_completed_buffers (thread_data st) + Z.of_nat (length delivered))).
Proof.
  unfold dequeue_buffer.
  assert (exists delivered : list positive,
            (length delivered <= 1)%nat /\
            output_queue st = output_queue st ++ delivered /\
            callbacks st
            = callbacks st
              ++ (if has_callback (thread_data st)
                  then map ARV_STREAM_CALLBACK_TYPE_BUFFER_DONE delivered else []) /\
            same_configuration (thread_data st) (thread_data st) /\
            (counters_in_range (thread_data st) ->
             counters_in_range (thread_data st) /\
             td_frame_id (thread_data st)
             = to_guint32 (td_frame_id (thread_data st) + Z.of_nat (length delivered)) /\
             n_completed_buffers (thread_data st)
             = to_guint32 (n_completed_buffers (thread_data st)
                           + Z.of_nat (length delivered)))) as Hnothing.
  { exists []. simpl. rewrite !app_nil_r. repeat split; try lia;
      try (destruct (has_callback _); now rewrite app_nil_r).
    - destruct H as [Hf _]. lia.
    - destruct H as [Hf _]. lia.
    - destruct H as [_ Hc]. lia.
    - destruct H as [_ Hc]. lia.
    - destruct H as [Hf _]. rewrite Z.add_0_r. symmetry. now apply to_guint32_small.
    - destruct H as [_ Hc]. rewrite Z.add_0_r. symmetry. now apply to_guint32_small. }
  destruct (buffers st !! _) as [arv_buffer |]; [| exact Hnothing].
  destruct (heap st !! arv_buffer) as [b |]; [| exact Hnothing].
  exists [arv_buffer]. simpl. repeat split; try lia;
    try apply to_guint32_range.
  destruct (has_callback (thread_data st)); [reflexivity | now rewrite app_nil_r].
Qed.

End ThreadTurn.

Lemma thread_iteration_effect (st : thread_state) (it : iteration) :
  exists delivered : list positive,
    let st' := thread_iteration st it in
    same_configuration (thread_data st) (thread_data st') /\
    callbacks st'
    = callbacks st
      ++ (if has_callback (thread_data st)
          then map ARV_STREAM_CALLBACK_TYPE_BUFFER_DONE delivered else []) /\
    (forall p, In p delivered -> In p (output_queue st')) /\
    (forall p, In p (output_queue st) -> In p (output_queue st')) /\
    (counters_in_range (thread_data st) ->
     counters_in_range (thread_data st') /\
     td_frame_id (thread_data st')
     = to_guint32 (td_frame_id (thread_data st) + Z.of_nat (length delivered)) /\
     n_completed_buffers (thread_data st')
     = to_guint32 (n_completed_buffers (thread_data st) + Z.of_nat (length delivered))).
Proof.
  unfold thread_iteration.
  destruct (submit_buffers_keeps_objects it (it_input it) v4l2_buffer_zero st)
    as (_ & Hdata & Hcalls).
  pose proof (submit_buffers_output_grows it (it_input it) v4l2_buffer_zero st) as Hgrow.
  destruct (submit_buffers it (it_input it) v4l2_buffer_zero st) as [bufd st1].
  simpl in Hdata, Hcalls, Hgrow.
  destruct (dequeue_buffer_effect it bufd st1)
    as (delivered & _ & Hout & Hcb & Hconf & Hcount).
  rewrite Hdata, Hcalls in *. exists delivered. simpl.
  split; [exact Hconf |]. split; [exact Hcb |]. split; [| split; [| exact Hcount]].
  - intros p Hp. rewrite Hout. apply in_app_iff. now right.
  - intros p Hp. rewrite Hout. apply in_app_iff. left. now apply Hgrow.
Qed.

Lemma thread_run_effect (trace : list iteration) (st : thread_state) :
  exists delivered : list positive,
    let st' := foldl thread_iteration st trace in
    same_configuration (thread_data st) (thread_data st') /\
    callbacks st'
    = callbacks st
      ++ (if has_callback (thread_data st)
          then map ARV_STREAM_CALLBACK_TYPE_BUFFER_DONE delivered else []) /\
    (forall p, In p delivered -> In p (output_queue st')) /\
    (forall p, In p (output_queue st) -> In p (output_queue st')) /\
    (counters_in_range (thread_data st) ->
     counters_in_range (thread_data st') /\
     td_frame_id (thread_data st')
     = to_guint32 (td_frame_id (thread_data st) + Z.of_nat (length delivered)) /\
     n_completed_buffers (thread_data st')
     = to_guint32 (n_completed_buffers (thread_data st) + Z.of_nat (length delivered))).
Proof.
  revert st. induction trace as [| it rest IH]; intros st.
  - exists []. simpl.
    split; [apply same_configuration_refl |].
    split; [destruct (has_callback _); now rewrite app_nil_r |].
    split; [tauto |]. split; [tauto |].
    intros Hrange. split; [exact Hrange |]. rewrite !Z.add_0_r.
    destruct Hrange as [Hf Hc]. now rewrite !to_guint32_small.
  - destruct (thread_iteration_effect st it)
      as (first & Hconf1 & Hcb1 & Hin1 & Hgrow1 & Hcount1).
    destruct (IH (thread_iteration st it))
      as (later & Hconf2 & Hcb2 & Hin2 & Hgrow2 & Hcount2).
    exists (first ++ later). cbn [foldl]. simpl in *.
    split; [eapply same_configuration_trans; eassumption |]. split; [| split; [| split]].
    + rewrite Hcb2, Hcb1. destruct Hconf1 as (-> & _).
      destruct (has_callback (thread_data st)).
      * now rewrite map_app, app_assoc.
      * now rewrite !app_nil_r.
    + intros p Hp. apply in_app_iff in Hp as [Hp | Hp]; auto.
    + auto.
    + intros Hrange. destruct (Hcount1 Hrange) as (Hrange1 & Hf1 & Hc1).
      destruct (Hcount2 Hrange1) as (Hrange2 & Hf2 & Hc2).
      split; [exact Hrange2 |].
      rewrite Hf2, Hc2, Hf1, Hc1, length_app, !to_guint32_add. auto.
Qed.

Lemma drain_buffers_keeps (st : thread_state) :
  thread_data (drain_buffers st) = thread_data st /\
  callbacks (drain_buffers st) = callbacks st /\
  heap (drain_buffers st) = heap st /\
  buffers (drain_buffers st) = buffers st.
Proof.
  unfold drain_buffers. generalize (map_to_list (buffers st)) as entries.
  intros entries. revert st.
  induction entries as [| entry rest IH]; intros st; simpl.
  - auto.
  - destruct (IH (arv_stream_push_output_buffer entry.2 st)) as (-> & -> & -> & ->). auto.
Qed.

(** One turn of the loop, with the buffer it delivers. *)
Lemma thread_iteration_delivers (st : thread_state) (it : iteration) :
  let st' := thread_iteration st it in
  let delivered := delivered_in_turn st it in
  has_callback (thread_data st') = has_callback (thread_data st) /\
  callbacks st'
  = callbacks st
    ++ (if has_callback (thread_data st)
        then map ARV_STREAM_CALLBACK_TYPE_BUFFER_DONE delivered else []) /\
  (forall p, In p delivered -> In p (output_queue st')) /\
  (forall p, In p (output_queue st) -> In p (output_queue st')) /\
  (counters_in_range (thread_data st) ->
   counters_in_range (thread_data st') /\
   td_frame_id (thread_data st')
   = to_guint32 (td_frame_id (thread_data st) + Z.of_nat (length delivered)) /\
   n_completed_buffers (thread_data st')
   = to_guint32 (n_completed_buffers (thread_data st) + Z.of_nat (length delivered))).
Proof.
  unfold thread_iteration, delivered_in_turn.
  destruct (submit_buffers_keeps_objects it (it_input it) v4l2_buffer_zero st)
    as (_ & Hdata & Hcalls).
  pose proof (submit_buffers_output_grows it (it_input it) v4l2_buffer_zero st) as Hgrow.
  destruct (submit_buffers it (it_input it) v4l2_buffer_zero st) as [bufd st1].
  simpl in Hdata, Hcalls, Hgrow. rewrite <- Hdata, <- Hcalls.
  assert (buf_index match it_dqbuf it (set_buf_index bufd 0) with
                    | Some answer => answer
                    | None => set_buf_index bufd 0
                    end = answered_slot it bufd) as Hslot
    by (unfold answered_slot; destruct (it_dqbuf it _); reflexivity).
  unfold dequeue_buffer. rewrite Hslot.
  assert (forall td, counters_in_range td ->
            counters_in_range td /\
            td_frame_id td = to_guint32 (td_frame_id td + Z.of_nat 0) /\
            n_completed_buffers td = to_guint32 (n_completed_buffers td + Z.of_nat 0))
    as Hnone.
  { intros td [Hf Hc]. rewrite !Z.add_0_r, !to_guint32_small by assumption.
    repeat split; tauto. }
  destruct (buffers st1 !! answered_slot it bufd) as [arv_buffer |];
    [destruct (heap st1 !! arv_buffer) as [b |] |]; simpl.
  - split; [reflexivity |]. split.
    { destruct (has_callback (thread_data st1)); [reflexivity | now rewrite app_nil_r]. }
    split. { intros p [<- | []]. apply in_app_iff. right. now left. }
    split. { intros p Hp. apply in_app_iff. left. now apply Hgrow. }
    intros _. repeat split; apply to_guint32_range.
  - split; [reflexivity |]. split.
    { destruct (has_callback (thread_data st1)); now rewrite app_nil_r. }
    split; [tauto |]. split; [exact Hgrow |]. apply Hnone.
  - split; [reflexivity |]. split.
    { destruct (has_callback (thread_data st1)); now rewrite app_nil_r. }
    split; [tauto |]. split; [exact Hgrow |]. apply Hnone.
Qed.

Lemma thread_run_delivers (trace : list iteration) (st : thread_state) :
  let st' := foldl thread_iteration st trace in
  let delivered := delivered_buffers st trace in
  has_callback (thread_data st') = has_callback (thread_data st) /\
  callbacks st'
  = callbacks st
    ++ (if has_callback (thread_data st)
        then map ARV_STREAM_CALLBACK_TYPE_BUFFER_DONE delivered else []) /\
  (forall p, In p delivered -> In p (output_queue st')) /\
  (forall p, In p (output_queue st) -> In p (output_queue st')) /\
  (counters_in_range (thread_data st) ->
   counters_in_range (thread_data st') /\
   td_frame_id (thread_data st')
   = to_guint32 (td_frame_id (thread_data st) + Z.of_nat (length delivered)) /\
   n_completed_buffers (thread_data st')
   = to_guint32 (n_completed_buffers (thread_data st) + Z.of_nat (length delivered))).
Proof.
  revert st. induction trace as [| it rest IH]; intros st.
  - simpl. split; [reflexivity |].
    split; [destruct (has_callback _); now rewrite app_nil_r |].
    split; [tauto |]. split; [tauto |].
    intros Hrange. split; [exact Hrange |]. rewrite !Z.add_0_r.
    destruct Hrange as [Hf Hc]. now rewrite !to_guint32_small.
  - destruct (thread_iteration_delivers st it) as (Hcb1 & Hcalls1 & Hin1 & Hgrow1 & Hcount1).
    destruct (IH (thread_iteration st it)) as (Hcb2 & Hcalls2 & Hin2 & Hgrow2 & Hcount2).
    cbn [foldl delivered_buffers]. simpl in *.
    split; [congruence |]. split; [| split; [| split]].
    + rewrite Hcalls2, Hcalls1, Hcb1.
      destruct (has_callback (thread_data st)).
      * now rewrite map_app, app_assoc.
      * now rewrite !app_nil_r.
    + intros p Hp. apply in_app_iff in Hp as [Hp | Hp]; auto.
    + auto.
    + intros Hrange. destruct (Hcount1 Hrange) as (Hrange1 & Hf1 & Hc1).
      destruct (Hcount2 Hrange1) as (Hrange2 & Hf2 & Hc2).
      split; [exact Hrange2 |].
      rewrite Hf2, Hc2, Hf1, Hc1, length_app, !to_guint32_add. auto.
Qed.

Lemma delivered_buffers_length (trace : list iteration) (st : thread_state) :
  (length (delivered_buffers st trace) <= length trace)%nat.
Proof.
  revert st. induction trace as [| it rest IH]; intros st; simpl; [lia |].
  rewrite length_app. specialize (IH (thread_iteration st it)).
  assert (length (delivered_in_turn st it) <= 1)%nat; [| lia].
  unfold delivered_in_turn.
  destruct (submit_buffers it (it_input it) v4l2_buffer_zero st) as [bufd submitted].
  destruct (buffers submitted !! _) as [arv_buffer |]; [| simpl; lia].
  destruct (heap submitted !! arv_buffer); simpl; lia.
Qed.

Section ThreadRun.

Variable td : ArvV4l2StreamThreadData.
Variable objects : gmap positive ArvBuffer.
Variable trace : list iteration.

(** X17: whatever the kernel answers, the thread never changes the
    failure and underrun counters, nor the image format and the callback
    it was started with. *)
Theorem thread_keeps_configuration :
  same_configuration td (thread_data (arv_v4l2_stream_thread td objects trace)).
Proof.
  unfold arv_v4l2_stream_thread.
  destruct (thread_run_effect trace
              (callback ARV_STREAM_CALLBACK_TYPE_INIT
                 {| thread_data := td; buffers := ∅; heap := objects;
                    output_queue := []; callbacks := [] |})) as (delivered & Hconf & _).
  simpl in Hconf |- *.
  now destruct (drain_buffers_keeps
                  (foldl thread_iteration
                     (callback ARV_STREAM_CALLBACK_TYPE_INIT
                        {| thread_data := td; buffers := ∅; heap := objects;
                           output_queue := []; callbacks := [] |}) trace)) as (-> & _).
Qed.

(** X18: over a whole run the frame counter and the completed counter
    advance by the number of buffers the run delivers, turn after turn:
    in each turn the buffer found in the table, after the submit phase,
    under the index the kernel answers to the dequeue call (0 when the call
    fails).  With a callback the calls are INIT, one BUFFER_DONE for each
    of these buffers in order, and EXIT; without a callback there is none.
    No turn delivers more than one buffer, and every delivered buffer is
    in the output queue. *)
Theorem thread_counts_delivered_buffers :
  counters_in_range td ->
  let st := arv_v4l2_stream_thread td objects trace in
  let delivered := delivered_buffers (thread_start td objects) trace in
  td_frame_id (thread_data st)
  = to_guint32 (td_frame_id td + Z.of_nat (length delivered)) /\
  n_completed_buffers (thread_data st)
  = to_guint32 (n_completed_buffers td + Z.of_nat (length delivered)) /\
  callbacks st
  = (if has_callback td
     then ARV_STREAM_CALLBACK_TYPE_INIT
          :: map ARV_STREAM_CALLBACK_TYPE_BUFFER_DONE delivered
          ++ [ARV_STREAM_CALLBACK_TYPE_EXIT]
     else []) /\
  (length delivered <= length trace)%nat /\
  forall p, In p delivered -> In p (output_queue st).
Proof.
  intros Hrange. unfold arv_v4l2_stream_thread. fold (thread_start td objects).
  destruct (thread_run_delivers trace (thread_start td objects))
    as (Hsame & Hcb & Hin & _ & Hcount).
  destruct (Hcount Hrange) as (_ & Hf & Hc).
  destruct (drain_buffers_keeps (foldl thread_iteration (thread_start td objects) trace))
    as (Hdata & Hcalls & _).
  simpl. rewrite Hdata, Hcalls, Hf, Hc, Hcb, Hsame.
  split; [reflexivity |]. split; [reflexivity |]. split; [| split].
  - simpl. destruct (has_callback td); reflexivity.
  - apply delivered_buffers_length.
  - intros p Hp. rewrite drain_buffers_output. apply in_app_iff. left. now apply Hin.
Qed.

End ThreadRun.

(** X19: a slot that is in the table at some point of the loop is still
    in the table when the loop ends, and the drain pushes the buffer found
    there to the output queue, whether or not its frame was dequeued. *)
Theorem entered_slot_is_drained (st : thread_state) (trace : list iteration) (slot : Z) :
  is_Some (buffers st !! slot) ->
  exists arv_buffer,
    buffers (foldl thread_iteration st trace) !! slot = Some arv_buffer /\
    In arv_buffer (output_queue (drain_buffers (foldl thread_iteration st trace))).
Proof.
  intros Hslot.
  assert (is_Some (buffers (foldl thread_iteration st trace) !! slot)) as [arv_buffer Hend].
  { revert st Hslot. induction trace as [| it rest IH]; intros st Hslot; [exact Hslot |].
    cbn [foldl]. apply IH. now apply thread_iteration_keeps_slots. }
  exists arv_buffer. split; [exact Hend |].
  rewrite drain_buffers_output. apply in_app_iff. right.
  apply list_elem_of_In, list_elem_of_fmap. exists (slot, arv_buffer). split; [reflexivity |].
  now apply elem_of_map_to_list.
Qed.

Lemma thread_keeps_configuration_witness :
  n_failures
    (thread_data (arv_v4l2_stream_thread stream_data {[ 7%positive := fresh_buffer 0 ]}
                    [dequeue_fails [7%positive]])) = 0.
Proof.
  now destruct (thread_keeps_configuration stream_data {[ 7%positive := fresh_buffer 0 ]}
                  [dequeue_fails [7%positive]]) as (_ & _ & _ & _ & -> & _).
Defined.

Lemma thread_counts_delivered_buffers_witness :
  let st := arv_v4l2_stream_thread stream_data {[ 7%positive := fresh_buffer 0 ]}
              [frame_completes [7%positive]; dequeue_fails []; submission_refused []] in
  td_frame_id (thread_data st) = 3 /\
  n_completed_buffers (thread_data st) = 3 /\
  callbacks st = [ ARV_STREAM_CALLBACK_TYPE_INIT;
                   ARV_STREAM_CALLBACK_TYPE_BUFFER_DONE 7%positive;
                   ARV_STREAM_CALLBACK_TYPE_BUFFER_DONE 7%positive;
                   ARV_STREAM_CALLBACK_TYPE_BUFFER_DONE 7%positive;
                   ARV_STREAM_CALLBACK_TYPE_EXIT ] /\
  In 7%positive (output_queue st).
Proof.
  cbv zeta.
  destruct (thread_counts_delivered_buffers stream_data {[ 7%positive := fresh_buffer 0 ]}
              [frame_completes [7%positive]; dequeue_fails []; submission_refused []])
    as (Hframe & Hdone & Hcalls & _ & Hqueue).
  - unfold counters_in_range. simpl. lia.
  - rewrite Hframe, Hdone, Hcalls.
    split; [reflexivity |]. split; [reflexivity |]. split; [reflexivity |].
    apply Hqueue. vm_compute. now left.
Defined.

Lemma entered_slot_is_drained_witness :
  exists arv_buffer,
    buffers (foldl thread_iteration
               (thread_iteration (thread_start stream_data {[ 7%positive := fresh_buffer 0 ]})
                  (frame_completes [7%positive]))
               [frame_completes []]) !! 0 = Some arv_buffer /\
    In arv_buffer
       (output_queue
          (drain_buffers
             (foldl thread_iteration
                (thread_iteration
                   (thread_start stream_data {[ 7%positive := fresh_buffer 0 ]})
                   (frame_completes [7%positive]))
                [frame_completes []]))).
Proof.
  apply (entered_slot_is_drained
           (thread_iteration (thread_start stream_data {[ 7%positive := fresh_buffer 0 ]})
              (frame_completes [7%positive]))
           [frame_completes []] 0).
  vm_compute. eauto.
Defined.

(** * Properties of the submit phase *)

Section Submit.

Variable it : iteration.

(** X20: when the kernel refuses every submission, each buffer taken
    from the input queue is pushed to the output queue at once, in the
    order it was taken, and nothing else changes: no entry is made, no
    status is set, no failure is counted. *)
Theorem refused_buffers_are_returned (input : list positive) (bufd : v4l2_buffer)
    (st : thread_state) :
  (forall bufd, it_qbuf it bufd = None) ->
  (forall arv_buffer, In arv_buffer input -> is_Some (heap st !! arv_buffer)) ->
  let st' := (submit_buffers it input bufd st).2 in
  output_queue st' = output_queue st ++ input /\
  buffers st' = buffers st /\ heap st' = heap st /\
  thread_data st' = thread_data st /\ callbacks st' = callbacks st.
Proof.
  intros Hrefuse. revert bufd st.
  induction input as [| arv_buffer rest IH]; intros bufd st Hvalid; simpl.
  - now rewrite app_nil_r.
  - destruct (Hvalid arv_buffer) as [b Hb]; [now left |]. rewrite Hb, Hrefuse.
    destruct (IH (set_buf_index bufd (to_guint32 (v4l2_index b)))
                (arv_stream_push_output_buffer arv_buffer st)) as (-> & -> & -> & -> & ->).
    + intros p Hp. apply Hvalid. now right.
    + simpl. now rewrite <- app_assoc.
Qed.

Lemma accepted_submission (bufd : v4l2_buffer) (b : ArvBuffer) :
  accepts_submissions it ->
  exists bufd',
    it_qbuf it (set_buf_index bufd (to_guint32 (v4l2_index b))) = Some bufd' /\
    buf_index bufd' = slot_of b.
Proof.
  intros Haccept.
  destruct (Haccept (set_buf_index bufd (to_guint32 (v4l2_index b)))) as (bufd' & Hq & Hi).
  exists bufd'. split; [exact Hq |]. rewrite Hi. reflexivity.
Qed.

(** Submissions for other slots leave a slot of the table alone. *)
Lemma submit_buffers_other_slots (input : list positive) (bufd : v4l2_buffer)
    (st : thread_state) (slot : Z) :
  accepts_submissions it ->
  (forall arv_buffer b, In arv_buffer input -> heap st !! arv_buffer = Some b ->
                        slot_of b <> slot) ->
  buffers (submit_buffers it input bufd st).2 !! slot = buffers st !! slot /\
  output_queue (submit_buffers it input bufd st).2 = output_queue st.
Proof.
  intros Haccept. revert bufd st.
  induction input as [| arv_buffer rest IH]; intros bufd st Hother; simpl.
  - auto.
  - destruct (heap st !! arv_buffer) as [b |] eqn:Hb.
    + destruct (accepted_submission bufd b Haccept) as (bufd' & -> & Hslot).
      destruct (IH bufd' (g_hash_table_replace (buf_index bufd') arv_buffer st))
        as [-> ->].
      * intros p c Hp Hc. apply (Hother p c); [now right | exact Hc].
      * simpl. split; [| reflexivity]. rewrite Hslot.
        apply lookup_insert_ne. apply (Hother arv_buffer b); [now left | exact Hb].
    + apply IH. intros p c Hp Hc. apply (Hother p c); [now right | exact Hc].
Qed.

Lemma accepted_buffers_tracked_in (objects : gmap positive ArvBuffer)
    (input : list positive) (slots : list Z) :
  accepts_submissions it ->
  Forall2 (fun arv_buffer slot =>
             exists b, objects !! arv_buffer = Some b /\ slot_of b = slot) input slots ->
  NoDup slots ->
  forall (bufd : v4l2_buffer) (st : thread_state),
    heap st = objects ->
    let st' := (submit_buffers it input bufd st).2 in
    output_queue st' = output_queue st /\
    Forall2 (fun arv_buffer slot => buffers st' !! slot = Some arv_buffer) input slots.
Proof.
  intros Haccept Hslots.
  induction Hslots as [| arv_buffer slot rest slots' (b & Hb & Hslot) Hrest IH];
    intros Hnodup bufd st Hheap; simpl.
  - split; [reflexivity | constructor].
  - apply NoDup_cons in Hnodup as [Hfresh Hnodup].
    rewrite Hheap, Hb.
    destruct (accepted_submission bufd b Haccept) as (bufd' & -> & Hindex).
    rewrite Hindex, Hslot.
    destruct (submit_buffers_other_slots rest bufd'
                (g_hash_table_replace slot arv_buffer st) slot Haccept) as [Hkept Hqueue].
    { intros p c Hp Hc Hsame. apply Hfresh.
      apply list_elem_of_In in Hp.
      destruct (proj1 (list_elem_of_lookup _ _) Hp) as [n Hn].
      destruct (Forall2_lookup_l _ _ _ _ _ Hrest Hn) as (s & Hs & c' & Hc' & Hslot').
      simpl in Hc. rewrite Hheap, Hc' in Hc. injection Hc as <-.
      apply list_elem_of_lookup. exists n. congruence. }
    destruct (IH Hnodup bufd' (g_hash_table_replace slot arv_buffer st) Hheap)
      as [Hout Htracked].
    split; [rewrite Hout; reflexivity |].
    constructor; [| exact Htracked].
    rewrite Hkept. simpl. apply lookup_insert_eq.
Qed.

(** X21: when the kernel accepts every submission and the buffers taken
    from the input queue belong to pairwise different slots, each of them
    is entered in the table under its slot and none goes to the output
    queue. *)
Theorem accepted_buffers_are_tracked (input : list positive) (slots : list Z)
    (bufd : v4l2_buffer) (st : thread_state) :
  accepts_submissions it ->
  Forall2 (fun arv_buffer slot =>
             exists b, heap st !! arv_buffer = Some b /\ slot_of b = slot) input slots ->
  NoDup slots ->
  let st' := (submit_buffers it input bufd st).2 in
  output_queue st' = output_queue st /\
  Forall2 (fun arv_buffer slot => buffers st' !! slot = Some arv_buffer) input slots.
Proof.
  intros Haccept Hslots Hnodup.
  now apply (accepted_buffers_tracked_in (heap st) input slots Haccept Hslots Hnodup).
Qed.

(** X22: two different buffers of the same slot, both accepted by the
    kernel in one submit phase: the second replaces the first in the
    table, and the first is then neither in the table nor in the output
    queue, nor will the drain at shutdown return it. *)
Theorem same_slot_buffer_is_lost (first second : positive) (b c : ArvBuffer)
    (bufd : v4l2_buffer) (st : thread_state) :
  accepts_submissions it ->
  heap st !! first = Some b -> heap st !! second = Some c ->
  slot_of b = slot_of c -> first <> second ->
  (forall slot, buffers st !! slot <> Some first) ->
  ~ In first (output_queue st) ->
  let st' := (submit_buffers it [first; second] bufd st).2 in
  buffers st' !! slot_of b = Some second /\
  (forall slot, buffers st' !! slot <> Some first) /\
  ~ In first (output_queue st') /\
  ~ In first (output_queue (drain_buffers st')).
Proof.
  intros Haccept Hb Hc Hsame Hdiff Habsent Hout. simpl. rewrite Hb.
  destruct (accepted_submission bufd b Haccept) as (bufd1 & -> & Hi1). simpl. rewrite Hc.
  destruct (accepted_submission bufd1 c Haccept) as (bufd2 & -> & Hi2). simpl.
  rewrite Hi1, Hi2, <- Hsame.
  assert (forall slot,
            <[slot_of b := second]> (<[slot_of b := first]> (buffers st)) !! slot
            <> Some first) as Hgone.
  { intros slot. destruct (decide (slot_of b = slot)) as [<- | Hne].
    - rewrite lookup_insert_eq. congruence.
    - rewrite !lookup_insert_ne by exact Hne. apply Habsent. }
  split; [apply lookup_insert_eq |]. split; [exact Hgone |]. split; [exact Hout |].
  rewrite drain_buffers_output. simpl. intros Hin.
  apply in_app_iff in Hin as [Hin | Hin]; [now apply Hout |].
  apply list_elem_of_In, list_elem_of_fmap in Hin as ([slot p] & Hp & Hentry).
  simpl in Hp. subst p. apply elem_of_map_to_list in Hentry. now apply (Hgone slot).
Qed.

End Submit.

Lemma frame_completes_accepts (input : list positive) :
  accepts_submissions (frame_completes input).
Proof. intros bufd. exists bufd. split; reflexivity. Qed.

Lemma refused_buffers_are_returned_witness :
  output_queue
    (submit_buffers (submission_refused [7%positive; 8%positive]) [7%positive; 8%positive]
       v4l2_buffer_zero
       (thread_start stream_data
          {[ 7%positive := fresh_buffer 0; 8%positive := fresh_buffer 1 ]})).2
  = [7%positive; 8%positive].
Proof.
  destruct (refused_buffers_are_returned (submission_refused [7%positive; 8%positive])
              [7%positive; 8%positive] v4l2_buffer_zero
              (thread_start stream_data
                 {[ 7%positive := fresh_buffer 0; 8%positive := fresh_buffer 1 ]}))
    as (Hout & _).
  - reflexivity.
  - intros p [<- | [<- | []]]; vm_compute; eauto.
  - rewrite Hout. reflexivity.
Defined.

Lemma accepted_buffers_are_tracked_witness :
  buffers
    (submit_buffers (frame_completes [7%positive; 8%positive]) [7%positive; 8%positive]
       v4l2_buffer_zero
       (thread_start stream_data
          {[ 7%positive := fresh_buffer 0; 8%positive := fresh_buffer 1 ]})).2 !! 1
  = Some 8%positive.
Proof.
  destruct (accepted_buffers_are_tracked (frame_completes [7%positive; 8%positive])
              [7%positive; 8%positive] [0; 1] v4l2_buffer_zero
              (thread_start stream_data
                 {[ 7%positive := fresh_buffer 0; 8%positive := fresh_buffer 1 ]}))
    as (_ & Htracked).
  - apply frame_completes_accepts.
  - constructor; [exists (fresh_buffer 0); split; vm_compute; reflexivity |].
    constructor; [exists (fresh_buffer 1); split; vm_compute; reflexivity |].
    constructor.
  - apply NoDup_cons. split; [| apply NoDup_singleton].
    intros Hin. apply list_elem_of_In in Hin. simpl in Hin. intuition lia.
  - inversion Htracked as [| ? ? ? ? _ Hrest]. inversion Hrest as [| ? ? ? ? Hsecond _].
    exact Hsecond.
Defined.

Lemma same_slot_buffer_is_lost_witness :
  ~ In 7%positive
      (output_queue
         (drain_buffers
            (submit_buffers (frame_completes [7%positive; 8%positive])
               [7%positive; 8%positive] v4l2_buffer_zero
               (thread_start stream_data
                  {[ 7%positive := fresh_buffer 0; 8%positive := fresh_buffer 0 ]})).2)).
Proof.
  apply (same_slot_buffer_is_lost (frame_completes [7%positive; 8%positive])
           7%positive 8%positive (fresh_buffer 0) (fresh_buffer 0) v4l2_buffer_zero
           (thread_start stream_data
              {[ 7%positive := fresh_buffer 0; 8%positive := fresh_buffer 0 ]})).
  - apply frame_completes_accepts.
  - reflexivity.
  - reflexivity.
  - reflexivity.
  - discriminate.
  - intros slot. simpl. rewrite lookup_empty. discriminate.
  - simpl. tauto.
Defined.

(** * Properties of buffer creation and of starting and stopping *)

Section CreateBuffers.

Variable k : buffer_kernel.

Lemma create_buffers_loop_success (n : nat) (i : Z) (pushed : list new_buffer) :
  (forall j, (j < n)%nat -> is_Some (k_querybuf k (i + Z.of_nat j))) ->
  let r := create_buffers_loop k n i pushed in
  create_ok r = true /\ create_error r = None /\
  length (create_pushed r) = (length pushed + n)%nat /\
  (forall j, (j < length pushed)%nat -> create_pushed r !! j = pushed !! j) /\
  (forall j, (j < n)%nat ->
     exists size offset,
       k_querybuf k (i + Z.of_nat j) = Some (size, offset) /\
       create_pushed r !! (length pushed + j)%nat
       = Some {| nb_index := i + Z.of_nat j; nb_size := size;
                 nb_data := k_mmap k size offset |}).
Proof.
  revert i pushed. induction n as [| n IH]; intros i pushed Hall; simpl.
  - rewrite Nat.add_0_r. repeat split; auto. intros j Hj. lia.
  - destruct (Hall 0%nat) as [[size offset] Hfirst]; [lia |].
    rewrite Z.add_0_r in Hfirst. rewrite Hfirst.
    destruct (IH (i + 1)
                (pushed ++ [ {| nb_index := i; nb_size := size;
                                nb_data := k_mmap k size offset |} ]))
      as (Hok & Herr & Hlen & Hprefix & Hnew).
    { intros j Hj. replace (i + 1 + Z.of_nat j) with (i + Z.of_nat (S j)) by lia.
      apply Hall. lia. }
    rewrite length_app in Hlen, Hprefix, Hnew. simpl in Hlen, Hprefix, Hnew.
    split; [exact Hok |]. split; [exact Herr |]. split; [lia |]. split.
    + intros j Hj. rewrite Hprefix by lia. now apply lookup_app_l.
    + intros j Hj. destruct j as [| j].
      * exists size, offset. rewrite Z.add_0_r, Nat.add_0_r. split; [exact Hfirst |].
        rewrite Hprefix by lia. rewrite lookup_app_r by lia.
        now rewrite Nat.sub_diag.
      * destruct (Hnew j) as (size' & offset' & Hq & Hentry); [lia |].
        exists size', offset'.
        replace (i + Z.of_nat (S j)) with (i + 1 + Z.of_nat j) by lia.
        split; [exact Hq |].
        replace (length pushed + S j)%nat with (length pushed + 1 + j)%nat by lia.
        exact Hentry.
Qed.

Lemma create_buffers_loop_failure (n : nat) (i : Z) (pushed : list new_buffer) (m : nat) :
  (m < n)%nat ->
  (forall j, (j < m)%nat -> is_Some (k_querybuf k (i + Z.of_nat j))) ->
  k_querybuf k (i + Z.of_nat m) = None ->
  let r := create_buffers_loop k n i pushed in
  create_ok r = false /\
  create_error r = Some ARV_DEVICE_ERROR_PROTOCOL_ERROR /\
  length (create_pushed r) = (length pushed + m)%nat.
Proof.
  revert i pushed m. induction n as [| n IH]; intros i pushed m Hm Hbefore Hfail; [lia |].
  simpl. destruct m as [| m].
  - rewrite Z.add_0_r in Hfail. rewrite Hfail. simpl. repeat split. lia.
  - destruct (Hbefore 0%nat) as [[size offset] Hfirst]; [lia |].
    rewrite Z.add_0_r in Hfirst. rewrite Hfirst.
    destruct (IH (i + 1)
                (pushed ++ [ {| nb_index := i; nb_size := size;
                                nb_data := k_mmap k size offset |} ]) m)
      as (Hok & Herr & Hlen).
    + lia.
    + intros j Hj. replace (i + 1 + Z.of_nat j) with (i + Z.of_nat (S j)) by lia.
      apply Hbefore. lia.
    + replace (i + 1 + Z.of_nat m) with (i + Z.of_nat (S m)) by lia. exact Hfail.
    + rewrite length_app in Hlen. simpl in Hlen. repeat split; auto. lia.
Qed.

(** X23: when the kernel grants the request and describes every slot,
    buffer creation succeeds and pushes one buffer per slot, in slot
    order: the buffer of slot [j] is tagged with the index [j], has the
    length the kernel reports for the slot, whatever size the caller asked
    for, and the address the mapping of that slot returned. *)
Theorem create_buffers_maps_every_slot (n_buffers size : Z) :
  0 <= n_buffers ->
  k_reqbufs k n_buffers = true ->
  (forall j, 0 <= j < n_buffers -> is_Some (k_querybuf k j)) ->
  let r := arv_v4l2_stream_create_buffers k n_buffers size in
  create_ok r = true /\ create_error r = None /\
  Z.of_nat (length (create_pushed r)) = n_buffers /\
  forall j, 0 <= j < n_buffers ->
    exists length offset,
      k_querybuf k j = Some (length, offset) /\
      create_pushed r !! Z.to_nat j
      = Some {| nb_index := j; nb_size := length; nb_data := k_mmap k length offset |}.
Proof.
  intros Hn Hreq Hall. unfold arv_v4l2_stream_create_buffers. rewrite Hreq.
  destruct (create_buffers_loop_success (Z.to_nat n_buffers) 0 [])
    as (Hok & Herr & Hlen & _ & Hnew).
  { intros j Hj. apply Hall. lia. }
  split; [exact Hok |]. split; [exact Herr |]. split; [simpl in Hlen; lia |].
  intros j Hj. destruct (Hnew (Z.to_nat j)) as (len & offset & Hq & Hentry); [lia |].
  exists len, offset. rewrite Z2Nat.id in Hq, Hentry by lia. simpl in Hq, Hentry.
  split; [exact Hq | exact Hentry].
Qed.

(** X24: buffer creation fails with a protocol error when the kernel
    refuses the request, and then nothing is pushed; it also fails with a
    protocol error at the first slot the kernel cannot describe, and the
    buffers of the slots before that one have then been pushed and stay
    pushed. *)
Theorem create_buffers_failure (n_buffers size : Z) :
  let r := arv_v4l2_stream_create_buffers k n_buffers size in
  (k_reqbufs k n_buffers = false ->
   create_ok r = false /\ create_error r = Some ARV_DEVICE_ERROR_PROTOCOL_ERROR /\
   create_pushed r = []) /\
  (forall m, k_reqbufs k n_buffers = true -> 0 <= m < n_buffers ->
     (forall j, 0 <= j < m -> is_Some (k_querybuf k j)) ->
     k_querybuf k m = None ->
     create_ok r = false /\ create_error r = Some ARV_DEVICE_ERROR_PROTOCOL_ERROR /\
     Z.of_nat (length (create_pushed r)) = m).
Proof.
  unfold arv_v4l2_stream_create_buffers. split.
  - intros ->. auto.
  - intros m -> Hm Hbefore Hfail.
    destruct (create_buffers_loop_failure (Z.to_nat n_buffers) 0 [] (Z.to_nat m))
      as (Hok & Herr & Hlen).
    + lia.
    + intros j Hj. apply Hbefore. lia.
    + rewrite Z2Nat.id by lia. exact Hfail.
    + split; [exact Hok |]. split; [exact Herr |]. simpl in Hlen. lia.
Qed.

End CreateBuffers.

Section Acquisition.

Variable k : v4l2_kernel.
Variable device : ArvV4l2DevicePrivate.

(** X25: on a stream with thread data and a device whose active index
    designates the frame size [frame_size] and the generic code [code]:
    a start while a thread is running is refused with no error and no
    change; otherwise the kernel is asked for the width and height of
    [frame_size] (the maximum of a stepwise range) with [code] as pixel
    format.  When it accepts and reports a format, the start succeeds,
    marks the thread as running and started, clears the cancel flag, takes
    [code] as pixel format and the reported width and height, and restarts
    the frame counter at 0 while the statistics keep their values.  When
    it refuses to set or to report the format, the start fails with the
    protocol error, no thread runs, the cancel flag and the started flag
    are cleared and the rest of the thread data is as before. *)
Theorem start_acquisition_outcome (priv : ArvV4l2StreamPrivate)
    (td : ArvV4l2StreamThreadData) (frame_size : v4l2_frmsizeenum) (code : Z) :
  stream_thread_data priv = Some td ->
  0 <= pixel_format_idx device ->
  frame_sizes device !! Z.to_nat (pixel_format_idx device) = Some frame_size ->
  pixel_formats device !! Z.to_nat (pixel_format_idx device) = Some code ->
  let request := {| pix_width := frmsize_width (frm_size frame_size);
                    pix_height := frmsize_height (frm_size frame_size);
                    pix_pixelformat := code; pix_sizeimage := 0 |} in
  let s := arv_v4l2_stream_start_acquisition k device priv in
  (thread priv = true ->
   s = {| start_ok := false; start_error := None; start_priv := priv |}) /\
  (forall set got,
     thread priv = false -> k_s_fmt k request = Some set -> k_g_fmt k set = Some got ->
     s = {| start_ok := true; start_error := None;
            start_priv :=
              {| thread := true; cancel := false; thread_started := true;
                 stream_thread_data :=
                   Some {| has_callback := has_callback td;
                           td_pixel_format := code;
                           td_image_width := pix_width got;
                           td_image_height := pix_height got;
                           td_frame_id := 0;
                           n_completed_buffers := n_completed_buffers td;
                           n_failures := n_failures td;
                           n_underruns := n_underruns td;
                           n_transferred_bytes := n_transferred_bytes td |} |} |}) /\
  (thread priv = false ->
   k_s_fmt k request = None \/
   (exists set, k_s_fmt k request = Some set /\ k_g_fmt k set = None) ->
   s = {| start_ok := false;
          start_error := Some ARV_DEVICE_ERROR_PROTOCOL_ERROR;
          start_priv := {| thread := false; cancel := false; thread_started := false;
                           stream_thread_data := Some td |} |}).
Proof.
  intros Htd Hidx Hfs Hcode request s. unfold s, arv_v4l2_stream_start_acquisition.
  rewrite Htd, (get_image_infos_request k device frame_size code Hidx Hfs Hcode).
  fold request.
  split; [| split].
  - intros ->. reflexivity.
  - intros set got -> -> ->. reflexivity.
  - intros -> [-> | (set & -> & ->)]; reflexivity.
Qed.


End Acquisition.

Lemma create_buffers_maps_every_slot_witness :
  create_pushed (arv_v4l2_stream_create_buffers three_slot_kernel 3 4096) !! 2%nat
  = Some {| nb_index := 2; nb_size := 921600; nb_data := 0x7f0000000000 + 2 * 921600 |}.
Proof.
  destruct (create_buffers_maps_every_slot three_slot_kernel 3 4096)
    as (_ & _ & _ & Hslot).
  - lia.
  - reflexivity.
  - intros j Hj. simpl. destruct (Z.ltb_spec j 3); [eauto | lia].
  - destruct (Hslot 2) as (length & offset & Hq & Hentry); [lia |].
    injection Hq as <- <-. exact Hentry.
Defined.

Lemma create_buffers_failure_witness :
  create_ok (arv_v4l2_stream_create_buffers three_slot_kernel 5 4096) = false /\
  Z.of_nat (length (create_pushed (arv_v4l2_stream_create_buffers three_slot_kernel 5 4096)))
  = 3.
Proof.
  destruct (create_buffers_failure three_slot_kernel 5 4096) as [_ Hfail].
  destruct (Hfail 3) as (Hok & _ & Hlen).
  - reflexivity.
  - lia.
  - intros j Hj. simpl. destruct (Z.ltb_spec j 3); [eauto | lia].
  - reflexivity.
  - split; [exact Hok | exact Hlen].
Defined.

Lemma start_acquisition_outcome_witness :
  arv_v4l2_stream_start_acquisition sizing_kernel two_format_device idle_stream
  = {| start_ok := true; start_error := None;
       start_priv :=
         {| thread := true; cancel := false; thread_started := true;
            stream_thread_data :=
              Some {| has_callback := true; td_pixel_format := 0x02180014;
                      td_image_width := 640; td_image_height := 480; td_frame_id := 0;
                      n_completed_buffers := 0; n_failures := 0; n_underruns := 0;
                      n_transferred_bytes := 0 |} |} |} /\
  arv_v4l2_stream_start_acquisition refusing_kernel two_format_device
    {| thread := false; cancel := true; thread_started := true;
       stream_thread_data := Some stream_data |}
  = {| start_ok := false; start_error := Some ARV_DEVICE_ERROR_PROTOCOL_ERROR;
       start_priv := {| thread := false; cancel := false; thread_started := false;
                        stream_thread_data := Some stream_data |} |}.
Proof.
  split.
  - destruct (start_acquisition_outcome sizing_kernel two_format_device idle_stream
                stream_data
                {| frm_index := 0; frm_pixel_format := 0x33424752;
                   frm_size := frmsize_discrete 640 480 |} 0x02180014)
      as (_ & Hstart & _); [reflexivity | simpl; lia | reflexivity | reflexivity |].
    rewrite (Hstart _ _ eq_refl eq_refl eq_refl). reflexivity.
  - destruct (start_acquisition_outcome refusing_kernel two_format_device
                {| thread := false; cancel := true; thread_started := true;
                   stream_thread_data := Some stream_data |}
                stream_data
                {| frm_index := 0; frm_pixel_format := 0x33424752;
                   frm_size := frmsize_discrete 640 480 |} 0x02180014)
      as (_ & _ & Hfail); [reflexivity | simpl; lia | reflexivity | reflexivity |].
    apply Hfail; [reflexivity | left; reflexivity].
Defined.


Lemma read_other_length_succeeds_witness :
  arv_v4l2_device_read_memory (obliging_kernel [] (fun _ => [])) two_format_device
    0x0200 7 (Some [x01; x02; x03; x04; x05; x06; x07]) 0
  = {| read_ok := true; read_error := None;
       read_buffer := Some [x01; x02; x03; x04; x05; x06; x07] |}.
Proof.
  apply (read_other_length_succeeds (obliging_kernel [] (fun _ => [])) two_format_device).
  - simpl. intuition discriminate.
  - lia.
  - lia.
Defined.

Lemma read_unknown_address_fails_witness :
  read_error (arv_v4l2_device_read_memory (obliging_kernel [] (fun _ => []))
                two_format_device ARV_V4L2_ADDRESS_ACQUISITION_COMMAND 4
                (Some [x01; x02; x03; x04]) 0)
  = Some ARV_DEVICE_ERROR_PROTOCOL_ERROR_INVALID_ADDRESS.
Proof.
  apply (read_unknown_address_fails (obliging_kernel [] (fun _ => [])) two_format_device
           ARV_V4L2_ADDRESS_ACQUISITION_COMMAND [x01; x02; x03; x04] 0).
  - simpl. intuition discriminate.
  - simpl. intuition discriminate.
Defined.

Lemma hardware_timestamp_value_witness :
  timestamp_ns
    (stamp_buffer stream_data
       {| buf_index := 0; buf_tv_sec := 2; buf_tv_usec := 250000; buf_length := 0 |}
       0 (fresh_buffer 0))
  = (2 * 1000000000 + 250000 * 1000) + 999000000000 * 2.
Proof.
  apply (hardware_timestamp_value stream_data
           {| buf_index := 0; buf_tv_sec := 2; buf_tv_usec := 250000; buf_length := 0 |}
           0 (fresh_buffer 0)); simpl; lia.
Defined.
